(** * Youtube-warehousing: the harvesting pipeline of Stream.py and the
      schema set-up of setup_local_db.py, embedded in Rocq.

    Python values are one untyped universe ([value]).  A Python string is
    a sequence of Unicode code points; the duration codec is modelled on
    such sequences, for any table of decimal digits and any limit on the
    digits [int] converts, which are the interpreter's.  The strings of
    payloads and records are [string]s of 8-bit characters, read as the
    code points 0 to 255; on them the decimal digits are 0 to 9 and the
    limit is the interpreter's default.

    The libraries the program calls are modelled by what they do:
    - googleapiclient: [request.execute()] sends the request and returns
      the decoded JSON body, or raises [HttpError] for an answer that is
      not 2xx;
    - re: [\d] matches a decimal digit, [$] matches at the end of the
      string and before a final line feed;
    - sqlite3: [CREATE TABLE IF NOT EXISTS], primary keys, column names
      without regard to case, integers of 64 bits;
    - pandas: [to_sql] appends the rows of a frame in one transaction, a
      frame is empty when it has no row or no column;
    - streamlit and [time.sleep]: recorded as events of a trace.

    The remote service is any state machine that answers requests, so
    every theorem about a fetcher holds for every behaviour of the
    service. *)

From Stdlib Require Import ZArith NArith List String Ascii Bool Arith Lia DecimalString.
Import ListNotations.

Set Warnings "-register-all".

Local Open Scope string_scope.
Local Open Scope list_scope.
Local Open Scope Z_scope.

(* ================================================================== *)
(** * Part I.  Definitions                                              *)
(* ================================================================== *)

(* ------------------------------------------------------------------ *)
(** ** Text: code points, decimal digits, the limit of [int]            *)
(* ------------------------------------------------------------------ *)

Module Text.

(** A Python [str] is a sequence of Unicode code points. *)
Definition codepoint : Type := N.

Definition cp (c : ascii) : codepoint := N_of_ascii c.

(** The code points of a string of 8-bit characters. *)
Definition chars (s : string) : list codepoint :=
  map cp (list_ascii_of_string s).

(** The decimal digits among the code points 0 to 255, with their
    values: there are no others than 0 to 9. *)
Definition latin1_decimal (c : codepoint) : option Z :=
  if ((48 <=? c) && (c <=? 57))%N then Some (Z.of_N c - 48) else None.

(** [sys.int_info.default_max_str_digits]; the program never changes the
    limit. *)
Definition default_max_str_digits : nat := 4300.

(** [int] refuses a string with more digits than the limit, when there
    is a limit (0 means none). *)
Definition exceeds_limit (max_str_digits digits : nat) : bool :=
  ((0 <? max_str_digits) && (max_str_digits <? digits))%nat.

Definition str_of_nat (n : nat) : string :=
  NilEmpty.string_of_uint (Nat.to_uint n).

Definition limit_text (max_str_digits digits : nat) : string :=
  String.append "Exceeds the limit ("
    (String.append (str_of_nat max_str_digits)
      (String.append " digits) for integer string conversion: value has "
        (String.append (str_of_nat digits)
          " digits; use sys.set_int_max_str_digits() to increase the limit"))).

(** *** 8-bit strings as [int] reads them *)

Definition is_digit (c : ascii) : bool :=
  let n := nat_of_ascii c in (48 <=? n)%nat && (n <=? 57)%nat.

Definition digit_val (c : ascii) : Z := Z.of_nat (nat_of_ascii c) - 48.

Definition int_of_digits (ds : list ascii) : Z :=
  fold_left (fun acc c => 10 * acc + digit_val c) ds 0.

(** The white space [int] strips, among the code points 0 to 255. *)
Definition is_space (c : ascii) : bool :=
  let n := nat_of_ascii c in
  ((9 <=? n) && (n <=? 13) || (n =? 32) || (n =? 133) || (n =? 160))%nat.

Fixpoint lstrip (s : list ascii) : list ascii :=
  match s with
  | c :: s' => if is_space c then lstrip s' else s
  | [] => []
  end.

Definition strip (s : list ascii) : list ascii :=
  rev (lstrip (rev (lstrip s))).

(** The digits at the head of [s] and what follows them.  Single
    underscores may stand between digits; [None] for two underscores in
    a row or an underscore that no digit follows. *)
Fixpoint scan_digits (after_underscore : bool) (s : list ascii)
  : option (list ascii * list ascii) :=
  match s with
  | c :: s' =>
      if is_digit c then
        match scan_digits false s' with
        | Some (ds, rest) => Some (c :: ds, rest)
        | None => None
        end
      else if Ascii.eqb c "_" then
        if after_underscore then None else scan_digits true s'
      else if after_underscore then None else Some ([], s)
  | [] => if after_underscore then None else Some ([], [])
  end.

End Text.

(* ------------------------------------------------------------------ *)
(** ** Python values, exceptions and the operations the code uses       *)
(* ------------------------------------------------------------------ *)

Module Py.

(** Decoded JSON and the other plain values the program handles. *)
Inductive value : Type :=
| VNone
| VBool (b : bool)
| VInt (z : Z)
| VStr (s : string)
| VList (l : list value)
| VDict (kv : list (string * value)).

Inductive exn : Type :=
| HttpError (status : Z) (text : string)   (* e.resp.status, str(e) *)
| AttributeError (text : string)
| KeyError (key : string)
| IndexError
| TypeError (text : string)
| ValueError (text : string)
| IntegrityError (text : string)           (* sqlite3.IntegrityError *)
| OperationalError (text : string)         (* sqlite3.OperationalError *)
| InterfaceError (text : string)           (* sqlite3: a value that cannot be bound *)
| OverflowError (text : string)            (* sqlite3: an integer beyond 64 bits *)
| TransportError (text : string).          (* anything else the transport raises *)

Definition str_of_exn (e : exn) : string :=
  match e with
  | HttpError _ t | AttributeError t | TypeError t | ValueError t
  | IntegrityError t | OperationalError t | InterfaceError t
  | OverflowError t | TransportError t => t
  | KeyError k => k
  | IndexError => "list index out of range"
  end.

(** A computation that returns, raises, or (for [while True] loops run
    with a bound) runs out of fuel. *)
Inductive result (A : Type) : Type :=
| Ret (a : A)
| Raise (e : exn)
| OutOfFuel.
Arguments Ret {A} a.
Arguments Raise {A} e.
Arguments OutOfFuel {A}.

Definition rbind {A B} (r : result A) (k : A -> result B) : result B :=
  match r with
  | Ret a => k a
  | Raise e => Raise e
  | OutOfFuel => OutOfFuel
  end.

Definition type_name (v : value) : string :=
  match v with
  | VNone => "NoneType"
  | VBool _ => "bool"
  | VInt _ => "int"
  | VStr _ => "str"
  | VList _ => "list"
  | VDict _ => "dict"
  end.

(** [needle in hay] on strings. *)
Fixpoint contains (needle hay : string) : bool :=
  if String.prefix needle hay then true
  else match hay with
       | EmptyString => false
       | String _ hay' => contains needle hay'
       end.

Fixpoint lookup {A} (k : string) (kv : list (string * A)) : option A :=
  match kv with
  | [] => None
  | (k', v) :: kv' => if String.eqb k k' then Some v else lookup k kv'
  end.

(** Truth value of an object in [if] and [and]. *)
Definition truthy (v : value) : bool :=
  match v with
  | VNone => false
  | VBool b => b
  | VInt z => negb (z =? 0)
  | VStr s => negb (String.eqb s "")
  | VList l => match l with [] => false | _ => true end
  | VDict kv => match kv with [] => false | _ => true end
  end.

(** [v[k]] with a string key. *)
Definition getitem (v : value) (k : string) : result value :=
  match v with
  | VDict kv => match lookup k kv with
                | Some x => Ret x
                | None => Raise (KeyError k)
                end
  | VList _ => Raise (TypeError "list indices must be integers or slices, not str")
  | VStr _ => Raise (TypeError "string indices must be integers")
  | _ => Raise (TypeError (String.append (type_name v) " object is not subscriptable"))
  end.

(** [v[i]] with a non-negative integer index. *)
Definition getindex (v : value) (i : nat) : result value :=
  match v with
  | VList l => match nth_error l i with
               | Some x => Ret x
               | None => Raise IndexError
               end
  | VDict _ => Raise (KeyError "0")
  | VStr s => match String.get i s with
              | Some c => Ret (VStr (String c EmptyString))
              | None => Raise IndexError
              end
  | _ => Raise (TypeError (String.append (type_name v) " object is not subscriptable"))
  end.

Inductive key : Type := K (k : string) | I (i : nat).

(** A chain of subscripts, [v[k1][k2]...], left to right. *)
Fixpoint subscript (v : value) (path : list key) : result value :=
  match path with
  | [] => Ret v
  | K k :: path' => rbind (getitem v k) (fun x => subscript x path')
  | I i :: path' => rbind (getindex v i) (fun x => subscript x path')
  end.

(** [v.get(k, default)]; only dicts have the method. *)
Definition dict_get (v : value) (k : string) (default : value) : result value :=
  match v with
  | VDict kv => match lookup k kv with
                | Some x => Ret x
                | None => Ret default
                end
  | _ => Raise (AttributeError (String.append (type_name v) " object has no attribute get"))
  end.

Definition is_str (s : string) (v : value) : bool :=
  match v with
  | VStr s' => String.eqb s s'
  | _ => false
  end.

(** [k in v] for a string [k]. *)
Definition has_key (k : string) (v : value) : result bool :=
  match v with
  | VDict kv => Ret (match lookup k kv with Some _ => true | None => false end)
  | VList l => Ret (existsb (is_str k) l)
  | VStr s => Ret (contains k s)
  | _ => Raise (TypeError (String.append "argument of type " (String.append (type_name v) " is not iterable")))
  end.

(** [sep.join(items)]: every item must be a string. *)
Fixpoint str_join (sep : string) (items : list value) : result string :=
  match items with
  | [] => Ret ""
  | [VStr s] => Ret s
  | VStr s :: items' =>
      rbind (str_join sep items') (fun t => Ret (String.append s (String.append sep t)))
  | v :: _ => Raise (TypeError (String.append "sequence item: expected str instance, "
                                  (String.append (type_name v) " found")))
  end.

(** Iteration [for x in v]. *)
Definition iter (v : value) : result (list value) :=
  match v with
  | VList l => Ret l
  | VDict kv => Ret (map (fun p => VStr (fst p)) kv)
  | VStr s => Ret (map (fun c => VStr (String c EmptyString)) (list_ascii_of_string s))
  | _ => Raise (TypeError (String.append (type_name v) " object is not iterable"))
  end.

(** [len(v)] *)
Definition py_len (v : value) : result nat :=
  match v with
  | VList l => Ret (List.length l)
  | VDict kv => Ret (List.length kv)
  | VStr s => Ret (String.length s)
  | _ => Raise (TypeError (String.append "object of type " (String.append (type_name v) " has no len()")))
  end.

(** [int(s)] for a string: white space stripped at both ends, an
    optional sign, then digits with single underscores between them and
    nothing else.  The number of digits is checked against the limit
    once they are scanned, before what follows them is looked at. *)
Definition int_of_str (s : string) : result Z :=
  let invalid :=
    Raise (ValueError (String.append "invalid literal for int() with base 10: " s)) in
  let parse (neg : bool) (body : list ascii) :=
    match body with
    | "_"%char :: _ => invalid
    | _ =>
        match Text.scan_digits false body with
        | Some (d :: ds, rest) =>
            let digits := List.length (d :: ds) in
            if Text.exceeds_limit Text.default_max_str_digits digits then
              Raise (ValueError (Text.limit_text Text.default_max_str_digits digits))
            else
              match rest with
              | [] => Ret (if neg then - Text.int_of_digits (d :: ds)
                           else Text.int_of_digits (d :: ds))
              | _ => invalid
              end
        | _ => invalid
        end
    end in
  match Text.strip (list_ascii_of_string s) with
  | "-"%char :: body => parse true body
  | "+"%char :: body => parse false body
  | body => parse false body
  end.

(** [int(v)]: integers and booleans as they are, strings as above. *)
Definition py_int (v : value) : result Z :=
  match v with
  | VInt z => Ret z
  | VBool b => Ret (if b then 1 else 0)
  | VStr s => int_of_str s
  | _ => Raise (TypeError (String.append "int() argument must be a string or a number, not "
                             (type_name v)))
  end.

End Py.

(* ------------------------------------------------------------------ *)
(** ** Duration codec (Stream.py, iso8601_duration_to_seconds)          *)
(* ------------------------------------------------------------------ *)

Module Duration.
Import Py.
Import Text.

Section Interpreter.

(** What the interpreter fixes: the value of a code point as a decimal
    digit ([None] for every other code point), which [\d] and [int]
    share, and the limit on the digits of a string [int] converts. *)
Variable decimal : codepoint -> option Z.
Variable max_str_digits : nat.

(** [\d] *)
Definition is_digit (c : codepoint) : bool :=
  match decimal c with Some _ => true | None => false end.

Definition digit_val (c : codepoint) : Z :=
  match decimal c with Some v => v | None => 0 end.

Definition int_of_digits (ds : list codepoint) : Z :=
  fold_left (fun acc c => 10 * acc + digit_val c) ds 0.

(** [int(group)] for a group matched by [\d+]: the decimal value, or
    [ValueError] when the group has more digits than the limit. *)
Definition int_of_group (ds : list codepoint) : result Z :=
  if exceeds_limit max_str_digits (List.length ds)
  then Raise (ValueError (limit_text max_str_digits (List.length ds)))
  else Ret (int_of_digits ds).

(** The longest run of digits at the head of the input, and what follows. *)
Fixpoint span_digits (s : list codepoint) : list codepoint * list codepoint :=
  match s with
  | c :: s' =>
      if is_digit c
      then let (ds, rest) := span_digits s' in (c :: ds, rest)
      else ([], s)
  | [] => ([], [])
  end.

(** One optional component [(?:(\d+)U)?]: the greedy digit run must be
    followed by the unit marker, otherwise the group is skipped and
    nothing is consumed. *)
Definition opt_component (unit : ascii) (s : list codepoint)
  : option (list codepoint) * list codepoint :=
  match span_digits s with
  | (d :: ds, c :: rest) =>
      if (c =? cp unit)%N then (Some (d :: ds), rest) else (None, s)
  | _ => (None, s)
  end.

Definition newline : ascii := ascii_of_nat 10.

(** [$] without the MULTILINE flag: the end of the string, or just before
    a line feed that is the last character. *)
Definition at_dollar (s : list codepoint) : bool :=
  match s with
  | [] => true
  | [c] => (c =? cp newline)%N
  | _ => false
  end.

(** [re.match(r'^PT(?:(\d+)H)?(?:(\d+)M)?(?:(\d+)S)?$', duration)]:
    [None] when there is no match, otherwise groups 1, 2 and 3. *)
Definition re_match (duration : list codepoint)
  : option (option (list codepoint) * option (list codepoint)
            * option (list codepoint)) :=
  match duration with
  | p :: t :: r0 =>
      if ((p =? cp "P") && (t =? cp "T"))%N then
        let (g1, r1) := opt_component "H" r0 in
        let (g2, r2) := opt_component "M" r1 in
        let (g3, r3) := opt_component "S" r2 in
        if at_dollar r3 then Some (g1, g2, g3) else None
      else None
  | _ => None
  end.

(** [int(match.group(i)) if match.group(i) else 0] *)
Definition group_int (g : option (list codepoint)) : result Z :=
  match g with
  | Some (d :: ds) => int_of_group (d :: ds)
  | _ => Ret 0
  end.

Definition iso8601_duration_to_seconds (duration : list codepoint) : result Z :=
  match re_match duration with
  | None => Ret 0
  | Some (g1, g2, g3) =>
      rbind (group_int g1) (fun hours =>
      rbind (group_int g2) (fun minutes =>
      rbind (group_int g3) (fun seconds =>
      let total_seconds := (hours * 3600) + (minutes * 60) + seconds in
      Ret total_seconds)))
  end.

(** *** The grammar as the specification words it

    A fixed two-character prefix, then an optional hour count, an optional
    minute count and an optional second count, each a run of digits
    followed by its unit marker. *)

Definition digit_run (ds : list codepoint) : Prop :=
  ds <> [] /\ forallb is_digit ds = true.

Definition spec_component (g : option (list codepoint)) (unit : ascii)
  : list codepoint :=
  match g with
  | Some ds => ds ++ [cp unit]
  | None => []
  end.

Definition spec_component_ok (g : option (list codepoint)) : Prop :=
  match g with
  | Some ds => digit_run ds
  | None => True
  end.

Definition spec_token (h m s : option (list codepoint)) : list codepoint :=
  cp "P" :: cp "T" ::
    spec_component h "H" ++ spec_component m "M" ++ spec_component s "S".

Definition spec_value (g : option (list codepoint)) : Z :=
  match g with
  | Some ds => int_of_digits ds
  | None => 0
  end.

Definition in_spec_grammar (tok : list codepoint) : Prop :=
  exists h m s,
    spec_component_ok h /\ spec_component_ok m /\ spec_component_ok s /\
    tok = spec_token h m s.

(** The strings the matcher really accepts: a string of the grammar,
    possibly followed by one line feed. *)
Definition tail_ok (tail : list codepoint) : Prop :=
  tail = [] \/ tail = [cp newline].

Definition in_grammar_upto_newline (tok : list codepoint) : Prop :=
  exists t tail, in_spec_grammar t /\ tail_ok tail /\ tok = t ++ tail.

(** A component [int] converts: within the limit on digits. *)
Definition within_limit (g : option (list codepoint)) : Prop :=
  match g with
  | Some ds => exceeds_limit max_str_digits (List.length ds) = false
  | None => True
  end.

End Interpreter.

(** The table of an interpreter: digits have the values 0 to 9, and the
    ASCII code points that are digits are 0 to 9. *)
Definition unicode_table (decimal : codepoint -> option Z) : Prop :=
  (forall c v, decimal c = Some v -> 0 <= v <= 9) /\
  (forall c, (c < 128)%N -> decimal c = latin1_decimal c).

(** The codec on a string of a payload. *)
Definition seconds_of_str (duration : string) : result Z :=
  iso8601_duration_to_seconds latin1_decimal default_max_str_digits (chars duration).

Definition with_newline (s : string) : string :=
  String.append s (String newline EmptyString).

(** A token of the grammar whose hour count has one digit more than the
    default limit. *)
Definition long_run_token : list codepoint :=
  cp "P" :: cp "T" :: repeat (cp "9") 4301 ++ [cp "H"].

(** A table with two more scripts, for examples: the Arabic-Indic digits
    (U+0660 to U+0669) and the fullwidth digits (U+FF10 to U+FF19). *)
Definition sample_decimal (c : codepoint) : option Z :=
  if ((48 <=? c) && (c <=? 57))%N then Some (Z.of_N c - 48)
  else if ((1632 <=? c) && (c <=? 1641))%N then Some (Z.of_N c - 1632)
  else if ((65296 <=? c) && (c <=? 65305))%N then Some (Z.of_N c - 65296)
  else None.

End Duration.

(* ------------------------------------------------------------------ *)
(** ** The local store: db1.db as sqlite3 and pandas.to_sql treat it    *)
(* ------------------------------------------------------------------ *)

Module Store.
Import Py.

Inductive sqltype : Type := TEXT | INTEGER.

Inductive sqlval : Type := SNull | SInt (z : Z) | SText (s : string).

Definition sqlval_eqb (a b : sqlval) : bool :=
  match a, b with
  | SNull, SNull => true
  | SInt x, SInt y => x =? y
  | SText x, SText y => String.eqb x y
  | _, _ => false
  end.

Record column : Type := mkColumn
  { col_name : string; col_type : sqltype; col_pk : bool }.

(** A table: its declared columns and its rows in insertion order, each
    row holding one cell per declared column.  Cells are stored as they
    are bound (column affinity conversions are left out). *)
Record table : Type := mkTable
  { tbl_columns : list column; tbl_rows : list (list sqlval) }.

Definition row : Type := list (string * value).
Definition dataframe : Type := list row.

(** [df.empty]: no row, or no column.  The columns of a frame made from
    a list of dicts are the keys of all of them. *)
Definition frame_empty (df : dataframe) : bool :=
  forallb (fun r => match r with [] => true | _ => false end) df.

Definition database : Type := list (string * table).

(** Column names compare without regard to ASCII case. *)
Definition lower_char (c : ascii) : ascii :=
  let n := nat_of_ascii c in
  if ((65 <=? n) && (n <=? 90))%nat then ascii_of_nat (n + 32) else c.

Fixpoint lower (s : string) : string :=
  match s with
  | EmptyString => EmptyString
  | String c s' => String (lower_char c) (lower s')
  end.

Definition same_name (a b : string) : bool := String.eqb (lower a) (lower b).

Definition has_column (cols : list column) (name : string) : bool :=
  existsb (fun c => same_name (col_name c) name) cols.

(** [CREATE TABLE IF NOT EXISTS name (cols)]: nothing happens when a
    table of that name is there already, whatever its columns. *)
Definition create_table_if_not_exists
    (name : string) (cols : list column) (d : database) : database :=
  match lookup name d with
  | Some _ => d
  | None => d ++ [(name, mkTable cols [])]
  end.

Fixpoint replace_table (name : string) (t : table) (d : database) : database :=
  match d with
  | [] => []
  | (n, t') :: d' =>
      if String.eqb name n then (n, t) :: d' else (n, t') :: replace_table name t d'
  end.

(** Binding a Python value as a statement parameter; an integer must
    fit the 64 bits of an SQLite INTEGER. *)
Definition bind_value (v : value) : result sqlval :=
  match v with
  | VNone => Ret SNull
  | VBool b => Ret (SInt (if b then 1 else 0))
  | VInt z =>
      if (- 2 ^ 63 <=? z) && (z <? 2 ^ 63) then Ret (SInt z)
      else Raise (OverflowError "Python int too large to convert to SQLite INTEGER")
  | VStr s => Ret (SText s)
  | _ => Raise (InterfaceError "Error binding parameter - probably unsupported type.")
  end.

Fixpoint bind_row (r : row) : result (list (string * sqlval)) :=
  match r with
  | [] => Ret []
  | (c, v) :: r' =>
      rbind (bind_value v) (fun x =>
      rbind (bind_row r') (fun xs => Ret ((c, x) :: xs)))
  end.

Fixpoint find_cell (name : string) (cells : list (string * sqlval)) : sqlval :=
  match cells with
  | [] => SNull
  | (c, x) :: cells' => if same_name c name then x else find_cell name cells'
  end.

(** A stored row violates the primary key when some key column holds the
    same non-NULL cell as the new row (NULL keys never collide in a
    TEXT PRIMARY KEY column). *)
Fixpoint pk_clash (cols : list column) (old new : list sqlval) : option string :=
  match cols, old, new with
  | c :: cols', o :: old', n :: new' =>
      if col_pk c && negb (sqlval_eqb n SNull) && sqlval_eqb o n
      then Some (col_name c)
      else pk_clash cols' old' new'
  | _, _, _ => None
  end.

Fixpoint first_clash (cols : list column) (rows : list (list sqlval))
    (new : list sqlval) : option string :=
  match rows with
  | [] => None
  | old :: rows' =>
      match pk_clash cols old new with
      | Some c => Some c
      | None => first_clash cols rows' new
      end
  end.

Definition unknown_column (cols : list column) (r : row) : option string :=
  match filter (fun p => negb (has_column cols (fst p))) r with
  | [] => None
  | (c, _) :: _ => Some c
  end.

(** One [INSERT INTO name (columns of r) VALUES (?, ...)]. *)
Definition insert_row (name : string) (t : table) (r : row) : result table :=
  match unknown_column (tbl_columns t) r with
  | Some c =>
      Raise (OperationalError
               (String.append "table " (String.append name
                 (String.append " has no column named " c))))
  | None =>
      rbind (bind_row r) (fun cells =>
        let new := map (fun c => find_cell (col_name c) cells) (tbl_columns t) in
        match first_clash (tbl_columns t) (tbl_rows t) new with
        | Some c =>
            Raise (IntegrityError
                     (String.append "UNIQUE constraint failed: "
                       (String.append name (String.append "." c))))
        | None => Ret (mkTable (tbl_columns t) (tbl_rows t ++ [new]))
        end)
  end.

(** [executemany]: the rows one after the other, stopping at the first
    error. *)
Fixpoint executemany (name : string) (t : table) (df : dataframe) : result table :=
  match df with
  | [] => Ret t
  | r :: df' => rbind (insert_row name t r) (fun t' => executemany name t' df')
  end.

(** The table pandas creates when [to_sql] finds none: the frame's
    columns, no key. *)
Definition frame_columns (df : dataframe) : list column :=
  match df with
  | [] => []
  | r :: _ =>
      map (fun p => mkColumn (fst p)
                      (match snd p with VInt _ | VBool _ => INTEGER | _ => TEXT end)
                      false) r
  end.

(** [df.to_sql(name, conn, if_exists='append', index=False)]: all rows go
    in within one transaction, committed at the end; an error rolls the
    transaction back and is raised again, so the result is either the
    database with every row added or an exception and the database as it
    was. *)
Definition to_sql (name : string) (df : dataframe) (d : database) : result database :=
  let d1 := match lookup name d with
            | Some _ => d
            | None => d ++ [(name, mkTable (frame_columns df) [])]
            end in
  match lookup name d1 with
  | Some t => rbind (executemany name t df) (fun t' => Ret (replace_table name t' d1))
  | None => Ret d1
  end.

(** How many stored rows hold [k] in column [name]. *)
Fixpoint cell_at (cols : list column) (cells : list sqlval) (name : string) : sqlval :=
  match cols, cells with
  | c :: cols', x :: cells' =>
      if same_name (col_name c) name then x else cell_at cols' cells' name
  | _, _ => SNull
  end.

Definition count_key (d : database) (tname cname : string) (k : sqlval) : nat :=
  match lookup tname d with
  | Some t =>
      List.length (filter (fun r => sqlval_eqb (cell_at (tbl_columns t) r cname) k)
                     (tbl_rows t))
  | None => O
  end.

Definition row_count (d : database) (tname : string) : nat :=
  match lookup tname d with
  | Some t => List.length (tbl_rows t)
  | None => O
  end.

Definition primary_key (d : database) (tname : string) : list string :=
  match lookup tname d with
  | Some t => map col_name (filter col_pk (tbl_columns t))
  | None => []
  end.

Definition column_type (d : database) (tname cname : string) : option sqltype :=
  match lookup tname d with
  | Some t =>
      match filter (fun c => same_name (col_name c) cname) (tbl_columns t) with
      | c :: _ => Some (col_type c)
      | [] => None
      end
  | None => None
  end.

End Store.

(* ------------------------------------------------------------------ *)
(** ** The remote API, the notification sink and the program state      *)
(* ------------------------------------------------------------------ *)

Module Api.
Import Py Store.

(** The request objects the program builds with the client library. *)
Inductive Request : Type :=
| channels_list (part : string) (id : value)
| playlistItems_list (part : string) (playlistId : value) (maxResults : Z)
    (pageToken : value)
| videos_list (part : string) (id : string)
| commentThreads_list (part : string) (videoId : value) (maxResults : Z)
    (pageToken : value).

(** What executing a request over HTTP gives: the decoded body, or an
    exception ([HttpError] for every non-2xx answer). *)
Inductive http_outcome : Type :=
| HttpOk (body : value)
| HttpRaise (e : exn).

(** What a callable hands back: a plain value, or a request object that
    has an [execute] method. *)
Inductive pyobj : Type :=
| Obj (v : value)
| Req (r : Request).

Inductive level : Type := Warning | Error | Info | Success | Write | Subheader.

(** Everything observable a run does, in order: requests sent, sleeps,
    and the messages given to streamlit (the text as in the source
    without its leading pictograph, the interpolated values beside it). *)
Inductive event : Type :=
| Http (r : Request)
| Sleep (delay : Z)
| St (l : level) (template : string) (args : list value).

Record state (W : Type) : Type := mkState
  { world : W; db : database; trace : list event }.
Arguments mkState {W} world db trace.
Arguments world {W} s.
Arguments db {W} s.
Arguments trace {W} s.

Definition M (W A : Type) : Type := state W -> result A * state W.

Definition ret {W A} (a : A) : M W A := fun s => (Ret a, s).

Definition raise {W A} (e : exn) : M W A := fun s => (Raise e, s).

Definition out_of_fuel {W A} : M W A := fun s => (OutOfFuel, s).

Definition bind {W A B} (c : M W A) (k : A -> M W B) : M W B :=
  fun s =>
    match c s with
    | (Ret a, s') => k a s'
    | (Raise e, s') => (Raise e, s')
    | (OutOfFuel, s') => (OutOfFuel, s')
    end.

Definition lift {W A} (r : result A) : M W A := fun s => (r, s).

Definition emit {W} (e : event) : M W unit :=
  fun s => (Ret tt, mkState (world s) (db s) (trace s ++ [e])).

Definition st {W} (l : level) (template : string) (args : list value) : M W unit :=
  emit (St l template args).

(** [try: c  except <handled> as e: handler e]; an exception that no
    clause handles goes on. *)
Definition try_except {W A} (c : M W A) (handler : exn -> option (M W A)) : M W A :=
  fun s =>
    match c s with
    | (Raise e, s') =>
        match handler e with
        | Some h => h s'
        | None => (Raise e, s')
        end
    | other => other
    end.

(** The delays slept and the requests sent, read off a trace. *)
Definition sleeps (tr : list event) : list Z :=
  flat_map (fun e => match e with Sleep d => [d] | _ => [] end) tr.

Definition requests (tr : list event) : list Request :=
  flat_map (fun e => match e with Http r => [r] | _ => [] end) tr.

Definition messages (tr : list event) : list (level * string) :=
  flat_map (fun e => match e with St l m _ => [(l, m)] | _ => [] end) tr.

Definition get_db {W} : M W database := fun s => (Ret (db s), s).

Definition set_db {W} (d : database) : M W unit :=
  fun s => (Ret tt, mkState (world s) d (trace s)).

Fixpoint for_each {W A} (xs : list A) (body : A -> M W unit) : M W unit :=
  match xs with
  | [] => ret tt
  | x :: xs' => bind (body x) (fun _ => for_each xs' body)
  end.

End Api.

Declare Scope py_scope.
Delimit Scope py_scope with py.
Notation "x <- c ;; k" := (Api.bind c (fun x => k))
  (at level 61, c at next level, right associativity) : py_scope.
Notation "c ;;; k" := (Api.bind c (fun _ => k))
  (at level 61, right associativity) : py_scope.
Notation "x <~ c ;; k" := (Py.rbind c (fun x => k))
  (at level 61, c at next level, right associativity) : py_scope.

(* ------------------------------------------------------------------ *)
(** ** Stream.py                                                        *)
(* ------------------------------------------------------------------ *)

Module Stream.
Import Py Store Api.
Local Open Scope py_scope.

Section Remote.

(** The remote service: any state machine that answers requests. *)
Context {W : Type}.
Variable serve : Request -> W -> http_outcome * W.

(** [request.execute()] of the client library. *)
Definition http_execute (r : Request) : M W value :=
  fun s =>
    let (o, w') := serve r (world s) in
    let s' := mkState w' (db s) (trace s ++ [Http r]) in
    match o with
    | HttpOk body => (Ret body, s')
    | HttpRaise e => (Raise e, s')
    end.

(** [obj.execute()]: request objects have the method; a decoded body (a
    dict, list, string, number or [None]) has no such attribute. *)
Definition call_execute (o : pyobj) : M W value :=
  match o with
  | Req r => http_execute r
  | Obj v => raise (AttributeError
                      (String.append (type_name v) " object has no attribute execute"))
  end.

(** A callable, called with the [*args, **kwargs] it was given. *)
Definition callable : Type := M W pyobj.

(** The bound method [request.execute] passed as the callable, as in
    [safe_api_call(request.execute)]: calling it sends the request and
    hands back the decoded body. *)
Definition bound_execute (r : Request) : callable :=
  body <- http_execute r ;; ret (Obj body).

(** A resource method such as [youtube.videos().list] passed as the
    callable together with its keyword arguments, which is what the
    signature [safe_api_call(request_callable, *args, **kwargs)] is made
    for: calling it builds the request.  No call site of Stream.py does
    this; the fetchers below are written over the way of passing so that
    both can be compared. *)
Definition request_method (r : Request) : callable := ret (Req r).

Definition max_retries : nat := 5.
Definition initial_delay : Z := 1.

(** The loop of [safe_api_call], entered with the current [retries]; the
    first argument bounds the number of iterations. *)
Fixpoint safe_api_loop (fuel : nat) (request_callable : callable) (retries : nat)
  : M W value :=
  if (retries <? max_retries)%nat then
    match fuel with
    | O => out_of_fuel
    | S fuel' =>
        try_except
          (o <- request_callable ;; call_execute o)
          (fun e =>
             match e with
             | HttpError status text =>
                 if (status =? 403) && contains "quotaExceeded" text then
                   let delay := initial_delay * 2 ^ Z.of_nat retries in
                   Some (st Warning
                           "Quota exceeded. Retrying in {delay:.1f} seconds (Attempt {retries + 1}/{max_retries})..."
                           [VInt delay; VInt (Z.of_nat retries + 1);
                            VInt (Z.of_nat max_retries)] ;;;
                         emit (Sleep delay) ;;;
                         safe_api_loop fuel' request_callable (S retries))
                 else if status =? 404 then
                   Some (st Warning
                           "Resource not found (404) for request. Skipping. Error: {e}"
                           [VStr (str_of_exn e)] ;;;
                         ret VNone)
                 else
                   Some (st Error "An unexpected API error occurred: {e}"
                           [VStr (str_of_exn e)] ;;;
                         raise e)
             | _ =>
                 Some (st Error "An unexpected error occurred during API call: {e}"
                         [VStr (str_of_exn e)] ;;;
                       raise e)
             end)
    end
  else
    st Error
      "Failed after {max_retries} retries due to quota issues. Please check your Google Cloud Console for quota status."
      [VInt (Z.of_nat max_retries)] ;;;
    ret VNone.

Definition safe_api_call (request_callable : callable) : M W value :=
  safe_api_loop max_retries request_callable 0.

(** *** The tables as Stream.py declares them *)

Definition videos_columns : list column :=
  [ mkColumn "Video_Id" TEXT true;
    mkColumn "Video_title" TEXT false;
    mkColumn "Video_Description" TEXT false;
    mkColumn "channel_id" TEXT false;
    mkColumn "video_tags" TEXT false;
    mkColumn "Video_pubdate" TEXT false;
    mkColumn "Video_viewcount" INTEGER false;
    mkColumn "Video_likecount" INTEGER false;
    mkColumn "Video_favoritecount" INTEGER false;
    mkColumn "Video_commentcount" INTEGER false;
    mkColumn "Video_duration" INTEGER false;
    mkColumn "Video_thumbnails" TEXT false;
    mkColumn "Video_caption" TEXT false ].

Definition channels_columns : list column :=
  [ mkColumn "channel_name" TEXT false;
    mkColumn "channel_id" TEXT true;
    mkColumn "channel_des" TEXT false;
    mkColumn "channel_playid" TEXT false;
    mkColumn "channel_viewcount" INTEGER false;
    mkColumn "channel_subcount" INTEGER false ].

Definition comments_columns : list column :=
  [ mkColumn "comment_id" TEXT true;
    mkColumn "Comment_Text" TEXT false;
    mkColumn "Comment_Authorname" TEXT false;
    mkColumn "published_date" TEXT false;
    mkColumn "video_id" TEXT false;
    mkColumn "channel_id" TEXT false ].

(** The three [CREATE TABLE IF NOT EXISTS] statements run when the module
    is loaded. *)
Definition startup_ddl (d : database) : database :=
  create_table_if_not_exists "comments" comments_columns
    (create_table_if_not_exists "channels" channels_columns
       (create_table_if_not_exists "videos" videos_columns d)).

Definition execute_ddl (name : string) (cols : list column) : M W unit :=
  d <- get_db ;; set_db (create_table_if_not_exists name cols d).

Definition df_to_sql (name : string) (df : dataframe) : M W unit :=
  fun s =>
    match to_sql name df (db s) with
    | Ret d' => (Ret tt, mkState (world s) d' (trace s))
    | Raise e => (Raise e, s)
    | OutOfFuel => (OutOfFuel, s)
    end.

(** [df[col].iloc[0]] *)
Definition first_cell (df : dataframe) (col : string) : result value :=
  match df with
  | r :: _ => match lookup col r with
              | Some v => Ret v
              | None => Raise (KeyError col)
              end
  | [] => Raise (KeyError col)
  end.

(** [response and response.get("items")] as a condition. *)
Definition has_items (response : value) : result bool :=
  if truthy response
  then items <~ dict_get response "items" VNone ;; Ret (truthy items)
  else Ret false.

(** The dict built in [channel_info]: every field is subscripted, none
    has a default, and the two counts are kept as the payload has them. *)
Definition channel_data (response : value) : result row :=
  name <~ subscript response [K "items"; I 0; K "snippet"; K "title"] ;;
  id <~ subscript response [K "items"; I 0; K "id"] ;;
  des <~ subscript response [K "items"; I 0; K "snippet"; K "description"] ;;
  playid <~ subscript response
    [K "items"; I 0; K "contentDetails"; K "relatedPlaylists"; K "uploads"] ;;
  viewcount <~ subscript response [K "items"; I 0; K "statistics"; K "viewCount"] ;;
  subcount <~ subscript response
    [K "items"; I 0; K "statistics"; K "subscriberCount"] ;;
  Ret [ ("Channel_Name", name); ("Channel_Id", id); ("Channel_Des", des);
        ("Channel_playid", playid); ("channel_viewcount", viewcount);
        ("channel_subcount", subcount) ].

(** [iso8601_duration_to_seconds] applied to whatever the payload holds:
    [re.match] accepts only strings. *)
Definition duration_of (v : value) : result Z :=
  match v with
  | VStr s => Duration.seconds_of_str s
  | _ => Raise (TypeError "expected string or bytes-like object")
  end.

(** The dict [video_info] built for one item of a videos response. *)
Definition video_info (item : value) : result row :=
  snippet <~ dict_get item "snippet" (VDict []) ;;
  statistics <~ dict_get item "statistics" (VDict []) ;;
  contentDetails <~ dict_get item "contentDetails" (VDict []) ;;
  id <~ dict_get item "id" VNone ;;
  title <~ dict_get snippet "title" VNone ;;
  description <~ dict_get snippet "description" VNone ;;
  channelId <~ dict_get snippet "channelId" VNone ;;
  tags <~ dict_get snippet "tags" (VList []) ;;
  tag_list <~ iter tags ;;
  video_tags <~ str_join ", " tag_list ;;
  publishedAt <~ dict_get snippet "publishedAt" VNone ;;
  viewCount <~ dict_get statistics "viewCount" (VInt 0) ;;
  viewcount <~ py_int viewCount ;;
  likeCount <~ dict_get statistics "likeCount" (VInt 0) ;;
  likecount <~ py_int likeCount ;;
  favoriteCount <~ dict_get statistics "favoriteCount" (VInt 0) ;;
  favoritecount <~ py_int favoriteCount ;;
  commentCount <~ dict_get statistics "commentCount" (VInt 0) ;;
  commentcount <~ py_int commentCount ;;
  duration <~ dict_get contentDetails "duration" (VStr "PT0S") ;;
  seconds <~ duration_of duration ;;
  thumbnails <~ dict_get snippet "thumbnails" (VDict []) ;;
  default <~ dict_get thumbnails "default" (VDict []) ;;
  url <~ dict_get default "url" VNone ;;
  caption <~ dict_get contentDetails "caption" (VStr "false") ;;
  Ret [ ("Video_Id", id); ("Video_title", title);
        ("Video_Description", description); ("channel_id", channelId);
        ("video_tags", VStr video_tags); ("Video_pubdate", publishedAt);
        ("Video_viewcount", VInt viewcount); ("Video_likecount", VInt likecount);
        ("Video_favoritecount", VInt favoritecount);
        ("Video_commentcount", VInt commentcount);
        ("Video_duration", VInt seconds); ("Video_thumbnails", url);
        ("Video_caption", caption) ].

Fixpoint video_infos (items : list value) : result (list row) :=
  match items with
  | [] => Ret []
  | item :: items' =>
      info <~ video_info item ;; infos <~ video_infos items' ;; Ret (info :: infos)
  end.

(** The dict [comment] built for one item of a comment-threads response. *)
Definition comment_of (item current_channel_id_for_comments : value) : result row :=
  snippet <~ dict_get item "snippet" (VDict []) ;;
  topLevelComment <~ dict_get snippet "topLevelComment" (VDict []) ;;
  top_level_comment_snippet <~ dict_get topLevelComment "snippet" (VDict []) ;;
  id <~ dict_get item "id" VNone ;;
  textDisplay <~ dict_get top_level_comment_snippet "textDisplay" VNone ;;
  authorDisplayName <~ dict_get top_level_comment_snippet "authorDisplayName" VNone ;;
  publishedAt <~ dict_get top_level_comment_snippet "publishedAt" VNone ;;
  videoId <~ dict_get top_level_comment_snippet "videoId" VNone ;;
  Ret [ ("comment_id", id); ("Comment_Text", textDisplay);
        ("Comment_Authorname", authorDisplayName);
        ("published_date", publishedAt); ("video_id", videoId);
        ("channel_id", current_channel_id_for_comments) ].

Fixpoint comments_of (items : list value) (channel : value) : result (list row) :=
  match items with
  | [] => Ret []
  | item :: items' =>
      c <~ comment_of item channel ;; cs <~ comments_of items' channel ;; Ret (c :: cs)
  end.

(** [any("commentsDisabled" in detail.get("reason", "") for detail in ...)],
    which stops at the first hit. *)
Fixpoint any_comments_disabled (details : list value) : result bool :=
  match details with
  | [] => Ret false
  | detail :: details' =>
      reason <~ dict_get detail "reason" (VStr "") ;;
      hit <~ has_key "commentsDisabled" reason ;;
      if hit then Ret true else any_comments_disabled details'
  end.

Definition is_none (v : value) : bool :=
  match v with VNone => true | _ => false end.

Definition is_403 (v : value) : bool :=
  match v with VInt z => z =? 403 | _ => false end.

(** [range(0, n, 50)] *)
Definition batch_starts (n : nat) : list nat :=
  map (fun k => (50 * k)%nat) (seq 0 ((n + 49) / 50)).

(** [video_ids[i:i+50]] *)
Definition batch_at {A} (video_ids : list A) (i : nat) : list A :=
  firstn 50 (skipn i video_ids).

(** [response2["items"][i]["snippet"]["resourceId"]["videoId"]] for
    [i] in [range(n)]. *)
Fixpoint page_video_ids (response2 : value) (indices : list nat) : result (list value) :=
  match indices with
  | [] => Ret []
  | i :: indices' =>
      v <~ subscript response2
             [K "items"; I i; K "snippet"; K "resourceId"; K "videoId"] ;;
      vs <~ page_video_ids response2 indices' ;;
      Ret (v :: vs)
  end.

Section CallSites.

(** What a call site passes to [safe_api_call] for the request it built. *)
Variable pass : Request -> callable.

Definition channel_info_by (channel_id : value) : M W dataframe :=
  let request := channels_list "snippet,contentDetails,statistics" channel_id in
  response <- safe_api_call (pass request) ;;
  found <- lift (has_items response) ;;
  if found then
    data <- lift (channel_data response) ;;
    ret [data]
  else
    st Warning "No channel data found for ID: {channel_id}" [channel_id] ;;;
    ret [].

Definition eachchanneldetails_by (channel_ids : list value) : M W unit :=
  execute_ddl "channels" channels_columns ;;;
  for_each channel_ids (fun channel_id =>
    df <- channel_info_by channel_id ;;
    if negb (frame_empty df) then
        try_except
          (df_to_sql "channels" df ;;;
           name <- lift (first_cell df "Channel_Name") ;;
           st Success "Channel '{df['Channel_Name'].iloc[0]}' data inserted." [name])
          (fun e =>
             match e with
             | IntegrityError _ =>
                 Some (name <- lift (first_cell df "Channel_Name") ;;
                       st Info
                         "Channel '{df['Channel_Name'].iloc[0]}' (ID: {channel_id}) already exists. Skipping insertion."
                         [name; channel_id])
             | _ =>
                 Some (st Error "Error inserting channel {channel_id} data: {e}"
                         [channel_id; VStr (str_of_exn e)])
             end)
    else st Warning "Could not fetch data for channel ID: {channel_id}" [channel_id]).

(** The [while True] loop of [playlist_videos_id]. *)
Fixpoint playlist_pages_by (fuel : nat) (playlist_Id nextPageToken : value)
    (videos_ids : list value) : M W (list value) :=
  match fuel with
  | O => out_of_fuel
  | S fuel' =>
      response2 <- safe_api_call
        (pass (playlistItems_list "snippet" playlist_Id 50 nextPageToken)) ;;
      if is_none response2 then ret videos_ids
      else
        items <- lift (dict_get response2 "items" (VList [])) ;;
        n <- lift (py_len items) ;;
        ids <- lift (page_video_ids response2 (seq 0 n)) ;;
        let videos_ids := videos_ids ++ ids in
        nextPageToken <- lift (dict_get response2 "nextPageToken" VNone) ;;
        if is_none nextPageToken then ret videos_ids
        else playlist_pages_by fuel' playlist_Id nextPageToken videos_ids
  end.

(** [response and 'items' in response and len(response["items"]) > 0] *)
Definition has_some_items (response : value) : result bool :=
  if truthy response then
    present <~ has_key "items" response ;;
    if present then
      items <~ getitem response "items" ;;
      n <~ py_len items ;;
      Ret (0 <? n)%nat
    else Ret false
  else Ret false.

Fixpoint playlist_channels_by (fuel : nat) (channel_ids : list value)
    (all_video_ids : list value) : M W (list value) :=
  match channel_ids with
  | [] => ret all_video_ids
  | current_channel_id :: channel_ids' =>
      st Info "Fetching playlist for channel: {current_channel_id}"
        [current_channel_id] ;;;
      response <- safe_api_call (pass (channels_list "contentDetails" current_channel_id)) ;;
      ok <- lift (has_some_items response) ;;
      videos_ids <-
        (if ok then
           playlist_Id <- lift (subscript response
             [K "items"; I 0; K "contentDetails"; K "relatedPlaylists"; K "uploads"]) ;;
           playlist_pages_by fuel playlist_Id VNone []
         else
           st Error
             "No content details found for channel ID: {current_channel_id}. It might be invalid or restricted."
             [current_channel_id] ;;;
           ret []) ;;
      playlist_channels_by fuel channel_ids' (all_video_ids ++ videos_ids)
  end.

Definition playlist_videos_id_by (fuel : nat) (channel_ids : list value)
  : M W (list value) :=
  playlist_channels_by fuel channel_ids [].

Fixpoint videos_batches_by (video_ids : list value) (starts : list nat)
    (all_video_stats : list row) : M W (list row) :=
  match starts with
  | [] => ret all_video_stats
  | i :: starts' =>
      let batch_ids := batch_at video_ids i in
      shown <- lift (str_join ", " batch_ids) ;;
      st Write "Fetching batch of video IDs: `{', '.join(batch_ids)}`" [VStr shown] ;;;
      id <- lift (str_join "," batch_ids) ;;
      let request := videos_list "snippet,contentDetails,statistics" id in
      response <- safe_api_call (pass request) ;;
      found <- lift (has_items response) ;;
      if found then
        items <- lift (getitem response "items") ;;
        item_list <- lift (iter items) ;;
        infos <- lift (video_infos item_list) ;;
        videos_batches_by video_ids starts' (all_video_stats ++ infos)
      else
        st Warning
          "No data returned for video batch: {batch_ids}. Could be invalid IDs or quota issues."
          [VList batch_ids] ;;;
        videos_batches_by video_ids starts' all_video_stats
  end.

Definition videos_data_by (video_ids : list value) : M W dataframe :=
  st Subheader "Fetching Video Details" [] ;;;
  match video_ids with
  | [] => st Warning "No video IDs provided to fetch data." [] ;;; ret []
  | _ => videos_batches_by video_ids (batch_starts (List.length video_ids)) []
  end.

(** The [while True] loop of [comments_inf] for one video. *)
Fixpoint comment_pages_by (fuel : nat) (video_id nextpagetoken channel : value)
    (commentdata : list row) : M W (list row) :=
  match fuel with
  | O => out_of_fuel
  | S fuel' =>
      let request := commentThreads_list "snippet" video_id 50 nextpagetoken in
      response <- safe_api_call (pass request) ;;
      if is_none response then ret commentdata
      else
        has_error <- lift (has_key "error" response) ;;
        code <- lift (if has_error then subscript response [K "error"; K "code"]
                      else Ret VNone) ;;
        if has_error && is_403 code then
          error <- lift (getitem response "error") ;;
          errors <- lift (dict_get error "errors" (VList [])) ;;
          details <- lift (iter errors) ;;
          disabled <- lift (any_comments_disabled details) ;;
          if disabled then
            st Warning "Comments are disabled for video ID: {video_id}. Skipping."
              [video_id] ;;;
            ret commentdata
          else
            st Error "Unhandled 403 API error for video {video_id}: {response['error']}"
              [video_id; error] ;;;
            ret commentdata
        else
          items <- lift (dict_get response "items" VNone) ;;
          if truthy items then
            items <- lift (getitem response "items") ;;
            item_list <- lift (iter items) ;;
            comments <- lift (comments_of item_list channel) ;;
            let commentdata := commentdata ++ comments in
            nextpagetoken <- lift (dict_get response "nextPageToken" VNone) ;;
            if negb (truthy nextpagetoken) then ret commentdata
            else comment_pages_by fuel' video_id nextpagetoken channel commentdata
          else
            st Info "No more comments found for video ID: {video_id} or end of pages."
              [video_id] ;;;
            ret commentdata
  end.

Fixpoint comments_videos_by (fuel : nat) (video_ids : list value) (channel : value)
    (commentdata : list row) : M W (list row) :=
  match video_ids with
  | [] => ret commentdata
  | video_id :: video_ids' =>
      st Write "Fetching comments for video ID: `{video_id}`" [video_id] ;;;
      commentdata <- comment_pages_by fuel video_id VNone channel commentdata ;;
      comments_videos_by fuel video_ids' channel commentdata
  end.

Definition comments_inf_by (fuel : nat) (video_ids : list value)
    (current_channel_id_for_comments : value) : M W dataframe :=
  match video_ids with
  | [] => st Warning "No video IDs provided to fetch comments." [] ;;; ret []
  | _ =>
      st Subheader "Fetching comments for {len(video_ids)} videos..."
        [VInt (Z.of_nat (List.length video_ids))] ;;;
      comments_videos_by fuel video_ids current_channel_id_for_comments []
  end.

End CallSites.

(** *** The functions as Stream.py has them: every call site passes the
    bound method [request.execute] to [safe_api_call]. *)

Definition channel_info := channel_info_by bound_execute.
Definition eachchanneldetails := eachchanneldetails_by bound_execute.
Definition playlist_videos_id := playlist_videos_id_by bound_execute.
Definition videos_data := videos_data_by bound_execute.
Definition comments_inf := comments_inf_by bound_execute.

Definition insert_videos_into_sqlite (df1 : dataframe) : M W unit :=
  execute_ddl "videos" videos_columns ;;;
  if negb (frame_empty df1) then
      try_except
        (df_to_sql "videos" df1 ;;;
         st Success "Successfully inserted {len(df1)} video records into 'videos' table!"
           [VInt (Z.of_nat (List.length df1))])
        (fun e => Some (st Error "Error inserting video data: {e}" [VStr (str_of_exn e)]))
  else st Warning "No video data to insert." [].

Definition insert_comments_into_sqlite (df2 : dataframe) : M W unit :=
  execute_ddl "comments" comments_columns ;;;
  if negb (frame_empty df2) then
      try_except
        (df_to_sql "comments" df2 ;;;
         st Success "Successfully inserted {len(df2)} comment records into 'comments' table!"
           [VInt (Z.of_nat (List.length df2))])
        (fun e => Some (st Error "Error inserting comment data: {e}" [VStr (str_of_exn e)]))
  else st Warning "No comment data to insert." [].

(** *** Describing runs *)

(** One evaluation of the body of the [try]. *)
Definition attempt (request_callable : callable) : M W value :=
  o <- request_callable ;; call_execute o.

Definition quota_exceeded (e : exn) : bool :=
  match e with
  | HttpError status text => (status =? 403) && contains "quotaExceeded" text
  | _ => false
  end.

(** The remote answers request [r] with quota-exceeded [n] times in a
    row, taking it from [w] to [w']. *)
Inductive quota_exceeded_times (r : Request) : nat -> W -> W -> Prop :=
| quota_exceeded_0 w : quota_exceeded_times r 0 w w
| quota_exceeded_S n w w1 w2 e :
    serve r w = (HttpRaise e, w1) ->
    quota_exceeded e = true ->
    quota_exceeded_times r n w1 w2 ->
    quota_exceeded_times r (S n) w w2.

(** What one failed attempt number [retries] leaves in the trace. *)
Definition retry_events (r : Request) (retries : nat) : list event :=
  [ Http r;
    St Warning
      "Quota exceeded. Retrying in {delay:.1f} seconds (Attempt {retries + 1}/{max_retries})..."
      [VInt (2 ^ Z.of_nat retries); VInt (Z.of_nat retries + 1); VInt 5];
    Sleep (2 ^ Z.of_nat retries) ].

(** [n] failed attempts in a row, the first of them numbered [k]. *)
Definition retries (r : Request) (k n : nat) : list event :=
  flat_map (retry_events r) (seq k n).

Definition after_retry (retries : nat) (s : state W) : state W :=
  mkState (world s) (db s)
    (trace s ++ [ St Warning
      "Quota exceeded. Retrying in {delay:.1f} seconds (Attempt {retries + 1}/{max_retries})..."
      [VInt (2 ^ Z.of_nat retries); VInt (Z.of_nat retries + 1); VInt 5];
      Sleep (2 ^ Z.of_nat retries) ]).

Definition unexpected_event (e : exn) : event :=
  match e with
  | HttpError _ _ =>
      St Error "An unexpected API error occurred: {e}" [VStr (str_of_exn e)]
  | _ =>
      St Error "An unexpected error occurred during API call: {e}" [VStr (str_of_exn e)]
  end.

Definition is_404 (e : exn) : bool :=
  match e with
  | HttpError status _ => status =? 404
  | _ => false
  end.

(** A callable that sends [r] and lets the transport's exception out. *)
Definition sends (r : Request) (rc : callable) : Prop :=
  forall s e w',
    serve r (world s) = (HttpRaise e, w') ->
    attempt rc s = (Raise e, mkState w' (db s) (trace s ++ [Http r])).

Definition gave_up_event : event :=
  St Error
    "Failed after {max_retries} retries due to quota issues. Please check your Google Cloud Console for quota status."
    [VInt 5].

Definition not_found_event (e : exn) : event :=
  St Warning "Resource not found (404) for request. Skipping. Error: {e}"
    [VStr (str_of_exn e)].

End Remote.

End Stream.

(* ------------------------------------------------------------------ *)
(** ** setup_local_db.py                                                *)
(* ------------------------------------------------------------------ *)

Module SetupLocalDb.
Import Py Store.

Definition videos_columns : list column :=
  [ mkColumn "Video_Id" TEXT false;
    mkColumn "Video_title" TEXT false;
    mkColumn "Video_Description" TEXT false;
    mkColumn "channel_id" TEXT false;
    mkColumn "video_tags" TEXT false;
    mkColumn "Video_pubdate" TEXT false;
    mkColumn "Video_viewcount" INTEGER false;
    mkColumn "Video_likecount" INTEGER false;
    mkColumn "Video_favoritecount" INTEGER false;
    mkColumn "Video_commentcount" INTEGER false;
    mkColumn "Video_duration" TEXT false;
    mkColumn "Video_thumbnails" TEXT false;
    mkColumn "Video_caption" TEXT false ].

Definition channels_columns : list column :=
  [ mkColumn "channel_name" TEXT false;
    mkColumn "channel_id" TEXT false;
    mkColumn "channel_des" TEXT false;
    mkColumn "channel_playid" TEXT false;
    mkColumn "channel_viewcount" INTEGER false;
    mkColumn "channel_subcount" INTEGER false ].

Definition comments_columns : list column :=
  [ mkColumn "comment_id" TEXT false;
    mkColumn "Comment_Text" TEXT false;
    mkColumn "comment_authorname" TEXT false;
    mkColumn "published_date" TEXT false;
    mkColumn "video_id" TEXT false;
    mkColumn "channel_id" TEXT false ].

Definition ensure_tables (d : database) : database :=
  create_table_if_not_exists "comments" comments_columns
    (create_table_if_not_exists "channels" channels_columns
       (create_table_if_not_exists "videos" videos_columns d)).

End SetupLocalDb.

(* ------------------------------------------------------------------ *)
(** ** A scripted remote, for concrete runs                             *)
(* ------------------------------------------------------------------ *)

Module Scripted.
Import Py Store Api.

(** The remote answers with the outcomes of a script, in order, whatever
    the request; once the script is used up the connection fails. *)
Definition script : Type := list http_outcome.

Definition serve (r : Request) (w : script) : http_outcome * script :=
  match w with
  | o :: w' => (o, w')
  | [] => (HttpRaise (TransportError "connection reset"), [])
  end.

Definition start (w : script) (d : database) : state script := mkState w d [].

Definition quota_text : string :=
  "HttpError 403: The request cannot be completed because you have exceeded your quota. reason: quotaExceeded".

Definition quota : http_outcome := HttpRaise (HttpError 403 quota_text).

Definition not_found : http_outcome :=
  HttpRaise (HttpError 404 "HttpError 404: The channel cannot be found. reason: channelNotFound").

Definition comments_disabled : http_outcome :=
  HttpRaise (HttpError 403
    "HttpError 403: The video identified by the videoId parameter has disabled comments. reason: commentsDisabled").

Definition a_channel_request : Request :=
  channels_list "contentDetails" (VStr "UC_x5XG1OV2P6uZZ5FSM9Ttw").

Definition a_payload : value :=
  VDict [("kind", VStr "youtube#channelListResponse"); ("items", VList [])].

(** The exception of looking up [execute] on a decoded body. *)
Definition no_execute : exn := AttributeError "dict object has no attribute execute".

(** *** A channel with three pages of uploads *)

Definition uploads_response : value :=
  VDict [("items", VList
    [VDict [("id", VStr "UC1");
            ("contentDetails",
             VDict [("relatedPlaylists", VDict [("uploads", VStr "UU1")])])]])].

Definition playlist_item (video_id : string) : value :=
  VDict [("snippet", VDict [("resourceId", VDict [("videoId", VStr video_id)])])].

Definition page (video_ids : list string) (next : option string) : value :=
  VDict (("items", VList (map playlist_item video_ids))
         :: match next with
            | Some token => [("nextPageToken", VStr token)]
            | None => []
            end).

Definition page1 : value := page ["a1"; "a2"] (Some "t2").
Definition page2 : value := page ["b1"; "b2"] (Some "t3").
Definition page3 : value := page ["c1"] None.

Definition three_pages : script :=
  [HttpOk uploads_response; HttpOk page1; HttpOk page2; HttpOk page3].

Definition page2_fails : script :=
  [HttpOk uploads_response; HttpOk page1; not_found; HttpOk page3].

(** *** 123 videos *)

Definition nat_str (n : nat) : string := NilEmpty.string_of_uint (Nat.to_uint n).

Definition vid (n : nat) : string := String.append "v" (nat_str n).

Definition video_item (id : string) : value :=
  VDict [("id", VStr id);
         ("snippet", VDict [("title", VStr (String.append "title of " id));
                            ("channelId", VStr "UC1")]);
         ("statistics", VDict [("viewCount", VStr "10"); ("likeCount", VStr "2")]);
         ("contentDetails", VDict [("duration", VStr "PT1M5S")])].

Definition ids_123 : list value := map (fun n => VStr (vid n)) (seq 0 123).

Definition videos_response (first count : nat) : value :=
  VDict [("items", VList (map (fun n => video_item (vid n)) (seq first count)))].

Definition videos_123 : script :=
  [HttpOk (videos_response 0 50); HttpOk (videos_response 50 50);
   HttpOk (videos_response 100 23)].

Definition videos_123_middle_empty : script :=
  [HttpOk (videos_response 0 50); HttpOk (VDict [("items", VList [])]);
   HttpOk (videos_response 100 23)].

(** How many ids a videos request asks for. *)
Definition ids_asked (r : Request) : nat :=
  match r with
  | videos_list _ id =>
      S (List.length (filter (fun c => Ascii.eqb c ","%char) (list_ascii_of_string id)))
  | _ => O
  end.

(** A video of 26 hours, 3 minutes and 4 seconds. *)
Definition long_video_item : value :=
  VDict [("id", VStr "v1");
         ("snippet", VDict [("title", VStr "a long stream")]);
         ("statistics", VDict [("viewCount", VStr "10")]);
         ("contentDetails", VDict [("duration", VStr "P1DT2H3M4S")])].

Definition long_video_info : row :=
  Eval vm_compute in
    match Stream.video_info long_video_item with
    | Ret info => info
    | _ => []
    end.

(** *** Comments *)

Definition comment_item (id video_id : string) : value :=
  VDict [("id", VStr id);
         ("snippet", VDict [("topLevelComment", VDict [("snippet",
            VDict [("textDisplay", VStr "nice");
                   ("authorDisplayName", VStr "someone");
                   ("publishedAt", VStr "2022-01-01T00:00:00Z");
                   ("videoId", VStr video_id)])])])].

Definition comments_response (id video_id : string) : value :=
  VDict [("items", VList [comment_item id video_id])].

Definition other_403 : http_outcome :=
  HttpRaise (HttpError 403
    "HttpError 403: The request is not properly authorized. reason: forbidden").

(** An error document delivered as a decoded body. *)
Definition error_body (reason : string) : value :=
  VDict [("error", VDict [("code", VInt 403);
                          ("errors", VList [VDict [("reason", VStr reason)]])])].

(** *** Channels *)

Definition channel_response (id : string) (statistics : list (string * value))
  : value :=
  VDict [("items", VList
    [VDict [("id", VStr id);
            ("snippet", VDict [("title", VStr "A channel");
                               ("description", VStr "about it")]);
            ("contentDetails",
             VDict [("relatedPlaylists", VDict [("uploads", VStr "UU1")])]);
            ("statistics", VDict statistics)]])].

Definition public_channel : value :=
  channel_response "UC1" [("viewCount", VStr "1000"); ("subscriberCount", VStr "25")].

Definition another_channel : value :=
  channel_response "UC2" [("viewCount", VStr "7"); ("subscriberCount", VStr "3")].

Definition hidden_subscribers_channel : value :=
  channel_response "UC1"
    [("viewCount", VStr "1000"); ("hiddenSubscriberCount", VBool true)].

(** *** Video records for the store *)

Definition video_row (id : string) : row :=
  [ ("Video_Id", VStr id); ("Video_title", VStr "a title");
    ("Video_Description", VStr ""); ("channel_id", VStr "UC1");
    ("video_tags", VStr ""); ("Video_pubdate", VStr "2022-01-01T00:00:00Z");
    ("Video_viewcount", VInt 10); ("Video_likecount", VInt 2);
    ("Video_favoritecount", VInt 0); ("Video_commentcount", VInt 0);
    ("Video_duration", VInt 65); ("Video_thumbnails", VNone);
    ("Video_caption", VStr "false") ].

Definition comment_row (id : string) : row :=
  [ ("comment_id", VStr id); ("Comment_Text", VStr "nice");
    ("Comment_Authorname", VStr "someone");
    ("published_date", VStr "2022-01-01T00:00:00Z");
    ("video_id", VStr "v1"); ("channel_id", VStr "UC1") ].

Definition channel_row (id : string) : row :=
  [ ("Channel_Name", VStr "A channel"); ("Channel_Id", VStr id);
    ("Channel_Des", VStr "about it"); ("Channel_playid", VStr "UU1");
    ("channel_viewcount", VStr "1000"); ("channel_subcount", VStr "25") ].

(** A frame with a column the videos table does not have. *)
Definition misfit_row : row := [ ("Video_Id", VStr "v9"); ("Video_length", VInt 65) ].

(** The store after the application started on an empty file and one
    video, comment or channel was stored. *)
Definition fresh_store : database := Stream.startup_ddl [].

Definition after {A} (run : result A * state script) : state script :=
  mkState [] (db (snd run)) [].

Definition one_video_stored : state script :=
  after (Stream.insert_videos_into_sqlite (W := script) [video_row "v1"]
           (start [] fresh_store)).

Definition one_comment_stored : state script :=
  after (Stream.insert_comments_into_sqlite (W := script) [comment_row "c1"]
           (start [] fresh_store)).

(** The store when setup_local_db.py ran before the application. *)
Definition setup_first : database := Stream.startup_ddl (SetupLocalDb.ensure_tables []).

Definition application_first : database :=
  SetupLocalDb.ensure_tables (Stream.startup_ddl []).

End Scripted.

(* ------------------------------------------------------------------ *)
(** ** Reading the store back                                           *)
(* ------------------------------------------------------------------ *)

Module StoreQuery.
Import Py Store.

Definition value_of_cell (x : sqlval) : value :=
  match x with
  | SNull => VNone
  | SInt z => VInt z
  | SText s => VStr s
  end.

(** A stored row as a row of a frame, under the declared column names. *)
Definition frame_row (cols : list column) (cells : list sqlval) : row :=
  combine (map col_name cols) (map value_of_cell cells).

(** [pd.read_sql_query("SELECT * FROM name WHERE col = ?", conn,
    params=(param,))]: the rows whose cell equals the parameter (nothing
    equals NULL); a missing table or column is an error of the
    statement. *)
Definition select_where (name col : string) (param : value) (d : database)
  : result dataframe :=
  match lookup name d with
  | None => Raise (OperationalError (String.append "no such table: " name))
  | Some t =>
      if has_column (tbl_columns t) col then
        rbind (bind_value param) (fun k =>
          Ret (map (frame_row (tbl_columns t))
                 (filter (fun r => negb (sqlval_eqb k SNull)
                                   && sqlval_eqb (cell_at (tbl_columns t) r col) k)
                    (tbl_rows t))))
      else Raise (OperationalError (String.append "no such column: " col))
  end.

(** The value a frame row gives for a column of the table. *)
Fixpoint row_key (r : row) (name : string) : option value :=
  match r with
  | [] => None
  | (c, v) :: r' => if same_name c name then Some v else row_key r' name
  end.

(** The column that answers to [name] is declared PRIMARY KEY. *)
Fixpoint key_column (cols : list column) (name : string) : bool :=
  match cols with
  | [] => false
  | c :: cols' => if same_name (col_name c) name then col_pk c else key_column cols' name
  end.

(** How many of the rows hold [k] in column [name]. *)
Definition keyed (cols : list column) (rows : list (list sqlval)) (name : string)
    (k : sqlval) : nat :=
  List.length (filter (fun r => sqlval_eqb (cell_at cols r name) k) rows).

(** No key that is not NULL is held by two rows. *)
Definition unique_keys (d : database) (tname cname : string) : Prop :=
  forall k, k <> SNull -> (count_key d tname cname k <= 1)%nat.

End StoreQuery.

(* ------------------------------------------------------------------ *)
(** ** Stream.py: the look-up with fall-back, the report menu and the   *)
(**    three harvest buttons                                            *)
(* ------------------------------------------------------------------ *)

Module App.
Import Py Store Api Stream StoreQuery.
Local Open Scope py_scope.

(** The delays of [count] retries in a row, the first numbered [first]. *)
Definition backoff (first count : nat) : list Z :=
  map (fun i => 2 ^ Z.of_nat i) (seq first count).

(** The options of the "Select Query" box in [main]. *)
Definition query_menu : list string :=
  [ "What are the names of all the videos and their corresponding channels?";
    "Which channels have the most number of videos, and how many videos do they have?";
    "What are the top 10 most viewed videos and their respective channels?";
    "How many comments were made on each video, and what are their corresponding video names?";
    "Which videos have the highest number of likes, and what are their corresponding channel names?";
    "What is the total number of likes for each video, and what are their corresponding video names?";
    "What is the total number of views for each channel, and what are their corresponding channel names?";
    "What are the names of all the channels that have published videos in the year 2022?";
    "What is the average duration of all videos in each channel, and what are their corresponding channel names?";
    "Which videos have the highest number of comments, and what are their corresponding channel names?" ].

(** [query_mapping] of [execute_query]: the statements, with the line
    breaks and indentation of the source replaced by single spaces. *)
Definition query_mapping : list (string * string) :=
  [ ("What are the names of all the videos and their corresponding channels?",
     "SELECT videos.Video_title, channels.channel_name FROM videos JOIN channels ON channels.channel_id = videos.channel_id;");
    ("Which channels have the most number of videos, and how many videos do they have?",
     "SELECT channels.channel_name, COUNT(videos.Video_Id) AS video_count FROM videos JOIN channels ON channels.channel_id = videos.channel_id GROUP BY channels.channel_name ORDER BY video_count DESC;");
    ("What are the top 10 most viewed videos and their respective channels?",
     "SELECT videos.Video_title, channels.channel_name FROM videos JOIN channels ON channels.channel_id = videos.channel_id ORDER BY videos.Video_viewcount DESC LIMIT 10;");
    ("How many comments were made on each video, and what are their corresponding video names?",
     "SELECT videos.Video_title, COUNT(comments.comment_id) AS comment_count FROM videos JOIN comments ON videos.Video_Id = comments.video_id GROUP BY videos.Video_title;");
    ("Which videos have the highest number of likes, and what are their corresponding channel names?",
     "SELECT videos.Video_title, channels.channel_name FROM videos JOIN channels ON channels.channel_id = videos.channel_id ORDER BY videos.Video_likecount DESC LIMIT 1;");
    ("What is the total number of likes for each video, and what are their corresponding video names?",
     "SELECT videos.Video_title, SUM(videos.Video_likecount) AS total_likes FROM videos GROUP BY videos.Video_title;");
    ("What is the total number of views for each channel, and what are their corresponding channel names?",
     "SELECT channels.channel_name, SUM(videos.Video_viewcount) AS total_views FROM videos JOIN channels ON channels.channel_id = videos.channel_id GROUP BY channels.channel_name;");
    ("What are the names of all the channels that have published videos in the year 2022?",
     "SELECT DISTINCT channels.channel_name FROM channels JOIN videos ON channels.channel_id = videos.channel_id WHERE strftime('%Y', videos.Video_pubdate) = '2022';");
    ("What is the average duration of all videos in each channel, and what are their corresponding channel names?",
     "SELECT channels.channel_name, AVG(videos.Video_duration) AS average_duration FROM videos JOIN channels ON videos.channel_id = channels.channel_id GROUP BY channels.channel_name;");
    ("Which videos have the highest number of comments, and what are their corresponding channel names?",
     "SELECT videos.Video_title, channels.channel_name FROM videos JOIN channels ON videos.channel_id = channels.channel_id ORDER BY videos.Video_commentcount DESC LIMIT 1;") ].

Section Remote.

Context {W : Type}.
Variable serve : Request -> W -> http_outcome * W.

(** A computation that leaves the store as it finds it. *)
Definition keeps_db {A} (c : M W A) : Prop :=
  forall s, db (snd (c s)) = db s.

(** A callable whose every call sends [r] once, does nothing else, and
    ends. *)
Definition one_request (r : Request) (rc : @callable W) : Prop :=
  forall s, exists res,
    attempt serve rc s
    = (res, mkState (snd (serve r (world s))) (db s) (trace s ++ [Http r]))
    /\ res <> OutOfFuel.

(** [pd.read_sql_query(query, conn)] for a statement without parameters:
    how the statements of the menu evaluate is left to the database
    engine. *)
Variable read_sql_query : string -> database -> result dataframe.

Definition execute_query (question : string) : M W dataframe :=
  match lookup question query_mapping with
  | Some query =>
      if negb (String.eqb query "") then
        d <- get_db ;; lift (read_sql_query query d)
      else
        st Error "Invalid query selected." [] ;;; ret []
  | None =>
      st Error "Invalid query selected." [] ;;; ret []
  end.

(** What [st.dataframe] does with a frame is left open. *)
Variable st_dataframe : dataframe -> M W unit.

(** The "Perform Queries" page of [main] for a selected question. *)
Definition main_perform_queries (query_question : string) : M W unit :=
  if negb (String.eqb query_question "") then
    query_result_df <- execute_query query_question ;;
    if negb (frame_empty query_result_df) then st_dataframe query_result_df
    else st Warning "No results found for this query, or data tables are empty." []
  else ret tt.

(** The dict [data] of [fetch_channel_data]: the id is the argument, the
    two counts go through [int]. *)
Definition fetched_channel_data (response : value) (newchannel_id : string)
  : result row :=
  name <~ subscript response [K "items"; I 0; K "snippet"; K "title"] ;;
  des <~ subscript response [K "items"; I 0; K "snippet"; K "description"] ;;
  playid <~ subscript response
    [K "items"; I 0; K "contentDetails"; K "relatedPlaylists"; K "uploads"] ;;
  viewCount <~ subscript response [K "items"; I 0; K "statistics"; K "viewCount"] ;;
  viewcount <~ py_int viewCount ;;
  subscriberCount <~ subscript response
    [K "items"; I 0; K "statistics"; K "subscriberCount"] ;;
  subcount <~ py_int subscriberCount ;;
  Ret [ ("channel_name", name); ("channel_id", VStr newchannel_id);
        ("channel_des", des); ("channel_playid", playid);
        ("channel_viewcount", VInt viewcount);
        ("channel_subcount", VInt subcount) ].

Section CallSites.

Variable pass : Request -> @callable W.

Definition fetch_channel_data_by (newchannel_id : string) : M W dataframe :=
  d <- get_db ;;
  df <- lift (select_where "channels" "channel_id" (VStr newchannel_id) d) ;;
  if negb (frame_empty df) then
      st Info "Channel already exists in the database. Returning existing data." [] ;;;
      ret df
  else
      st Info
        "Channel {newchannel_id} not found in DB. Attempting to fetch from YouTube API..."
        [VStr newchannel_id] ;;;
      try_except
        (let request :=
           channels_list "snippet,contentDetails,statistics" (VStr newchannel_id) in
         response <- safe_api_call serve (pass request) ;;
         found <- lift (has_some_items response) ;;
         if found then
           data <- lift (fetched_channel_data response newchannel_id) ;;
           let new_channel_data := [data] in
           try_except
             (df_to_sql "channels" new_channel_data ;;;
              name <- lift (first_cell new_channel_data "channel_name") ;;
              st Success
                "Channel '{new_channel_data['channel_name'].iloc[0]}' inserted into database."
                [name])
             (fun e =>
                match e with
                | IntegrityError _ =>
                    Some (name <- lift (first_cell new_channel_data "channel_name") ;;
                          st Info
                            "Channel '{new_channel_data['channel_name'].iloc[0]}' (ID: {newchannel_id}) already exists. No new insertion."
                            [name; VStr newchannel_id])
                | _ =>
                    Some (st Error "Error inserting new channel data into DB: {e}"
                            [VStr (str_of_exn e)])
                end) ;;;
           ret new_channel_data
         else
           st Warning
             "No items found in the API response for channel ID: {newchannel_id}. It might be invalid or not public."
             [VStr newchannel_id] ;;;
           ret [])
        (fun e =>
           Some (st Error "Error fetching channel data from API: {e}"
                   [VStr (str_of_exn e)] ;;;
                 ret [])).

(** [main], "Fetch & Store Channel Data" pressed. *)
Definition main_fetch_channel_by (current_channel_id : string) : M W unit :=
  if negb (String.eqb current_channel_id "") then
    channel_df <- channel_info_by serve pass (VStr current_channel_id) ;;
    if negb (frame_empty channel_df) then
        try_except
          (df_to_sql "channels" channel_df ;;;
           name <- lift (first_cell channel_df "Channel_Name") ;;
           st Success "Channel '{channel_df['Channel_Name'].iloc[0]}' data inserted/updated!"
             [name] ;;;
           st_dataframe channel_df)
          (fun e =>
             match e with
             | IntegrityError _ =>
                 Some (name <- lift (first_cell channel_df "Channel_Name") ;;
                       st Info
                         "Channel '{channel_df['Channel_Name'].iloc[0]}' (ID: {current_channel_id}) already exists. No new insertion."
                         [name; VStr current_channel_id])
             | _ =>
                 Some (st Error "Error saving channel data: {e}" [VStr (str_of_exn e)])
             end)
    else st Warning "No channel data fetched. Check ID or API quota." []
  else st Error "Please enter a Channel ID first." [].

(** [main], "Fetch & Store Video Data" pressed. *)
Definition main_fetch_videos_by (fuel : nat) (current_channel_id : string) : M W unit :=
  if negb (String.eqb current_channel_id "") then
    video_ids <- playlist_videos_id_by serve pass fuel [VStr current_channel_id] ;;
    match video_ids with
    | _ :: _ =>
        st Info "Found {len(video_ids)} video IDs. Now fetching detailed video data..."
          [VInt (Z.of_nat (List.length video_ids))] ;;;
        videos_df_to_insert <- videos_data_by serve pass video_ids ;;
        if negb (frame_empty videos_df_to_insert)
        then insert_videos_into_sqlite videos_df_to_insert
        else st Warning "No video data could be fetched for insertion." []
    | [] => st Warning "No video IDs found for this channel or API error occurred." []
    end
  else st Error "Please enter a Channel ID first." [].

(** [main], "Fetch & Store Comment Data" pressed. *)
Definition main_fetch_comments_by (fuel : nat) (current_channel_id : string) : M W unit :=
  if negb (String.eqb current_channel_id "") then
    video_ids_for_comments <-
      playlist_videos_id_by serve pass fuel [VStr current_channel_id] ;;
    match video_ids_for_comments with
    | _ :: _ =>
        st Info "Found {len(video_ids_for_comments)} video IDs. Now fetching comments..."
          [VInt (Z.of_nat (List.length video_ids_for_comments))] ;;;
        comments_df_to_insert <-
          comments_inf_by serve pass fuel video_ids_for_comments
            (VStr current_channel_id) ;;
        if negb (frame_empty comments_df_to_insert)
        then insert_comments_into_sqlite comments_df_to_insert
        else st Warning "No comment data could be fetched for insertion." []
    | [] =>
        st Warning "No video IDs found for comment fetching or API error occurred." []
    end
  else st Error "Please enter a Channel ID first." [].

End CallSites.

(** As Stream.py has them, with [request.execute] passed. *)
Definition fetch_channel_data := fetch_channel_data_by (bound_execute serve).
Definition main_fetch_channel := main_fetch_channel_by (bound_execute serve).
Definition main_fetch_videos := main_fetch_videos_by (bound_execute serve).
Definition main_fetch_comments := main_fetch_comments_by (bound_execute serve).

End Remote.

End App.

(* ------------------------------------------------------------------ *)
(** ** The two bulk insertions side by side                             *)
(* ------------------------------------------------------------------ *)

Module Bulk.
Import Py Store Api Stream.

Inductive bulk : Type := Videos | Comments.

Definition bulk_table (b : bulk) : string :=
  match b with Videos => "videos" | Comments => "comments" end.

Definition bulk_key (b : bulk) : string :=
  match b with Videos => "Video_Id" | Comments => "comment_id" end.

Definition bulk_insert {W} (b : bulk) : dataframe -> M W unit :=
  match b with
  | Videos => insert_videos_into_sqlite
  | Comments => insert_comments_into_sqlite
  end.

Definition bulk_success (b : bulk) : string :=
  match b with
  | Videos => "Successfully inserted {len(df1)} video records into 'videos' table!"
  | Comments => "Successfully inserted {len(df2)} comment records into 'comments' table!"
  end.

Definition bulk_nothing (b : bulk) : string :=
  match b with
  | Videos => "No video data to insert."
  | Comments => "No comment data to insert."
  end.

Definition bulk_error (b : bulk) : string :=
  match b with
  | Videos => "Error inserting video data: {e}"
  | Comments => "Error inserting comment data: {e}"
  end.

End Bulk.

(* ------------------------------------------------------------------ *)
(** ** More vocabulary for the statements                               *)
(* ------------------------------------------------------------------ *)

Module Words.
Import Py Store Api.

(** A comment record filed under [channel]. *)
Definition of_channel (channel : value) (r : row) : Prop :=
  lookup "channel_id" r = Some channel.

(** A remote that is out of quota twice and then answers every request
    with 404: it never sends a body. *)
Definition outage (r : Request) (calls : nat) : http_outcome * nat :=
  (match calls with
   | O | S O => Scripted.quota
   | _ => Scripted.not_found
   end, S calls).

(** A stand-in for the database engine: it answers every statement with
    one row that quotes the statement. *)
Definition echo_engine (query : string) (d : database) : result dataframe :=
  Ret [[("statement", VStr query)]].

(** [n] digits and then [tail], and the two ways [int] refuses a
    string. *)
Definition digits_then (n : nat) (tail : string) : string :=
  string_of_list_ascii (repeat "1"%char n ++ list_ascii_of_string tail).

Definition is_invalid (r : result Z) : bool :=
  match r with
  | Raise (ValueError text) => String.prefix "invalid literal" text
  | _ => false
  end.

Definition is_over_limit (r : result Z) : bool :=
  match r with
  | Raise (ValueError text) => String.prefix "Exceeds the limit (4300 digits)" text
  | _ => false
  end.

End Words.

(* ================================================================== *)
(** * Part II.  Theorems                                                *)
(* ================================================================== *)

(* ------------------------------------------------------------------ *)
(** ** [int] on strings                                                 *)
(* ------------------------------------------------------------------ *)

Module IntFacts.
Import Py Text Words.

(** [int] on strings: white space around, a sign, single underscores
    between digits. *)
Example int_accepts :
  map int_of_str [" 12 "; "+5"; "-5"; "1_000"; "007"; "0_0"]
  = [Ret 12; Ret 5; Ret (-5); Ret 1000; Ret 7; Ret 0] /\
  int_of_str (String (ascii_of_nat 160) "12") = Ret 12 /\
  int_of_str (String (ascii_of_nat 9) (String "1" (String (ascii_of_nat 10) ""))) = Ret 1.
Proof. vm_compute. repeat split; reflexivity. Qed.

Example int_refuses :
  forallb (fun s => is_invalid (int_of_str s))
    [""; "  "; "_1"; "1_"; "1__0"; "- 5"; "+ 5"; "++1"; "1+"; "+"; "-"; "+_1";
     "1 2"; "12x"; "1_x"; "0x10"; "1.5"] = true /\
  is_invalid (int_of_str (String (ascii_of_nat 28) "12")) = true.
Proof. vm_compute. split; reflexivity. Qed.

(** The limit counts the digits, leading zeros included and underscores
    not, and it is checked before what follows the digits. *)
Example int_limit :
  int_of_str (digits_then 4300 "") = Ret ((10 ^ 4300 - 1) / 9) /\
  is_over_limit (int_of_str (digits_then 4301 "")) = true /\
  is_over_limit (int_of_str (digits_then 5000 "x")) = true /\
  is_invalid (int_of_str (digits_then 5000 "_")) = true /\
  is_over_limit (int_of_str (string_of_list_ascii (repeat "0"%char 4301))) = true /\
  is_over_limit
    (int_of_str (string_of_list_ascii
                   (List.concat (repeat ["1"%char; "_"%char] 4299) ++ ["1"%char])))
  = false /\
  int_of_str (digits_then 4301 "")
  = Raise (ValueError
      "Exceeds the limit (4300 digits) for integer string conversion: value has 4301 digits; use sys.set_int_max_str_digits() to increase the limit").
Proof. vm_compute. repeat split; reflexivity. Qed.

End IntFacts.

(* ------------------------------------------------------------------ *)
(** ** The duration codec                                               *)
(* ------------------------------------------------------------------ *)

Module DurationFacts.
Import Py Text Duration.

Example ex_pt0s : seconds_of_str "PT0S" = Ret 0.
Proof. reflexivity. Qed.

Example ex_hms : seconds_of_str "PT1H2M3S" = Ret 3723.
Proof. reflexivity. Qed.

Example ex_m : seconds_of_str "PT15M" = Ret 900.
Proof. reflexivity. Qed.

Example ex_pt : seconds_of_str "PT" = Ret 0.
Proof. reflexivity. Qed.

Example ex_bad : seconds_of_str "1H" = Ret 0.
Proof. reflexivity. Qed.

(** Digits of other scripts are digits: one fullwidth 1 as the hours,
    Arabic-Indic 1 and 2 as the seconds. *)
Example ex_fullwidth :
  iso8601_duration_to_seconds sample_decimal default_max_str_digits
    [cp "P"; cp "T"; 65297%N; cp "H"] = Ret 3600 /\
  iso8601_duration_to_seconds sample_decimal default_max_str_digits
    [cp "P"; cp "T"; 1633%N; 1634%N; cp "S"] = Ret 12.
Proof. split; reflexivity. Qed.

Lemma latin1_table : unicode_table latin1_decimal.
Proof.
  split.
  - intros c v. unfold latin1_decimal.
    destruct ((48 <=? c) && (c <=? 57))%N eqn:E; [|discriminate].
    apply andb_true_iff in E. destruct E as [E1 E2].
    apply N.leb_le in E1. apply N.leb_le in E2. intros H. inversion H. lia.
  - reflexivity.
Qed.

Lemma sample_table : unicode_table sample_decimal.
Proof.
  split.
  - intros c v. unfold sample_decimal.
    destruct ((48 <=? c) && (c <=? 57))%N eqn:E.
    { apply andb_true_iff in E. destruct E as [E1 E2].
      apply N.leb_le in E1. apply N.leb_le in E2. intros H. inversion H. lia. }
    destruct ((1632 <=? c) && (c <=? 1641))%N eqn:F.
    { apply andb_true_iff in F. destruct F as [F1 F2].
      apply N.leb_le in F1. apply N.leb_le in F2. intros H. inversion H. lia. }
    destruct ((65296 <=? c) && (c <=? 65305))%N eqn:G; [|discriminate].
    apply andb_true_iff in G. destruct G as [G1 G2].
    apply N.leb_le in G1. apply N.leb_le in G2. intros H. inversion H. lia.
  - intros c Hc. unfold sample_decimal, latin1_decimal.
    destruct ((48 <=? c) && (c <=? 57))%N; [reflexivity|].
    destruct (1632 <=? c)%N eqn:F; [apply N.leb_le in F; lia|].
    destruct (65296 <=? c)%N eqn:G; [apply N.leb_le in G; lia|].
    reflexivity.
Qed.

(** On 8-bit characters the digits of the table are the digits 0 to 9. *)
Lemma latin1_is_digit c :
  Duration.is_digit latin1_decimal (cp c) = Text.is_digit c.
Proof. destruct c as [[] [] [] [] [] [] [] []]; reflexivity. Qed.

Lemma latin1_digits ds :
  forallb Text.is_digit ds = true ->
  forallb (Duration.is_digit latin1_decimal) (map cp ds) = true.
Proof.
  induction ds as [|c ds IH]; cbn [forallb map]; [reflexivity|].
  intros H. apply andb_true_iff in H. destruct H as [H1 H2].
  rewrite latin1_is_digit, H1, (IH H2). reflexivity.
Qed.

Ltac neq_cp := let E := fresh "E" in intro E; vm_compute in E; discriminate E.

(** *** The matcher against the grammar *)

Section Interpreter.

Variable decimal : codepoint -> option Z.
Variable max_str_digits : nat.
Hypothesis table : unicode_table decimal.

Lemma ascii_not_digit c :
  (cp c < 128)%N -> latin1_decimal (cp c) = None -> is_digit decimal (cp c) = false.
Proof.
  intros Hc Hn. unfold is_digit. rewrite (proj2 table _ Hc), Hn. reflexivity.
Qed.

Ltac marker := apply ascii_not_digit; reflexivity.

Lemma is_digit_range c : is_digit decimal c = true -> 0 <= digit_val decimal c <= 9.
Proof.
  unfold is_digit, digit_val. destruct (decimal c) as [v|] eqn:E; [|discriminate].
  intros _. apply (proj1 table c v E).
Qed.

Lemma int_of_digits_acc ds : forall acc,
  forallb (is_digit decimal) ds = true -> 0 <= acc ->
  0 <= fold_left (fun a c => 10 * a + digit_val decimal c) ds acc.
Proof.
  induction ds as [|c ds IH]; intros acc Hd Hacc; cbn [fold_left forallb] in *.
  - exact Hacc.
  - apply andb_true_iff in Hd. destruct Hd as [Hc Hds].
    apply IH; [exact Hds|]. pose proof (is_digit_range c Hc). lia.
Qed.

Lemma int_of_digits_nonneg ds :
  forallb (is_digit decimal) ds = true -> 0 <= int_of_digits decimal ds.
Proof. intros H. apply int_of_digits_acc; [exact H | lia]. Qed.

Lemma span_digits_split s ds r :
  span_digits decimal s = (ds, r) ->
  s = ds ++ r /\ forallb (is_digit decimal) ds = true.
Proof.
  revert ds r. induction s as [|c s IH]; intros ds r H; simpl in H.
  - inversion H. split; reflexivity.
  - destruct (is_digit decimal c) eqn:Hc.
    + destruct (span_digits decimal s) as [ds' r'] eqn:E.
      inversion H; subst. destruct (IH ds' r eq_refl) as [-> Hd].
      split; [reflexivity | simpl; rewrite Hc; exact Hd].
    + inversion H. split; reflexivity.
Qed.

Lemma span_digits_run ds c r :
  forallb (is_digit decimal) ds = true -> is_digit decimal c = false ->
  span_digits decimal (ds ++ c :: r) = (ds, c :: r).
Proof.
  intros Hd Hc. induction ds as [|d ds IH]; simpl in *.
  - rewrite Hc. reflexivity.
  - apply andb_true_iff in Hd. destruct Hd as [Hd1 Hd2].
    rewrite Hd1, (IH Hd2). reflexivity.
Qed.

(** What the matcher consumed is a well-formed component. *)
Lemma opt_component_sound u s g r :
  opt_component decimal u s = (g, r) ->
  s = spec_component g u ++ r /\ spec_component_ok decimal g.
Proof.
  unfold opt_component. intros H.
  destruct (span_digits decimal s) as [ds rest] eqn:E.
  apply span_digits_split in E. destruct E as [Hs Hd].
  destruct ds as [|d ds]; [inversion H; subst; simpl; auto|].
  destruct rest as [|c rest]; [inversion H; subst; simpl; auto|].
  destruct (c =? cp u)%N eqn:Hc.
  - apply N.eqb_eq in Hc. inversion H; subst. simpl. split.
    + rewrite <- app_assoc. reflexivity.
    + split; [discriminate | exact Hd].
  - inversion H; subst. simpl. auto.
Qed.

(** A present component is taken. *)
Lemma opt_component_take u ds r :
  digit_run decimal ds -> is_digit decimal (cp u) = false ->
  opt_component decimal u (ds ++ cp u :: r) = (Some ds, r).
Proof.
  intros [Hne Hd] Hu. unfold opt_component.
  rewrite (span_digits_run ds (cp u) r Hd Hu).
  destruct ds as [|d ds]; [contradiction Hne; reflexivity|].
  rewrite N.eqb_refl. reflexivity.
Qed.

(** An absent component is skipped when what follows the digit run (if
    anything) is another character than this unit marker. *)
Lemma opt_component_skip_run u ds c r :
  forallb (is_digit decimal) ds = true -> is_digit decimal c = false -> c <> cp u ->
  opt_component decimal u (ds ++ c :: r) = (None, ds ++ c :: r).
Proof.
  intros Hd Hc Hcu. unfold opt_component.
  rewrite (span_digits_run ds c r Hd Hc).
  destruct ds as [|d ds]; [reflexivity|].
  apply N.eqb_neq in Hcu. rewrite Hcu. reflexivity.
Qed.

(** Every string of the grammar, with or without one final line feed, is
    matched, and the groups are its components. *)
Lemma re_match_complete h m s tail :
  spec_component_ok decimal h -> spec_component_ok decimal m ->
  spec_component_ok decimal s -> tail_ok tail ->
  re_match decimal (spec_token h m s ++ tail) = Some (h, m, s).
Proof.
  intros Hh Hm Hs Ht. unfold re_match, spec_token. cbn [app].
  rewrite !N.eqb_refl. cbn [andb].
  assert (Skip : forall u ds c r, forallb (is_digit decimal) ds = true ->
            is_digit decimal c = false -> c <> cp u ->
            opt_component decimal u (ds ++ c :: r) = (None, ds ++ c :: r))
    by (intros; apply opt_component_skip_run; assumption).
  assert (Tail : forall u, cp newline <> cp u ->
            opt_component decimal u tail = (None, tail)).
  { intros u Hu. destruct Ht as [-> | ->]; [reflexivity|].
    apply (Skip u [] (cp newline) []); [reflexivity | marker | exact Hu]. }
  assert (HS : opt_component decimal "S" (spec_component s "S" ++ tail) = (s, tail)).
  { destruct s as [ds|]; cbn [spec_component].
    - rewrite <- app_assoc. cbn [app]. apply opt_component_take; [exact Hs | marker].
    - apply Tail. neq_cp. }
  assert (HM : opt_component decimal "M"
                 (spec_component m "M" ++ spec_component s "S" ++ tail)
               = (m, spec_component s "S" ++ tail)).
  { destruct m as [dm|]; cbn [spec_component].
    - rewrite <- app_assoc. cbn [app]. apply opt_component_take; [exact Hm | marker].
    - destruct s as [ds|]; cbn [spec_component app].
      + rewrite <- app_assoc. cbn [app]. destruct Hs as [_ Hs].
        apply Skip; [exact Hs | marker | neq_cp].
      + apply Tail. neq_cp. }
  assert (HH : opt_component decimal "H"
                 (spec_component h "H" ++ spec_component m "M" ++ spec_component s "S" ++ tail)
               = (h, spec_component m "M" ++ spec_component s "S" ++ tail)).
  { destruct h as [dh|]; cbn [spec_component].
    - rewrite <- app_assoc. cbn [app]. apply opt_component_take; [exact Hh | marker].
    - destruct m as [dm|]; cbn [spec_component app].
      + rewrite <- app_assoc. cbn [app]. destruct Hm as [_ Hm].
        apply Skip; [exact Hm | marker | neq_cp].
      + destruct s as [ds|]; cbn [spec_component app].
        * rewrite <- app_assoc. cbn [app]. destruct Hs as [_ Hs].
          apply Skip; [exact Hs | marker | neq_cp].
        * apply Tail. neq_cp. }
  rewrite <- !app_assoc. rewrite HH, HM, HS.
  destruct Ht as [-> | ->]; reflexivity.
Qed.

(** Every match is a string of the grammar followed by at most one final
    line feed. *)
Lemma re_match_sound tok g1 g2 g3 :
  re_match decimal tok = Some (g1, g2, g3) ->
  spec_component_ok decimal g1 /\ spec_component_ok decimal g2 /\
  spec_component_ok decimal g3 /\
  exists tail, tail_ok tail /\ tok = spec_token g1 g2 g3 ++ tail.
Proof.
  unfold re_match. intros H.
  destruct tok as [|p [|t tok]]; try discriminate.
  destruct ((p =? cp "P") && (t =? cp "T"))%N eqn:Hpt; [|discriminate].
  apply andb_true_iff in Hpt. destruct Hpt as [Hp Htt].
  apply N.eqb_eq in Hp. apply N.eqb_eq in Htt. subst p t.
  destruct (opt_component decimal "H" tok) as [h r1] eqn:E1.
  destruct (opt_component decimal "M" r1) as [m r2] eqn:E2.
  destruct (opt_component decimal "S" r2) as [s r3] eqn:E3.
  destruct (at_dollar r3) eqn:E4; [|discriminate].
  inversion H; subst.
  apply opt_component_sound in E1, E2, E3.
  destruct E1 as [-> O1]. destruct E2 as [-> O2]. destruct E3 as [-> O3].
  repeat split; try assumption.
  exists r3. split.
  - unfold tail_ok. destruct r3 as [|c [|c' r]]; cbn [at_dollar] in E4;
      try discriminate; auto.
    apply N.eqb_eq in E4. subst. auto.
  - unfold spec_token. cbn [app]. rewrite <- !app_assoc. reflexivity.
Qed.

(** [int] on a group: its value within the limit, [ValueError] beyond. *)
Lemma group_int_cases g :
  spec_component_ok decimal g ->
  (within_limit max_str_digits g /\
   group_int decimal max_str_digits g = Ret (spec_value decimal g) /\
   0 <= spec_value decimal g) \/
  (~ within_limit max_str_digits g /\
   exists text, group_int decimal max_str_digits g = Raise (ValueError text)).
Proof.
  destruct g as [ds|]; cbn [spec_component_ok within_limit group_int spec_value].
  - intros [Hne Hd]. destruct ds as [|d ds]; [contradiction Hne; reflexivity|].
    unfold int_of_group.
    destruct (exceeds_limit max_str_digits (List.length (d :: ds))) eqn:E.
    + right. split; [discriminate | eexists; reflexivity].
    + left. split; [reflexivity | split; [reflexivity|]].
      apply int_of_digits_nonneg. exact Hd.
  - intros _. left. split; [exact Logic.I | split; [reflexivity | lia]].
Qed.

Lemma seconds_of_token h m s tail :
  spec_component_ok decimal h -> spec_component_ok decimal m ->
  spec_component_ok decimal s -> tail_ok tail ->
  within_limit max_str_digits h -> within_limit max_str_digits m ->
  within_limit max_str_digits s ->
  iso8601_duration_to_seconds decimal max_str_digits (spec_token h m s ++ tail)
  = Ret (spec_value decimal h * 3600 + spec_value decimal m * 60 + spec_value decimal s).
Proof.
  intros Hh Hm Hs Ht Fh Fm Fs. unfold iso8601_duration_to_seconds.
  rewrite (re_match_complete h m s tail Hh Hm Hs Ht).
  destruct (group_int_cases h Hh) as [(_ & -> & _) | [N _]]; [|contradiction].
  destruct (group_int_cases m Hm) as [(_ & -> & _) | [N _]]; [|contradiction].
  destruct (group_int_cases s Hs) as [(_ & -> & _) | [N _]]; [|contradiction].
  reflexivity.
Qed.

Lemma seconds_of_long_run h m s tail :
  spec_component_ok decimal h -> spec_component_ok decimal m ->
  spec_component_ok decimal s -> tail_ok tail ->
  ~ (within_limit max_str_digits h /\ within_limit max_str_digits m /\
     within_limit max_str_digits s) ->
  exists text,
    iso8601_duration_to_seconds decimal max_str_digits (spec_token h m s ++ tail)
    = Raise (ValueError text).
Proof.
  intros Hh Hm Hs Ht N. unfold iso8601_duration_to_seconds.
  rewrite (re_match_complete h m s tail Hh Hm Hs Ht).
  destruct (group_int_cases h Hh) as [(Fh & -> & _) | [_ [text ->]]];
    [|exists text; reflexivity].
  destruct (group_int_cases m Hm) as [(Fm & -> & _) | [_ [text ->]]];
    [|exists text; reflexivity].
  destruct (group_int_cases s Hs) as [(Fs & -> & _) | [_ [text ->]]];
    [|exists text; reflexivity].
  contradiction N. repeat split; assumption.
Qed.

Lemma matched_in_grammar tok groups :
  re_match decimal tok = Some groups -> in_grammar_upto_newline decimal tok.
Proof.
  destruct groups as [[g1 g2] g3]. intros E.
  apply re_match_sound in E. destruct E as (H1 & H2 & H3 & tail & Ht & ->).
  exists (spec_token g1 g2 g3), tail. split; [|split; [exact Ht | reflexivity]].
  exists g1, g2, g3. repeat split; assumption.
Qed.

Lemma unmatched_not_in_grammar tok :
  re_match decimal tok = None -> ~ in_grammar_upto_newline decimal tok.
Proof.
  intros E (t & tail & (h & m & s & Hh & Hm & Hs & ->) & Ht & ->).
  rewrite (re_match_complete h m s tail Hh Hm Hs Ht) in E. discriminate.
Qed.

Lemma seconds_outside_grammar tok :
  ~ in_grammar_upto_newline decimal tok ->
  iso8601_duration_to_seconds decimal max_str_digits tok = Ret 0.
Proof.
  intros H. unfold iso8601_duration_to_seconds.
  destruct (re_match decimal tok) as [groups|] eqn:E; [|reflexivity].
  contradiction H. apply (matched_in_grammar tok groups E).
Qed.

(** The codec ends for every input, with a number that is not negative
    or with the [ValueError] of [int]; the latter only on a match. *)
Lemma seconds_result tok :
  match iso8601_duration_to_seconds decimal max_str_digits tok with
  | Ret seconds => 0 <= seconds
  | Raise (ValueError _) => in_grammar_upto_newline decimal tok
  | _ => False
  end.
Proof.
  unfold iso8601_duration_to_seconds.
  destruct (re_match decimal tok) as [[[g1 g2] g3]|] eqn:E; [|lia].
  pose proof (matched_in_grammar tok _ E) as G.
  apply re_match_sound in E. destruct E as (H1 & H2 & H3 & _).
  destruct (group_int_cases g1 H1) as [(_ & -> & P1) | [_ [text ->]]]; [|exact G].
  destruct (group_int_cases g2 H2) as [(_ & -> & P2) | [_ [text ->]]]; [|exact G].
  destruct (group_int_cases g3 H3) as [(_ & -> & P3) | [_ [text ->]]]; [|exact G].
  cbn [rbind]. lia.
Qed.

Lemma seconds_nonneg tok seconds :
  iso8601_duration_to_seconds decimal max_str_digits tok = Ret seconds -> 0 <= seconds.
Proof. intros E. pose proof (seconds_result tok) as R. rewrite E in R. exact R. Qed.

(** A token that goes on with a digit after the P is not matched: the
    pattern wants T there. *)
Lemma days_token_unmatched ds rest :
  digit_run decimal ds ->
  iso8601_duration_to_seconds decimal max_str_digits (cp "P" :: ds ++ rest) = Ret 0.
Proof.
  intros [Hne Hd]. destruct ds as [|c ds]; [contradiction Hne; reflexivity|].
  cbn [forallb] in Hd. apply andb_true_iff in Hd. destruct Hd as [Hc _].
  unfold iso8601_duration_to_seconds, re_match. cbn [app].
  destruct (c =? cp "T")%N eqn:E.
  - apply N.eqb_eq in E. subst c.
    assert (F : is_digit decimal (cp "T") = false) by marker.
    rewrite F in Hc. discriminate Hc.
  - rewrite andb_false_r. reflexivity.
Qed.

End Interpreter.

Lemma str_seconds_nonneg duration seconds :
  seconds_of_str duration = Ret seconds -> 0 <= seconds.
Proof. apply (seconds_nonneg latin1_decimal default_max_str_digits latin1_table). Qed.

(** The same on a string of 8-bit characters. *)
Lemma str_days_token_unmatched ds rest :
  ds <> [] -> forallb Text.is_digit ds = true ->
  seconds_of_str (string_of_list_ascii ("P"%char :: ds ++ rest)) = Ret 0.
Proof.
  intros Hne Hd. unfold seconds_of_str, chars.
  rewrite list_ascii_of_string_of_list_ascii. cbn [map]. rewrite map_app.
  apply (days_token_unmatched latin1_decimal default_max_str_digits latin1_table).
  split.
  - destruct ds; [contradiction Hne; reflexivity | discriminate].
  - apply latin1_digits. exact Hd.
Qed.

(** C7 as stated fails twice.  A token of the grammar followed by a line
    feed is not a token of the grammar, yet it is decoded like the token
    and not to 0; and a token of the grammar whose hour count has 4301
    digits makes [int] raise [ValueError], so the codec does raise. *)
Lemma newline_is_decoded_and_long_run_raises :
  ~ in_spec_grammar latin1_decimal (chars (with_newline "PT1H")) /\
  seconds_of_str (with_newline "PT1H") = Ret 3600 /\
  in_spec_grammar latin1_decimal long_run_token /\
  iso8601_duration_to_seconds latin1_decimal default_max_str_digits long_run_token
  = Raise (ValueError (limit_text 4300 4301)).
Proof.
  split; [|split; [reflexivity | split]].
  - intros (h & m & s & Hh & Hm & Hs & E).
    pose proof (re_match_complete latin1_decimal latin1_table h m s [cp newline]
                  Hh Hm Hs (or_intror eq_refl)) as C.
    rewrite <- E in C. vm_compute in C. discriminate C.
  - exists (Some (repeat (cp "9") 4301)), None, None.
    split; [|split; [exact Logic.I | split; [exact Logic.I | reflexivity]]].
    split; [intro E; vm_compute in E; discriminate E | vm_compute; reflexivity].
  - vm_compute. reflexivity.
Qed.

(** C7, as the code has it.  For every string, of whatever code points,
    the codec ends: with a number that is not negative, or with the
    [ValueError] of [int], and with that only when the string matches.
    A token of the grammar (the prefix PT, then optional digit runs for
    hours, minutes and seconds with their unit markers; the digits are
    the decimal digits of Unicode), alone or followed by one final line
    feed, decodes to hours*3600 + minutes*60 + seconds, omitted
    components counting 0, when none of its digit runs is longer than
    the limit of [int] on digits (4300 unless the interpreter is told
    otherwise), and raises [ValueError] when one is.  Every other string
    decodes to 0. *)
Theorem duration_codec_decodes
    (decimal : codepoint -> option Z) (max_str_digits : nat)
    (h m s : option (list codepoint)) (tail other any : list codepoint) :
  unicode_table decimal ->
  spec_component_ok decimal h -> spec_component_ok decimal m ->
  spec_component_ok decimal s -> tail_ok tail ->
  ~ in_grammar_upto_newline decimal other ->
  let decode := iso8601_duration_to_seconds decimal max_str_digits in
  let fits := within_limit max_str_digits in
  (fits h /\ fits m /\ fits s ->
   decode (spec_token h m s ++ tail)
   = Ret (spec_value decimal h * 3600 + spec_value decimal m * 60
          + spec_value decimal s) /\
   0 <= spec_value decimal h * 3600 + spec_value decimal m * 60
        + spec_value decimal s) /\
  (~ (fits h /\ fits m /\ fits s) ->
   exists text, decode (spec_token h m s ++ tail) = Raise (ValueError text)) /\
  decode other = Ret 0 /\
  match decode any with
  | Ret seconds => 0 <= seconds
  | Raise (ValueError _) => in_grammar_upto_newline decimal any
  | _ => False
  end.
Proof.
  intros T Hh Hm Hs Ht Hother decode fits.
  split; [|split; [|split]].
  - intros (Fh & Fm & Fs). split.
    + apply seconds_of_token; assumption.
    + apply (seconds_nonneg decimal max_str_digits T (spec_token h m s ++ tail)).
      apply seconds_of_token; assumption.
  - intros N. apply seconds_of_long_run; assumption.
  - apply seconds_outside_grammar; assumption.
  - apply seconds_result. exact T.
Qed.

Lemma duration_codec_decodes_witness :
  seconds_of_str (with_newline "PT1H30S") = Ret 3630 /\
  seconds_of_str "1:00:30" = Ret 0 /\
  (exists text,
     iso8601_duration_to_seconds latin1_decimal default_max_str_digits long_run_token
     = Raise (ValueError text)) /\
  iso8601_duration_to_seconds sample_decimal default_max_str_digits
    [cp "P"; cp "T"; 65297%N; cp "H"] = Ret 3600.
Proof.
  destruct (duration_codec_decodes latin1_decimal default_max_str_digits
              (Some [cp "1"]) None (Some [cp "3"; cp "0"]) [cp newline]
              (chars "1:00:30") (chars "PT0S")) as (A & _ & B & _).
  - exact latin1_table.
  - split; [discriminate | reflexivity].
  - exact Logic.I.
  - split; [discriminate | reflexivity].
  - right. reflexivity.
  - apply (unmatched_not_in_grammar latin1_decimal latin1_table). reflexivity.
  - destruct (duration_codec_decodes latin1_decimal default_max_str_digits
                (Some (repeat (cp "9") 4301)) None None []
                (chars "1:00:30") (chars "PT0S")) as (_ & C & _).
    + exact latin1_table.
    + split; [intro E; vm_compute in E; discriminate E | vm_compute; reflexivity].
    + exact Logic.I.
    + exact Logic.I.
    + left. reflexivity.
    + apply (unmatched_not_in_grammar latin1_decimal latin1_table). reflexivity.
    + destruct (duration_codec_decodes sample_decimal default_max_str_digits
                  (Some [65297%N]) None None []
                  (chars "1:00:30") (chars "PT0S")) as (D & _).
      * exact sample_table.
      * split; [discriminate | reflexivity].
      * exact Logic.I.
      * exact Logic.I.
      * left. reflexivity.
      * apply (unmatched_not_in_grammar sample_decimal sample_table). reflexivity.
      * split; [apply A; repeat split; reflexivity|].
        split; [exact B|]. split.
        -- rewrite <- (app_nil_r long_run_token). apply C.
           intros (F & _). vm_compute in F. discriminate F.
        -- apply D. repeat split; reflexivity.
Defined.

End DurationFacts.

(* ------------------------------------------------------------------ *)
(** ** The resilient client                                             *)
(* ------------------------------------------------------------------ *)

Module ClientFacts.
Import Py Store Api Stream.
Local Open Scope py_scope.

Section Remote.

Context {W : Type}.
Variable serve : Request -> W -> http_outcome * W.

Lemma attempt_request_method r s :
  attempt serve (request_method r) s = http_execute serve r s.
Proof. reflexivity. Qed.

Lemma attempt_bound_execute r s :
  attempt serve (bound_execute serve r) s =
  match serve r (world s) with
  | (HttpOk body, w') =>
      (Raise (AttributeError (String.append (type_name body)
                                " object has no attribute execute")),
       mkState w' (db s) (trace s ++ [Http r]))
  | (HttpRaise e, w') => (Raise e, mkState w' (db s) (trace s ++ [Http r]))
  end.
Proof.
  unfold Stream.attempt, bound_execute, bind, http_execute.
  destruct (serve r (world s)) as [[body|e] w']; reflexivity.
Qed.

(** The loop returns what a successful attempt returns. *)
Lemma loop_success fuel rc k s s1 v :
  (k < 5)%nat ->
  attempt serve rc s = (Ret v, s1) ->
  safe_api_loop serve (S fuel) rc k s = (Ret v, s1).
Proof.
  intros Hk Ha. cbn [Stream.safe_api_loop].
  replace (k <? max_retries)%nat with true
    by (symmetry; apply Nat.ltb_lt; exact Hk).
  unfold try_except. fold (attempt serve rc). rewrite Ha. reflexivity.
Qed.

(** A quota-exceeded attempt is announced, slept on and retried. *)
Lemma loop_retry fuel rc k s s1 e :
  (k < 5)%nat ->
  attempt serve rc s = (Raise e, s1) ->
  quota_exceeded e = true ->
  safe_api_loop serve (S fuel) rc k s = safe_api_loop serve fuel rc (S k) (after_retry k s1).
Proof.
  intros Hk Ha Hq. cbn [Stream.safe_api_loop].
  replace (k <? max_retries)%nat with true
    by (symmetry; apply Nat.ltb_lt; exact Hk).
  unfold try_except at 1. fold (attempt serve rc). rewrite Ha.
  destruct e; try discriminate Hq. cbn [quota_exceeded] in Hq. rewrite Hq.
  unfold bind at 1, st, emit at 1. cbn [world db trace].
  unfold bind at 1, emit at 1. cbn [world db trace].
  unfold after_retry, initial_delay. rewrite Z.mul_1_l, <- app_assoc. reflexivity.
Qed.

(** A 404 ends the call at once with [None]. *)
Lemma loop_not_found fuel rc k s s1 e :
  (k < 5)%nat ->
  attempt serve rc s = (Raise e, s1) ->
  quota_exceeded e = false -> is_404 e = true ->
  safe_api_loop serve (S fuel) rc k s =
  (Ret VNone, mkState (world s1) (db s1) (trace s1 ++ [not_found_event e])).
Proof.
  intros Hk Ha Hq H4. cbn [Stream.safe_api_loop].
  replace (k <? max_retries)%nat with true
    by (symmetry; apply Nat.ltb_lt; exact Hk).
  unfold try_except at 1. fold (attempt serve rc). rewrite Ha.
  destruct e; try discriminate H4. cbn [quota_exceeded is_404] in Hq, H4.
  rewrite Hq, H4. reflexivity.
Qed.

(** Every other exception is reported and raised again. *)
Lemma loop_fatal fuel rc k s s1 e :
  (k < 5)%nat ->
  attempt serve rc s = (Raise e, s1) ->
  quota_exceeded e = false -> is_404 e = false ->
  safe_api_loop serve (S fuel) rc k s =
  (Raise e, mkState (world s1) (db s1) (trace s1 ++ [unexpected_event e])).
Proof.
  intros Hk Ha Hq H4. cbn [Stream.safe_api_loop].
  replace (k <? max_retries)%nat with true
    by (symmetry; apply Nat.ltb_lt; exact Hk).
  unfold try_except at 1. fold (attempt serve rc). rewrite Ha.
  destruct e; cbn [quota_exceeded is_404] in Hq, H4;
    try rewrite Hq; try rewrite H4; reflexivity.
Qed.

(** With the retries used up the loop is left and [None] returned. *)
Lemma loop_give_up fuel rc s :
  safe_api_loop serve fuel rc 5 s =
  (Ret VNone, mkState (world s) (db s) (trace s ++ [gave_up_event])).
Proof. destruct fuel; reflexivity. Qed.

Lemma request_method_sends r : sends serve r (request_method r).
Proof.
  intros s e w' H. rewrite attempt_request_method. unfold http_execute.
  rewrite H. reflexivity.
Qed.

Lemma bound_execute_sends r : sends serve r (bound_execute serve r).
Proof.
  intros s e w' H. rewrite attempt_bound_execute, H. reflexivity.
Qed.

Lemma retries_S r k n : retries r k (S n) = retry_events r k ++ retries r (S k) n.
Proof. reflexivity. Qed.

(** [n] quota-exceeded answers in a row cost [n] iterations and leave
    [n] retries in the trace. *)
Lemma loop_quota_run rc r (Hrc : sends serve r rc) n w w' :
  quota_exceeded_times serve r n w w' ->
  forall fuel k d t, (k + n <= 5)%nat ->
  safe_api_loop serve (n + fuel) rc k (mkState w d t) =
  safe_api_loop serve fuel rc (k + n) (mkState w' d (t ++ retries r k n)).
Proof.
  induction 1 as [w | n w w1 w2 e Hs Hq _ IH]; intros fuel k d t Hk.
  - rewrite Nat.add_0_r. unfold retries. simpl. rewrite app_nil_r. reflexivity.
  - cbn [Nat.add].
    rewrite (loop_retry (n + fuel) rc k (mkState w d t)
               (mkState w1 d (t ++ [Http r])) e);
      [ | lia | apply (Hrc (mkState w d t) e w1 Hs) | exact Hq].
    unfold after_retry. cbn [world db trace].
    rewrite IH by lia. rewrite retries_S.
    replace (S k + n)%nat with (k + S n)%nat by lia.
    unfold retry_events. rewrite <- !app_assoc. reflexivity.
Qed.

Lemma quota_run_sleeps :
  forall r, sleeps (retries r 0 4) = [1; 2; 4; 8] /\
            sleeps (retries r 0 5 ++ [gave_up_event]) = [1; 2; 4; 8; 16].
Proof. intros r. split; reflexivity. Qed.

(** C2 on the code as written.  Five quota-exceeded answers in a row
    end every wrapped call, the bound method [request.execute] of the
    call sites included, with the failure value [None] after exactly
    five requests and the sleeps 1, 2, 4, 8 and 16: no sixth attempt is
    made.  Four quota-exceeded answers and then a 200 make four retries
    with the sleeps 1, 2, 4 and 8 and a fifth request; but as the call
    sites pass [request.execute], that fifth attempt calls [execute] on
    the decoded body, and the call ends with [AttributeError] reported
    and raised again, not with the payload.  The payload is returned
    when the resource method is passed instead. *)
Theorem four_retries_then_success_raises :
  (forall (rc : callable) (r : Request) (w w5 : W) (d : database) (t : list event),
     sends serve r rc ->
     quota_exceeded_times serve r 5 w w5 ->
     safe_api_call serve rc (mkState w d t)
     = (Ret VNone, mkState w5 d (t ++ retries r 0 5 ++ [gave_up_event]))) /\
  (forall r : Request,
     sends serve r (bound_execute serve r) /\
     requests (retries r 0 5 ++ [gave_up_event]) = [r; r; r; r; r] /\
     sleeps (retries r 0 5 ++ [gave_up_event]) = [1; 2; 4; 8; 16] /\
     requests (retries r 0 4 ++ [Http r]) = [r; r; r; r; r] /\
     sleeps (retries r 0 4 ++ [Http r]) = [1; 2; 4; 8]) /\
  (forall (r : Request) (w w4 w5 : W) (body : value) (d : database) (t : list event),
     quota_exceeded_times serve r 4 w w4 ->
     serve r w4 = (HttpOk body, w5) ->
     let e := AttributeError
                (String.append (type_name body) " object has no attribute execute") in
     safe_api_call serve (bound_execute serve r) (mkState w d t)
     = (Raise e, mkState w5 d (t ++ retries r 0 4 ++ [Http r; unexpected_event e])) /\
     safe_api_call serve (request_method r) (mkState w d t)
     = (Ret body, mkState w5 d (t ++ retries r 0 4 ++ [Http r]))).
Proof.
  unfold Stream.safe_api_call, max_retries. split; [|split].
  - intros rc r w w5 d t Hrc H5.
    pose proof (loop_quota_run rc r Hrc 5 w w5 H5 0 0 d t) as E.
    cbn [Nat.add] in E. rewrite E by lia.
    rewrite loop_give_up. cbn [world db trace]. rewrite <- app_assoc. reflexivity.
  - intros r. split; [apply bound_execute_sends | repeat split; reflexivity].
  - intros r w w4 w5 body d t H4 Hok.
    set (e := AttributeError
                (String.append (type_name body) " object has no attribute execute")).
    split.
    + pose proof (loop_quota_run (bound_execute serve r) r (bound_execute_sends r)
                    4 w w4 H4 1 0 d t) as E.
      cbn [Nat.add] in E. rewrite E by lia.
      rewrite (loop_fatal 0 (bound_execute serve r) 4
                 (mkState w4 d (t ++ retries r 0 4))
                 (mkState w5 d ((t ++ retries r 0 4) ++ [Http r])) e);
        [ | lia | | reflexivity | reflexivity].
      * cbn [world db trace]. rewrite <- !app_assoc. reflexivity.
      * rewrite attempt_bound_execute. cbn [world db trace]. rewrite Hok. reflexivity.
    + pose proof (loop_quota_run (request_method r) r (request_method_sends r)
                    4 w w4 H4 1 0 d t) as E.
      cbn [Nat.add] in E. rewrite E by lia.
      rewrite (loop_success 0 (request_method r) 4
                 (mkState w4 d (t ++ retries r 0 4))
                 (mkState w5 d ((t ++ retries r 0 4) ++ [Http r])) body);
        [ | lia | ].
      * rewrite <- !app_assoc. reflexivity.
      * rewrite attempt_request_method. unfold http_execute.
        cbn [world db trace]. rewrite Hok. reflexivity.
Qed.

End Remote.

Import Scripted.

Ltac quota_run :=
  repeat (eapply quota_exceeded_S; [reflexivity | reflexivity | ]);
  apply quota_exceeded_0.

Lemma four_retries_then_success_raises_witness :
  fst (safe_api_call serve (bound_execute serve a_channel_request)
         (start [quota; quota; quota; quota; HttpOk a_payload] []))
    = Raise (AttributeError "dict object has no attribute execute") /\
  fst (safe_api_call serve (request_method a_channel_request)
         (start [quota; quota; quota; quota; HttpOk a_payload] [])) = Ret a_payload /\
  fst (safe_api_call serve (bound_execute serve a_channel_request)
         (start [quota; quota; quota; quota; quota; HttpOk a_payload] [])) = Ret VNone /\
  world (snd (safe_api_call serve (bound_execute serve a_channel_request)
         (start [quota; quota; quota; quota; quota; HttpOk a_payload] [])))
    = [HttpOk a_payload].
Proof.
  destruct (four_retries_then_success_raises serve) as (G & _ & S).
  pose proof (G (bound_execute serve a_channel_request) a_channel_request
                [quota; quota; quota; quota; quota; HttpOk a_payload] [HttpOk a_payload]
                [] [] (bound_execute_sends serve a_channel_request)
                ltac:(quota_run)) as H2.
  destruct (S a_channel_request
              [quota; quota; quota; quota; HttpOk a_payload] [HttpOk a_payload] []
              a_payload [] [] ltac:(quota_run) eq_refl) as [H1 H3].
  unfold start. rewrite H1, H2, H3. repeat split; reflexivity.
Defined.

(** C3 as stated fails: a 404 and the give-up after five quota-exceeded
    attempts hand the caller the same value, so nothing computed from
    the result tells them apart. *)
Lemma not_found_and_give_up_look_alike :
  ~ exists tell : result value -> bool,
      tell (fst (safe_api_call serve (request_method a_channel_request)
                   (start [not_found] []))) = true /\
      tell (fst (safe_api_call serve (request_method a_channel_request)
                   (start [quota; quota; quota; quota; quota] []))) = false.
Proof.
  intros [tell [H1 H2]].
  change (tell (Ret VNone) = true) in H1.
  change (tell (Ret VNone) = false) in H2.
  congruence.
Qed.

End ClientFacts.

(* ------------------------------------------------------------------ *)
(** ** The call sites: [safe_api_call(request.execute)]                 *)
(* ------------------------------------------------------------------ *)

Module CallSiteFacts.
Import Py Store Api Stream ClientFacts.
Local Open Scope py_scope.

Section Remote.

Context {W : Type}.
Variable serve : Request -> W -> http_outcome * W.

(** When the request succeeds, [request.execute()] hands back the decoded
    body, [.execute()] is looked up on it, and the [AttributeError] is
    reported and raised again. *)
Lemma bound_execute_success_raises fuel r k s body w' :
  (k < 5)%nat ->
  serve r (world s) = (HttpOk body, w') ->
  let e := AttributeError (String.append (type_name body)
                             " object has no attribute execute") in
  safe_api_loop serve (S fuel) (bound_execute serve r) k s =
  (Raise e, mkState w' (db s) (trace s ++ [Http r; unexpected_event e])).
Proof.
  intros Hk Hs e.
  rewrite (loop_fatal serve fuel (bound_execute serve r) k s
             (mkState w' (db s) (trace s ++ [Http r])) e Hk).
  - cbn [world db trace]. rewrite <- app_assoc. reflexivity.
  - rewrite attempt_bound_execute, Hs. reflexivity.
  - reflexivity.
  - reflexivity.
Qed.

(** So [safe_api_call(request.execute)] never returns a payload: it
    returns [None] or raises. *)
Lemma bound_execute_loop_returns_none r fuel :
  forall k s v s',
    safe_api_loop serve fuel (bound_execute serve r) k s = (Ret v, s') -> v = VNone.
Proof.
  induction fuel as [|fuel IH]; intros k s v s' H.
  - destruct k as [|[|[|[|[|k]]]]]; simpl in H; try discriminate H.
    inversion H; reflexivity.
  - destruct (Nat.ltb_spec k 5) as [Hk | Hk].
    + pose proof (attempt_bound_execute serve r s) as Ha.
      destruct (serve r (world s)) as [[body | e] w'] eqn:Hs.
      * rewrite (bound_execute_success_raises fuel r k s body w' Hk Hs) in H.
        discriminate H.
      * destruct (quota_exceeded e) eqn:Hq.
        -- rewrite (loop_retry serve fuel _ k s _ e Hk Ha Hq) in H.
           apply IH in H. exact H.
        -- destruct (is_404 e) eqn:H4.
           ++ rewrite (loop_not_found serve fuel _ k s _ e Hk Ha Hq H4) in H.
              inversion H; reflexivity.
           ++ rewrite (loop_fatal serve fuel _ k s _ e Hk Ha Hq H4) in H.
              discriminate H.
    + cbn [Stream.safe_api_loop] in H.
      replace (k <? max_retries)%nat with false in H
        by (symmetry; apply Nat.ltb_ge; exact Hk).
      inversion H; reflexivity.
Qed.

Lemma bound_execute_returns_none r s v s' :
  safe_api_call serve (bound_execute serve r) s = (Ret v, s') -> v = VNone.
Proof. apply bound_execute_loop_returns_none. Qed.

Lemma bind_ret_inv {A B} (c : M W A) (k : A -> M W B) s b s' :
  bind c k s = (Ret b, s') ->
  exists a s1, c s = (Ret a, s1) /\ k a s1 = (Ret b, s').
Proof.
  unfold bind. destruct (c s) as [[a | e |] s1]; intros H; try discriminate H.
  exists a, s1. split; [reflexivity | exact H].
Qed.

Lemma lift_ret_inv {A} (r : result A) (s : state W) a s' :
  lift r s = (Ret a, s') -> r = Ret a /\ s' = s.
Proof. unfold lift. intros H. inversion H. split; reflexivity. Qed.

Ltac inv_bind H :=
  let a := fresh "a" in
  let s1 := fresh "s" in
  let Ha := fresh "Hc" in
  apply bind_ret_inv in H; destruct H as (a & s1 & Ha & H).

(** No function of Stream.py that fetches through
    [safe_api_call(request.execute)] can hand back a record. *)
Lemma channel_info_returns_nothing channel_id s df s' :
  channel_info serve channel_id s = (Ret df, s') -> df = [].
Proof.
  unfold channel_info, channel_info_by. intros H.
  inv_bind H. apply bound_execute_returns_none in Hc. subst a.
  inv_bind H. apply lift_ret_inv in Hc. destruct Hc as [Hc ->].
  simpl in Hc. inversion Hc; subst a.
  inv_bind H. inversion H. reflexivity.
Qed.

Lemma playlist_channels_return_nothing fuel channel_ids :
  forall acc s ids s',
    playlist_channels_by serve (bound_execute serve) fuel channel_ids acc s
      = (Ret ids, s') -> ids = acc.
Proof.
  induction channel_ids as [|c cs IH]; intros acc s ids s' H.
  - inversion H. reflexivity.
  - cbn [playlist_channels_by] in H.
    inv_bind H. inv_bind H.
    apply bound_execute_returns_none in Hc0. subst a0.
    inv_bind H. apply lift_ret_inv in Hc0. destruct Hc0 as [Hc0 ->].
    simpl in Hc0. inversion Hc0; subst a0.
    inv_bind H. inv_bind Hc1. inversion Hc1; subst a0.
    apply IH in H. rewrite app_nil_r in H. exact H.
Qed.

Lemma playlist_videos_id_returns_nothing fuel channel_ids s ids s' :
  playlist_videos_id serve fuel channel_ids s = (Ret ids, s') -> ids = [].
Proof. apply playlist_channels_return_nothing. Qed.

Lemma videos_batches_return_nothing video_ids starts :
  forall acc s rows s',
    videos_batches_by serve (bound_execute serve) video_ids starts acc s
      = (Ret rows, s') -> rows = acc.
Proof.
  induction starts as [|i starts IH]; intros acc s rows s' H.
  - inversion H. reflexivity.
  - cbn [videos_batches_by] in H.
    inv_bind H. inv_bind H. inv_bind H. inv_bind H.
    apply bound_execute_returns_none in Hc2. subst a2.
    inv_bind H. apply lift_ret_inv in Hc2. destruct Hc2 as [Hc2 ->].
    simpl in Hc2. inversion Hc2; subst a2.
    inv_bind H. apply IH in H. exact H.
Qed.

Lemma videos_data_returns_nothing video_ids s df s' :
  videos_data serve video_ids s = (Ret df, s') -> df = [].
Proof.
  unfold videos_data, videos_data_by. intros H. inv_bind H.
  destruct video_ids as [|v vs].
  - inv_bind H. inversion H. reflexivity.
  - apply videos_batches_return_nothing in H. exact H.
Qed.

Lemma comment_pages_return_nothing fuel video_id token channel acc s rows s' :
  comment_pages_by serve (bound_execute serve) fuel video_id token channel acc s
    = (Ret rows, s') -> rows = acc.
Proof.
  destruct fuel as [|fuel]; intros H; [discriminate H|].
  cbn [comment_pages_by] in H.
  inv_bind H. apply bound_execute_returns_none in Hc. subst a.
  inversion H. reflexivity.
Qed.

Lemma comments_videos_return_nothing fuel video_ids channel :
  forall acc s rows s',
    comments_videos_by serve (bound_execute serve) fuel video_ids channel acc s
      = (Ret rows, s') -> rows = acc.
Proof.
  induction video_ids as [|v vs IH]; intros acc s rows s' H.
  - inversion H. reflexivity.
  - cbn [comments_videos_by] in H.
    inv_bind H. inv_bind H.
    apply comment_pages_return_nothing in Hc0. subst a0.
    apply IH in H. exact H.
Qed.

Lemma comments_inf_returns_nothing fuel video_ids channel s df s' :
  comments_inf serve fuel video_ids channel s = (Ret df, s') -> df = [].
Proof.
  unfold comments_inf, comments_inf_by. intros H.
  destruct video_ids as [|v vs].
  - inv_bind H. inversion H. reflexivity.
  - inv_bind H. apply comments_videos_return_nothing in H. exact H.
Qed.

End Remote.

End CallSiteFacts.

(* ------------------------------------------------------------------ *)
(** ** Runs against a scripted remote                                   *)
(* ------------------------------------------------------------------ *)

Module Runs.
Import Py Store Api Stream Scripted.

(** *** The batches of [videos_data] *)

Lemma batch_at_shift {A} (l : list A) k :
  batch_at l (50 * S k) = batch_at (skipn 50 l) (50 * k).
Proof.
  unfold batch_at. rewrite skipn_skipn. f_equal. f_equal. lia.
Qed.

Lemma batches_cover {A} q : forall l : list A,
  (List.length l <= 50 * q)%nat ->
  List.concat (map (fun k => batch_at l (50 * k)) (seq 0 q)) = l.
Proof.
  induction q as [|q IH]; intros l Hl.
  - destruct l; [reflexivity | simpl in Hl; lia].
  - cbn [seq map List.concat]. rewrite <- seq_shift, map_map.
    rewrite (map_ext _ (fun k => batch_at (skipn 50 l) (50 * k)))
      by (intros k; apply batch_at_shift).
    rewrite IH by (rewrite length_skipn; lia).
    unfold batch_at. rewrite Nat.mul_0_r. cbn [skipn]. apply firstn_skipn.
Qed.

Lemma batch_count_enough n : (n <= 50 * ((n + 49) / 50))%nat.
Proof.
  pose proof (Nat.div_mod_eq (n + 49) 50) as E.
  pose proof (Nat.mod_upper_bound (n + 49) 50 ltac:(lia)) as B. lia.
Qed.

(** The batches are the ids in input order, cut into pieces. *)
Lemma batches_partition {A} (video_ids : list A) :
  List.concat (map (batch_at video_ids) (batch_starts (List.length video_ids))) = video_ids.
Proof.
  unfold batch_starts. rewrite map_map.
  apply batches_cover. apply batch_count_enough.
Qed.

(** Each batch holds at least one and at most 50 ids. *)
Lemma batches_sizes {A} (video_ids : list A) i :
  In i (batch_starts (List.length video_ids)) ->
  (1 <= List.length (batch_at video_ids i) <= 50)%nat.
Proof.
  unfold batch_starts. intros H. apply in_map_iff in H.
  destruct H as (k & <- & Hk). apply in_seq in Hk.
  unfold batch_at. rewrite length_firstn, length_skipn.
  pose proof (Nat.div_mod_eq (List.length video_ids + 49) 50) as E.
  pose proof (Nat.mod_upper_bound (List.length video_ids + 49) 50 ltac:(lia)) as B.
  lia.
Qed.

Example batches_of_123 :
  map (fun i => List.length (batch_at ids_123 i)) (batch_starts (List.length ids_123))
  = [50; 50; 23]%nat.
Proof. vm_compute. reflexivity. Qed.

(** The pagination of [playlist_videos_id] with call sites that pass the
    resource method: three pages come back in page order, the token
    threaded through. *)
Example pages_in_order_when_the_request_is_passed :
  let run := playlist_videos_id_by serve request_method 10 [VStr "UC1"]
               (start three_pages []) in
  fst run = Ret [VStr "a1"; VStr "a2"; VStr "b1"; VStr "b2"; VStr "c1"] /\
  requests (trace (snd run)) =
    [ channels_list "contentDetails" (VStr "UC1");
      playlistItems_list "snippet" (VStr "UU1") 50 VNone;
      playlistItems_list "snippet" (VStr "UU1") 50 (VStr "t2");
      playlistItems_list "snippet" (VStr "UU1") 50 (VStr "t3") ].
Proof. vm_compute. split; reflexivity. Qed.

Example first_page_kept_when_the_request_is_passed :
  let run := playlist_videos_id_by serve request_method 10 [VStr "UC1"]
               (start page2_fails []) in
  fst run = Ret [VStr "a1"; VStr "a2"] /\
  world (snd run) = [HttpOk page3].
Proof. vm_compute. split; reflexivity. Qed.

(** C4 on the code as written.  Page 2 of 3 fails terminally; the run
    does not get that far: the channel lookup succeeds over HTTP, the
    decoded body has no [execute], [safe_api_call] raises, and
    [playlist_videos_id] ends with that exception after one request, with
    no video id.  Whatever the remote and the channels, when
    [playlist_videos_id] returns it returns no video id. *)
Theorem playlist_videos_id_raises_on_success :
  (let run := playlist_videos_id serve 10 [VStr "UC1"] (start page2_fails []) in
   fst run = Raise no_execute /\
   requests (trace (snd run)) = [channels_list "contentDetails" (VStr "UC1")] /\
   world (snd run) = [HttpOk page1; not_found; HttpOk page3]) /\
  (forall (W : Type) (remote : Request -> W -> http_outcome * W)
          (fuel : nat) (channel_ids : list value) (s : state W),
     match fst (playlist_videos_id remote fuel channel_ids s) with
     | Ret video_ids => video_ids = []
     | _ => True
     end).
Proof.
  split; [vm_compute; repeat split; reflexivity|].
  intros W remote fuel channel_ids s.
  destruct (playlist_videos_id remote fuel channel_ids s) as [[ids | e |] s'] eqn:E;
    cbn [fst]; try exact Logic.I.
  apply (CallSiteFacts.playlist_videos_id_returns_nothing remote _ _ _ _ _ E).
Qed.

(** The chunking of [videos_data] with call sites that pass the resource
    method: 123 ids go out as three requests of 50, 50 and 23 ids, and
    the records come back flattened in input order. *)
Example three_batches_when_the_request_is_passed :
  let run := videos_data_by serve request_method ids_123 (start videos_123 []) in
  map ids_asked (requests (trace (snd run))) = [50; 50; 23]%nat /\
  (exists rows, fst run = Ret rows /\
     map (lookup "Video_Id") rows = map (fun id => Some id) ids_123).
Proof.
  split; [vm_compute; reflexivity|].
  eexists. split; [vm_compute; reflexivity | vm_compute; reflexivity].
Qed.

Example empty_batch_skipped_when_the_request_is_passed :
  let run := videos_data_by serve request_method ids_123
               (start videos_123_middle_empty []) in
  map ids_asked (requests (trace (snd run))) = [50; 50; 23]%nat /\
  (exists rows, fst run = Ret rows /\ List.length rows = 73%nat) /\
  messages (filter (fun e => match e with St Warning _ _ => true | _ => false end)
              (trace (snd run)))
    = [(Warning,
        "No data returned for video batch: {batch_ids}. Could be invalid IDs or quota issues.")].
Proof.
  split; [vm_compute; reflexivity|]. split.
  - eexists. split; vm_compute; reflexivity.
  - vm_compute. reflexivity.
Qed.

(** C8 on the code as written.  For 123 ids whose three batches the
    remote would all answer, one request (of 50 ids) is sent; its decoded
    body has no [execute], [safe_api_call] raises, and [videos_data] ends
    with that exception: the second and third batch are never asked for
    and no record is returned.  Whatever the remote and the ids, when
    [videos_data] returns it returns no record. *)
Theorem videos_data_raises_on_first_batch :
  (let run := videos_data serve ids_123 (start videos_123 []) in
   fst run = Raise no_execute /\
   map ids_asked (requests (trace (snd run))) = [50%nat] /\
   List.length (world (snd run)) = 2%nat) /\
  (forall (W : Type) (remote : Request -> W -> http_outcome * W)
          (video_ids : list value) (s : state W),
     match fst (videos_data remote video_ids s) with
     | Ret records => records = []
     | _ => True
     end).
Proof.
  split; [vm_compute; repeat split; reflexivity|].
  intros W remote video_ids s.
  destruct (videos_data remote video_ids s) as [[df | e |] s'] eqn:E;
    cbn [fst]; try exact Logic.I.
  apply (CallSiteFacts.videos_data_returns_nothing remote _ _ _ _ E).
Qed.

(** C1 on the code as written.  The remote answers the comment-thread
    request of the first video with 403 commentsDisabled.  The client
    library raises it as [HttpError]; [safe_api_call] retries only
    quota-exceeded and returns [None] only for 404, so it reports the
    error and raises it again; [comments_inf] has no handler, so the
    batch ends there: the second video is never asked for. *)
Theorem comments_disabled_aborts_the_batch :
  let run := comments_inf serve 10 [VStr "v1"; VStr "v2"] (VStr "UC1")
               (start [comments_disabled; HttpOk (comments_response "c1" "v2")] []) in
  (exists text, fst run = Raise (HttpError 403 text) /\
                contains "commentsDisabled" text = true) /\
  requests (trace (snd run)) = [commentThreads_list "snippet" (VStr "v1") 50 VNone] /\
  world (snd run) = [HttpOk (comments_response "c1" "v2")].
Proof.
  split; [eexists; split; vm_compute; reflexivity|].
  vm_compute. split; reflexivity.
Qed.

(** The same happens for any other 403, and also when the call sites pass
    the resource method: the exception leaves [safe_api_call]. *)
Example any_403_aborts_the_batch :
  fst (comments_inf serve 10 [VStr "v1"; VStr "v2"] (VStr "UC1")
         (start [other_403; HttpOk (comments_response "c1" "v2")] []))
  = Raise (HttpError 403
      "HttpError 403: The request is not properly authorized. reason: forbidden") /\
  fst (comments_inf_by serve request_method 10 [VStr "v1"; VStr "v2"] (VStr "UC1")
         (start [comments_disabled; HttpOk (comments_response "c1" "v2")] []))
  = fst (comments_inf serve 10 [VStr "v1"; VStr "v2"] (VStr "UC1")
         (start [comments_disabled; HttpOk (comments_response "c1" "v2")] [])).
Proof. vm_compute. split; reflexivity. Qed.

(** The check inside [comments_inf] looks for an error document in a
    returned body.  Were one returned (and the call sites passing the
    resource method), the video would be skipped and the batch go on. *)
Example error_document_skips_the_video :
  let run := comments_inf_by serve request_method 10 [VStr "v1"; VStr "v2"] (VStr "UC1")
               (start [HttpOk (error_body "commentsDisabled");
                       HttpOk (comments_response "c1" "v2")] []) in
  (exists rows, fst run = Ret rows /\
                map (lookup "comment_id") rows = [Some (VStr "c1")]) /\
  List.length (requests (trace (snd run))) = 2%nat.
Proof.
  split; [eexists; split; vm_compute; reflexivity|]. vm_compute. reflexivity.
Qed.

(** With the call sites as written even a returned error document, or a
    page of comments, ends the batch with the [AttributeError]. *)
Example returned_body_aborts_the_batch :
  fst (comments_inf serve 10 [VStr "v1"; VStr "v2"] (VStr "UC1")
         (start [HttpOk (error_body "commentsDisabled");
                 HttpOk (comments_response "c1" "v2")] []))
  = Raise no_execute.
Proof. vm_compute. reflexivity. Qed.

(** C6 on the code as written.  A channel whose subscriber count is
    hidden has no subscriberCount in its statistics; the dict of
    [channel_info] subscripts it, which raises [KeyError], where
    [videos_data] reads its counts with a default of 0 and converts them
    with [int].  The channel counts that are present are stored as the
    strings of the payload.  (On the code as written the call fails even
    earlier, in [safe_api_call].) *)
Theorem hidden_subscriber_count_raises :
  channel_data hidden_subscribers_channel = Raise (KeyError "subscriberCount") /\
  fst (channel_info_by serve request_method (VStr "UC1")
         (start [HttpOk hidden_subscribers_channel] []))
    = Raise (KeyError "subscriberCount") /\
  fst (channel_info serve (VStr "UC1") (start [HttpOk hidden_subscribers_channel] []))
    = Raise no_execute /\
  (exists data, channel_data public_channel = Ret data /\
     lookup "channel_viewcount" data = Some (VStr "1000") /\
     lookup "channel_subcount" data = Some (VStr "25")) /\
  (exists info, video_info (VDict [("id", VStr "v1")]) = Ret info /\
     lookup "Video_viewcount" info = Some (VInt 0) /\
     lookup "Video_likecount" info = Some (VInt 0) /\
     lookup "Video_favoritecount" info = Some (VInt 0) /\
     lookup "Video_commentcount" info = Some (VInt 0)).
Proof.
  split; [vm_compute; reflexivity|].
  split; [vm_compute; reflexivity|].
  split; [vm_compute; reflexivity|].
  split; eexists; (split; [vm_compute; reflexivity|]); vm_compute; repeat split; reflexivity.
Qed.

End Runs.

(* ------------------------------------------------------------------ *)
(** ** The store                                                        *)
(* ------------------------------------------------------------------ *)

Module StoreFacts.
Import Py Store Api Stream Scripted.
Local Open Scope py_scope.

(** A failed [to_sql] leaves the database as it was. *)
Lemma df_to_sql_all_or_nothing {W} name df (s s' : state W) e :
  df_to_sql name df s = (Raise e, s') -> s' = s.
Proof.
  unfold df_to_sql. destruct (to_sql name df (db s)); intros H; inversion H.
  reflexivity.
Qed.

(** [CREATE TABLE IF NOT EXISTS] on a table that is there changes
    nothing. *)
Lemma create_existing_table name cols d t :
  lookup name d = Some t -> create_table_if_not_exists name cols d = d.
Proof. unfold create_table_if_not_exists. intros ->. reflexivity. Qed.

(** The first declaration of a table fixes its schema. *)
Lemma first_declaration_wins name cols1 cols2 d :
  create_table_if_not_exists name cols2 (create_table_if_not_exists name cols1 d)
  = create_table_if_not_exists name cols1 d.
Proof.
  destruct (lookup name d) as [t|] eqn:E.
  - rewrite (create_existing_table name cols1 d t E).
    apply (create_existing_table name cols2 d t E).
  - assert (H : create_table_if_not_exists name cols1 d
                = d ++ [(name, mkTable cols1 [])])
      by (unfold create_table_if_not_exists; rewrite E; reflexivity).
    rewrite H. apply (create_existing_table name cols2 _ (mkTable cols1 [])).
    clear cols2 H. induction d as [|[n t] d IH]; simpl in *.
    + rewrite String.eqb_refl. reflexivity.
    + destruct (String.eqb name n); [discriminate E | apply IH; exact E].
Qed.

(** Inserting an empty record set only announces that there is nothing to
    insert. *)
Lemma insert_no_videos {W} (s : state W) t :
  lookup "videos" (db s) = Some t ->
  insert_videos_into_sqlite [] s
  = (Ret tt, mkState (world s) (db s)
               (trace s ++ [St Warning "No video data to insert." []])).
Proof.
  intros H. unfold insert_videos_into_sqlite, execute_ddl, bind, get_db, set_db, st, emit.
  cbn [world db trace]. rewrite (create_existing_table _ _ _ _ H). reflexivity.
Qed.

Lemma insert_no_comments {W} (s : state W) t :
  lookup "comments" (db s) = Some t ->
  insert_comments_into_sqlite [] s
  = (Ret tt, mkState (world s) (db s)
               (trace s ++ [St Warning "No comment data to insert." []])).
Proof.
  intros H. unfold insert_comments_into_sqlite, execute_ddl, bind, get_db, set_db, st, emit.
  cbn [world db trace]. rewrite (create_existing_table _ _ _ _ H). reflexivity.
Qed.

(** C5 on the code as written.  The videos table holds "v1" and a frame
    with "v1" and the new "v2" is inserted: the whole [to_sql] is rolled
    back, so "v2" is not stored, and the outcome is the message of the
    catch-all handler, the same as for a frame the table cannot take.
    The comments path behaves alike.  The key already present keeps one
    row, and an empty frame changes nothing.  The channel path, which
    inserts one record at a time and catches [IntegrityError] by name,
    does report the duplicate as already existing and stores the new
    channel (run here with its call site passing the resource method,
    since with [request.execute] passed no channel record ever reaches
    the insertion). *)
Theorem duplicate_in_bulk_insert_loses_new_records :
  let run := insert_videos_into_sqlite [video_row "v1"; video_row "v2"]
               one_video_stored in
  let hard := insert_videos_into_sqlite [misfit_row] one_video_stored in
  let comments := insert_comments_into_sqlite [comment_row "c1"; comment_row "c2"]
                    one_comment_stored in
  let empty := insert_videos_into_sqlite [] one_video_stored in
  let channels := eachchanneldetails_by serve request_method
                    [VStr "UC1"; VStr "UC1"; VStr "UC2"]
                    (start [HttpOk public_channel; HttpOk public_channel;
                            HttpOk another_channel] fresh_store) in
  messages (trace (snd run)) = [(Error, "Error inserting video data: {e}")] /\
  messages (trace (snd hard)) = [(Error, "Error inserting video data: {e}")] /\
  count_key (db (snd run)) "videos" "Video_Id" (SText "v1") = 1%nat /\
  count_key (db (snd run)) "videos" "Video_Id" (SText "v2") = 0%nat /\
  messages (trace (snd comments)) = [(Error, "Error inserting comment data: {e}")] /\
  count_key (db (snd comments)) "comments" "comment_id" (SText "c2") = 0%nat /\
  snd empty = mkState [] (db one_video_stored)
                [St Warning "No video data to insert." []] /\
  messages (trace (snd channels)) =
    [ (Success, "Channel '{df['Channel_Name'].iloc[0]}' data inserted.");
      (Info, "Channel '{df['Channel_Name'].iloc[0]}' (ID: {channel_id}) already exists. Skipping insertion.");
      (Success, "Channel '{df['Channel_Name'].iloc[0]}' data inserted.") ] /\
  count_key (db (snd channels)) "channels" "channel_id" (SText "UC1") = 1%nat /\
  count_key (db (snd channels)) "channels" "channel_id" (SText "UC2") = 1%nat.
Proof. vm_compute. repeat split; reflexivity. Qed.

Ltac with_id id :=
  let E := fresh "E" in
  pose proof (String.eqb_refl id) as E; vm_compute in E;
  repeat (vm_compute; rewrite ?E).

(** C10.  setup_local_db.py declares the three tables without a primary
    key, and Video_duration as TEXT; Stream.py declares the same table
    names with primary keys.  Both use CREATE TABLE IF NOT EXISTS, so the
    declaration that runs first stays.  When [ensure_tables] ran first,
    inserting a video, comment or channel whose id is stored already
    succeeds, with the message of success, and adds a second row with
    that id; when the application's declarations ran first, it is
    rejected. *)
Theorem first_schema_wins_and_setup_schema_takes_duplicates :
  (forall name cols1 cols2 d,
     create_table_if_not_exists name cols2 (create_table_if_not_exists name cols1 d)
     = create_table_if_not_exists name cols1 d) /\
  primary_key (SetupLocalDb.ensure_tables []) "videos" = [] /\
  primary_key (SetupLocalDb.ensure_tables []) "channels" = [] /\
  primary_key (SetupLocalDb.ensure_tables []) "comments" = [] /\
  column_type (SetupLocalDb.ensure_tables []) "videos" "Video_duration" = Some TEXT /\
  primary_key fresh_store "videos" = ["Video_Id"] /\
  primary_key fresh_store "channels" = ["channel_id"] /\
  primary_key fresh_store "comments" = ["comment_id"] /\
  column_type fresh_store "videos" "Video_duration" = Some INTEGER /\
  setup_first = SetupLocalDb.ensure_tables [] /\
  application_first = fresh_store /\
  (forall id : string,
     let once := insert_videos_into_sqlite [video_row id] (start [] setup_first) in
     let twice := insert_videos_into_sqlite [video_row id] (after once) in
     messages (trace (snd twice)) =
       [(Success, "Successfully inserted {len(df1)} video records into 'videos' table!")] /\
     count_key (db (snd twice)) "videos" "Video_Id" (SText id) = 2%nat) /\
  (forall id : string,
     let once := insert_comments_into_sqlite [comment_row id] (start [] setup_first) in
     let twice := insert_comments_into_sqlite [comment_row id] (after once) in
     messages (trace (snd twice)) =
       [(Success, "Successfully inserted {len(df2)} comment records into 'comments' table!")] /\
     count_key (db (snd twice)) "comments" "comment_id" (SText id) = 2%nat) /\
  (forall id : string,
     let once := df_to_sql "channels" [channel_row id] (start [] setup_first) in
     let twice := df_to_sql "channels" [channel_row id] (after once) in
     fst twice = Ret tt /\
     count_key (db (snd twice)) "channels" "channel_id" (SText id) = 2%nat) /\
  (forall id : string,
     let once := insert_videos_into_sqlite [video_row id] (start [] application_first) in
     let twice := insert_videos_into_sqlite [video_row id] (after once) in
     messages (trace (snd twice)) = [(Error, "Error inserting video data: {e}")] /\
     count_key (db (snd twice)) "videos" "Video_Id" (SText id) = 1%nat) /\
  (forall id : string,
     let once := df_to_sql "channels" [channel_row id] (start [] application_first) in
     let twice := df_to_sql "channels" [channel_row id] (after once) in
     fst twice = Raise (IntegrityError "UNIQUE constraint failed: channels.channel_id") /\
     count_key (db (snd twice)) "channels" "channel_id" (SText id) = 1%nat).
Proof.
  split; [exact first_declaration_wins|].
  do 10 (split; [vm_compute; reflexivity|]).
  do 4 (split; [intros id; with_id id; split; reflexivity|]).
  intros id; with_id id; split; reflexivity.
Qed.

End StoreFacts.

(* ------------------------------------------------------------------ *)
(** ** Bounds of the resilient client                                   *)
(* ------------------------------------------------------------------ *)

Module ClientBounds.
Import Py Store Api Stream App ClientFacts Scripted.
Local Open Scope py_scope.

Section Remote.

Context {W : Type}.
Variable serve : Request -> W -> http_outcome * W.

Lemma requests_app t1 t2 : requests (t1 ++ t2) = requests t1 ++ requests t2.
Proof. apply flat_map_app. Qed.

Lemma sleeps_app t1 t2 : sleeps (t1 ++ t2) = sleeps t1 ++ sleeps t2.
Proof. apply flat_map_app. Qed.

(** The loop entered with [k0] retries used and the matching fuel. *)
Lemma loop_bounds r rc (Hrc : one_request serve r rc) fuel :
  forall k0 s, (k0 + fuel = 5)%nat ->
  exists n j res s',
    safe_api_loop serve fuel rc k0 s = (res, s') /\
    res <> OutOfFuel /\
    (n <= fuel)%nat /\ (1 <= fuel -> 1 <= n)%nat /\ (j <= n)%nat /\
    requests (trace s') = requests (trace s) ++ repeat r n /\
    sleeps (trace s') = sleeps (trace s) ++ backoff k0 j /\
    db s' = db s.
Proof.
  induction fuel as [|fuel IH]; intros k0 s Hk.
  - replace k0 with 5%nat by lia. exists 0%nat, 0%nat. eexists _, _.
    split; [apply loop_give_up|]. cbn [world db trace].
    rewrite requests_app, sleeps_app. cbn. rewrite !app_nil_r.
    repeat split; try reflexivity; try lia. discriminate.
  - destruct (Hrc s) as (res & Ha & Hres).
    set (s1 := mkState (snd (serve r (world s))) (db s) (trace s ++ [Http r])) in *.
    assert (R1 : requests (trace s1) = requests (trace s) ++ [r])
      by (unfold s1; cbn [trace]; rewrite requests_app; reflexivity).
    assert (S1 : sleeps (trace s1) = sleeps (trace s))
      by (unfold s1; cbn [trace]; rewrite sleeps_app; cbn; apply app_nil_r).
    destruct res as [v | e |]; [ | | contradiction Hres; reflexivity].
    + exists 1%nat, 0%nat. eexists _, _.
      split; [apply (loop_success serve fuel rc k0 s s1 v ltac:(lia) Ha)|].
      rewrite R1, S1. unfold backoff. cbn. rewrite app_nil_r.
      repeat split; try reflexivity; try lia. discriminate.
    + destruct (quota_exceeded e) eqn:Hq.
      * rewrite (loop_retry serve fuel rc k0 s s1 e ltac:(lia) Ha Hq).
        destruct (IH (S k0) (after_retry k0 s1) ltac:(lia))
          as (n & j & res' & s' & E & Hr & Hn & Hn1 & Hj & Hreq & Hsl & Hdb).
        exists (S n), (S j), res', s'.
        split; [exact E|].
        repeat split; try assumption; try lia.
        -- rewrite Hreq. unfold after_retry. cbn [trace].
           rewrite requests_app, R1. cbn. rewrite app_nil_r, <- app_assoc. reflexivity.
        -- rewrite Hsl. unfold after_retry. cbn [trace].
           rewrite sleeps_app, S1. unfold backoff. cbn [seq map].
           rewrite <- app_assoc. reflexivity.
      * destruct (is_404 e) eqn:H4.
        -- exists 1%nat, 0%nat. eexists _, _.
           split; [apply (loop_not_found serve fuel rc k0 s s1 e ltac:(lia) Ha Hq H4)|].
           cbn [world db trace]. rewrite requests_app, sleeps_app, R1, S1.
           unfold backoff. cbn. rewrite !app_nil_r.
           repeat split; try reflexivity; try lia. discriminate.
        -- exists 1%nat, 0%nat. eexists _, _.
           split; [apply (loop_fatal serve fuel rc k0 s s1 e ltac:(lia) Ha Hq H4)|].
           cbn [world db trace]. rewrite requests_app, sleeps_app, R1, S1.
           unfold backoff. destruct e; cbn; rewrite !app_nil_r;
             repeat split; try reflexivity; try lia; discriminate.
Qed.

Lemma bound_execute_one_request r : one_request serve r (bound_execute serve r).
Proof.
  intros s. rewrite attempt_bound_execute.
  destruct (serve r (world s)) as [[body | e] w']; cbn [snd];
    eexists; (split; [reflexivity | discriminate]).
Qed.

Lemma request_method_one_request r : one_request serve r (request_method r).
Proof.
  intros s. rewrite attempt_request_method. unfold http_execute.
  destruct (serve r (world s)) as [[body | e] w']; cbn [snd];
    eexists; (split; [reflexivity | discriminate]).
Qed.

(** X1.  Whatever the remote answers, one [safe_api_call] ends, sends the
    request at least once and at most five times, sleeps the delays
    1, 2, 4, ... of a prefix of the back-off sequence, never more of them
    than requests sent, and leaves the store alone.  This holds for both
    ways of passing the request. *)
Theorem safe_api_call_is_bounded (r : Request) (rc : callable) (s : state W) :
  rc = bound_execute serve r \/ rc = request_method r ->
  exists n j res s',
    safe_api_call serve rc s = (res, s') /\
    res <> OutOfFuel /\
    (1 <= n <= 5)%nat /\ (j <= n)%nat /\
    requests (trace s') = requests (trace s) ++ repeat r n /\
    sleeps (trace s') = sleeps (trace s) ++ firstn j [1; 2; 4; 8; 16] /\
    db s' = db s.
Proof.
  intros Hrc.
  assert (H1 : one_request serve r rc)
    by (destruct Hrc as [-> | ->];
        [apply bound_execute_one_request | apply request_method_one_request]).
  destruct (loop_bounds r rc H1 5 0 s eq_refl)
    as (n & j & res & s' & E & Hr & Hn & Hn1 & Hj & Hreq & Hsl & Hdb).
  exists n, j, res, s'. unfold Stream.safe_api_call, max_retries.
  split; [exact E|].
  repeat split; try assumption; try lia.
  rewrite Hsl. f_equal.
  assert (Hj5 : (j <= 5)%nat) by lia. clear - Hj5.
  do 6 (destruct j as [|j]; [reflexivity|]). lia.
Qed.

End Remote.

Lemma safe_api_call_is_bounded_witness :
  exists n j res s',
    safe_api_call serve (request_method a_channel_request)
      (start [quota; quota; not_found] []) = (res, s') /\
    res <> OutOfFuel /\ (1 <= n <= 5)%nat /\ (j <= n)%nat /\
    requests (trace s') = requests [] ++ repeat a_channel_request n /\
    sleeps (trace s') = sleeps [] ++ firstn j [1; 2; 4; 8; 16] /\
    db s' = [].
Proof.
  apply (safe_api_call_is_bounded serve a_channel_request
           (request_method a_channel_request) (start [quota; quota; not_found] [])).
  right. reflexivity.
Defined.

End ClientBounds.

(* ------------------------------------------------------------------ *)
(** ** The kinds of result of the resilient client                      *)
(* ------------------------------------------------------------------ *)

Module ResultKinds.
Import Py Store Api Stream App ClientFacts ClientBounds Scripted.
Local Open Scope py_scope.

Section Remote.

Context {W : Type}.
Variable serve : Request -> W -> http_outcome * W.

(** C3, as the code has it.  [safe_api_call] always ends, and hands its
    caller one of three kinds of result: the payload of a successful
    attempt, [None], or the exception raised again (fatal).
    Quota-exceeded is dealt with inside by retrying.  [None] is what the
    caller gets for a 404 and also for the give-up after five
    quota-exceeded attempts; only the message differs (a warning for the
    404, an error for the give-up).  After any number of retries below
    five, an attempt that returns ends the call with its payload, and an
    attempt that raises anything but quota-exceeded ends it at once, with
    no further sleep or attempt: with [None] for a 404, with the
    exception raised again otherwise.  Each part holds for every callable
    that sends the request, the bound method of the call sites
    included. *)
Theorem safe_api_call_result_kinds :
  (forall (rc : callable) (r : Request) (s : state W),
     one_request serve r rc ->
     exists res s',
       safe_api_call serve rc s = (res, s') /\
       match res with
       | Ret _ => True
       | Raise e => quota_exceeded e = false /\ is_404 e = false
       | OutOfFuel => False
       end) /\
  (forall (rc : callable) (r : Request) (n : nat) (w w1 w2 : W) (e : exn)
          (d : database) (t : list event),
     sends serve r rc ->
     (n < 5)%nat -> quota_exceeded_times serve r n w w1 ->
     serve r w1 = (HttpRaise e, w2) -> quota_exceeded e = false ->
     safe_api_call serve rc (mkState w d t) =
       ((if is_404 e then Ret VNone else Raise e),
        mkState w2 d
          (t ++ retries r 0 n ++
             [Http r; if is_404 e then not_found_event e else unexpected_event e]))) /\
  (forall (rc : callable) (r : Request) (w w5 : W) (d : database) (t : list event),
     sends serve r rc ->
     quota_exceeded_times serve r 5 w w5 ->
     safe_api_call serve rc (mkState w d t)
     = (Ret VNone, mkState w5 d (t ++ retries r 0 5 ++ [gave_up_event]))) /\
  (forall (rc : callable) (r : Request) (n : nat) (w w1 : W)
          (d : database) (t : list event) (res : result value) (s' : state W),
     sends serve r rc ->
     (n < 5)%nat -> quota_exceeded_times serve r n w w1 ->
     attempt serve rc (mkState w1 d (t ++ retries r 0 n)) = (res, s') ->
     match res with
     | Ret payload =>
         safe_api_call serve rc (mkState w d t) = (Ret payload, s')
     | Raise e =>
         quota_exceeded e = false ->
         safe_api_call serve rc (mkState w d t) =
           ((if is_404 e then Ret VNone else Raise e),
            mkState (world s') (db s')
              (trace s' ++ [if is_404 e then not_found_event e else unexpected_event e]))
     | OutOfFuel => True
     end).
Proof.
  unfold Stream.safe_api_call, max_retries. split; [|split; [|split]].
  - intros rc r s Hrc.
    assert (G : forall fuel k0 s0, (k0 + fuel = 5)%nat ->
              exists res s',
                safe_api_loop serve fuel rc k0 s0 = (res, s') /\
                match res with
                | Ret _ => True
                | Raise e => quota_exceeded e = false /\ is_404 e = false
                | OutOfFuel => False
                end).
    { induction fuel as [|fuel IH]; intros k0 s0 Hk.
      - replace k0 with 5%nat by lia. eexists _, _.
        split; [apply loop_give_up | exact Logic.I].
      - destruct (Hrc s0) as (res & Ha & Hres).
        destruct res as [v | e |]; [ | | contradiction Hres; reflexivity].
        + eexists _, _.
          split; [apply (loop_success serve fuel rc k0 s0 _ v ltac:(lia) Ha)
                 | exact Logic.I].
        + destruct (quota_exceeded e) eqn:Hq.
          * rewrite (loop_retry serve fuel rc k0 s0 _ e ltac:(lia) Ha Hq).
            apply IH. lia.
          * destruct (is_404 e) eqn:H4.
            -- eexists _, _.
               split; [apply (loop_not_found serve fuel rc k0 s0 _ e ltac:(lia) Ha Hq H4)
                      | exact Logic.I].
            -- eexists _, _.
               split; [apply (loop_fatal serve fuel rc k0 s0 _ e ltac:(lia) Ha Hq H4)
                      | split; assumption]. }
    apply (G 5%nat 0%nat s eq_refl).
  - intros rc r n w w1 w2 e d t Hrc Hn Hrun He Hq.
    replace 5%nat with (n + S (4 - n))%nat by lia.
    rewrite (loop_quota_run serve rc r Hrc n w w1 Hrun (S (4 - n)) 0 d t) by lia.
    pose proof (Hrc (mkState w1 d (t ++ retries r 0 n)) e w2 He) as Ha.
    cbn [world db trace] in Ha.
    destruct (is_404 e) eqn:H4.
    + rewrite (loop_not_found serve (4 - n) rc (0 + n) _ _ e (ltac:(lia)) Ha Hq H4).
      cbn [world db trace]. rewrite <- !app_assoc. reflexivity.
    + rewrite (loop_fatal serve (4 - n) rc (0 + n) _ _ e (ltac:(lia)) Ha Hq H4).
      cbn [world db trace]. rewrite <- !app_assoc. reflexivity.
  - intros rc r w w5 d t Hrc H5.
    pose proof (loop_quota_run serve rc r Hrc 5 w w5 H5 0 0 d t) as E.
    cbn [Nat.add] in E. rewrite E by lia.
    rewrite loop_give_up. cbn [world db trace]. rewrite <- app_assoc. reflexivity.
  - intros rc r n w w1 d t res s' Hrc Hn Hrun Ha.
    destruct res as [payload | e |]; [ | | exact Logic.I].
    + replace 5%nat with (n + S (4 - n))%nat by lia.
      rewrite (loop_quota_run serve rc r Hrc n w w1 Hrun (S (4 - n)) 0 d t) by lia.
      apply loop_success; [simpl; lia | exact Ha].
    + intros Hq.
      replace 5%nat with (n + S (4 - n))%nat by lia.
      rewrite (loop_quota_run serve rc r Hrc n w w1 Hrun (S (4 - n)) 0 d t) by lia.
      destruct (is_404 e) eqn:H4.
      * apply (loop_not_found serve (4 - n) rc (0 + n) _ _ e (ltac:(lia)) Ha Hq H4).
      * apply (loop_fatal serve (4 - n) rc (0 + n) _ _ e (ltac:(lia)) Ha Hq H4).
Qed.

End Remote.

Lemma safe_api_call_result_kinds_witness :
  fst (safe_api_call serve (bound_execute serve a_channel_request)
         (start [quota; quota; not_found] [])) = Ret VNone /\
  sleeps (trace (snd (safe_api_call serve (bound_execute serve a_channel_request)
         (start [quota; quota; not_found] [])))) = [1; 2] /\
  fst (safe_api_call serve (bound_execute serve a_channel_request)
         (start [quota; quota; quota; quota; quota] [])) = Ret VNone /\
  fst (safe_api_call serve (bound_execute serve a_channel_request)
         (start [quota; HttpOk a_payload] []))
    = Raise (AttributeError "dict object has no attribute execute") /\
  fst (safe_api_call serve (request_method a_channel_request)
         (start [quota; HttpOk a_payload] [])) = Ret a_payload /\
  (exists res s',
     safe_api_call serve (bound_execute serve a_channel_request) (start [] [])
     = (res, s') /\ res <> OutOfFuel).
Proof.
  destruct (safe_api_call_result_kinds serve) as (T & N & G & A).
  pose proof (N (bound_execute serve a_channel_request) a_channel_request 2%nat
                [quota; quota; not_found] [not_found] []
                (HttpError 404
                   "HttpError 404: The channel cannot be found. reason: channelNotFound")
                [] [] (bound_execute_sends serve a_channel_request)
                ltac:(lia) ltac:(quota_run) eq_refl eq_refl) as H1.
  pose proof (G (bound_execute serve a_channel_request) a_channel_request
                [quota; quota; quota; quota; quota] [] [] []
                (bound_execute_sends serve a_channel_request) ltac:(quota_run)) as H2.
  pose proof (A (bound_execute serve a_channel_request) a_channel_request 1%nat
                [quota; HttpOk a_payload] [HttpOk a_payload] [] []
                (Raise (AttributeError "dict object has no attribute execute"))
                (mkState [] [] (retries a_channel_request 0 1 ++ [Http a_channel_request]))
                (bound_execute_sends serve a_channel_request)
                ltac:(lia) ltac:(quota_run) eq_refl eq_refl) as H3.
  pose proof (A (request_method a_channel_request) a_channel_request 1%nat
                [quota; HttpOk a_payload] [HttpOk a_payload] [] []
                (Ret a_payload)
                (mkState [] [] (retries a_channel_request 0 1 ++ [Http a_channel_request]))
                (request_method_sends serve a_channel_request)
                ltac:(lia) ltac:(quota_run) eq_refl) as H4.
  destruct (T (bound_execute serve a_channel_request) a_channel_request (start [] [])
              (bound_execute_one_request serve a_channel_request))
    as (res & s' & E & K).
  cbn [is_404 Z.eqb Pos.eqb] in H1. cbn [is_404] in H3.
  unfold start in *. rewrite H1, H2, H3, H4.
  repeat split; try reflexivity.
  exists res, s'. split; [exact E|]. intros ->. exact K.
Defined.

End ResultKinds.

(* ------------------------------------------------------------------ *)
(** ** What the harvest leaves in the store                             *)
(* ------------------------------------------------------------------ *)

Module HarvestFacts.
Import Py Store Api Stream StoreQuery App ClientFacts CallSiteFacts Scripted.
Local Open Scope py_scope.

Section Remote.

Context {W : Type}.
Variable serve : Request -> W -> http_outcome * W.

Lemma keeps_ret {A} (a : A) : keeps_db (W := W) (ret a).
Proof. intros s. reflexivity. Qed.

Lemma keeps_raise {A} e : keeps_db (W := W) (A := A) (raise e).
Proof. intros s. reflexivity. Qed.

Lemma keeps_out_of_fuel {A} : keeps_db (W := W) (A := A) out_of_fuel.
Proof. intros s. reflexivity. Qed.

Lemma keeps_lift {A} (r : result A) : keeps_db (W := W) (lift r).
Proof. intros s. reflexivity. Qed.

Lemma keeps_emit e : keeps_db (W := W) (emit e).
Proof. intros s. reflexivity. Qed.

Lemma keeps_st l m args : keeps_db (W := W) (st l m args).
Proof. intros s. reflexivity. Qed.

Lemma keeps_bind {A B} (c : M W A) (k : A -> M W B) :
  keeps_db c -> (forall a, keeps_db (k a)) -> keeps_db (bind c k).
Proof.
  intros Hc Hk s. unfold bind. specialize (Hc s).
  destruct (c s) as [[a | e |] s1]; cbn [snd] in *; try exact Hc.
  rewrite (Hk a s1). exact Hc.
Qed.

Lemma keeps_try {A} (c : M W A) handler :
  keeps_db c ->
  (forall e, match handler e with Some h => keeps_db h | None => True end) ->
  keeps_db (try_except c handler).
Proof.
  intros Hc Hh s. unfold try_except. specialize (Hc s).
  destruct (c s) as [[a | e |] s1]; cbn [snd] in *; try exact Hc.
  specialize (Hh e). destruct (handler e) as [h|]; [|exact Hc].
  rewrite (Hh s1). exact Hc.
Qed.

Lemma keeps_http r : keeps_db (http_execute serve r).
Proof.
  intros s. unfold http_execute.
  destruct (serve r (world s)) as [[body | e] w']; reflexivity.
Qed.

Lemma keeps_call_execute o : keeps_db (call_execute serve o).
Proof. destruct o; [apply keeps_raise | apply keeps_http]. Qed.

Ltac keeps :=
  repeat first
    [ apply keeps_ret | apply keeps_raise | apply keeps_out_of_fuel
    | apply keeps_lift | apply keeps_st | apply keeps_emit
    | apply keeps_http | apply keeps_call_execute
    | assumption
    | apply keeps_bind; [ | intro ]
    | match goal with
      | |- keeps_db (if ?b then _ else _) => destruct b
      | |- keeps_db (match ?x with _ => _ end) => destruct x
      | |- keeps_db (let _ := _ in _) => cbv zeta
      end ].

Lemma keeps_bound_execute r : keeps_db (bound_execute serve r).
Proof. unfold bound_execute. keeps. Qed.

Lemma keeps_request_method r : keeps_db (request_method (W := W) r).
Proof. apply keeps_ret. Qed.

Lemma keeps_safe_api_loop rc (Hrc : keeps_db rc) fuel :
  forall retries, keeps_db (safe_api_loop serve fuel rc retries).
Proof.
  induction fuel as [|fuel IH]; intros retries; cbn [Stream.safe_api_loop];
    destruct (retries <? max_retries)%nat; keeps.
  apply keeps_try; [keeps|].
  intros e. destruct e; try (cbn; keeps).
  destruct ((status =? 403) && contains "quotaExceeded" text).
  - keeps. apply IH.
  - destruct (status =? 404); keeps.
Qed.

Lemma keeps_safe_api_call rc : keeps_db rc -> keeps_db (safe_api_call serve rc).
Proof. intros H. apply keeps_safe_api_loop. exact H. Qed.

Section CallSites.

Variable pass : Request -> @callable W.
Hypothesis pass_keeps : forall r, keeps_db (pass r).

Lemma keeps_api r : keeps_db (safe_api_call serve (pass r)).
Proof. apply keeps_safe_api_call. apply pass_keeps. Qed.

Lemma keeps_channel_info_by channel_id :
  keeps_db (channel_info_by serve pass channel_id).
Proof. unfold channel_info_by. cbv zeta. apply keeps_bind; [apply keeps_api|]. intro. keeps. Qed.

Lemma keeps_playlist_pages_by fuel :
  forall playlist_Id token acc,
    keeps_db (playlist_pages_by serve pass fuel playlist_Id token acc).
Proof.
  induction fuel as [|fuel IH]; intros playlist_Id token acc;
    cbn [playlist_pages_by]; [apply keeps_out_of_fuel|].
  apply keeps_bind; [apply keeps_api|]. intro. keeps. apply IH.
Qed.

Lemma keeps_playlist_videos_id_by fuel channel_ids :
  keeps_db (playlist_videos_id_by serve pass fuel channel_ids).
Proof.
  unfold playlist_videos_id_by. generalize (@nil value) as acc.
  induction channel_ids as [|c cs IH]; intros acc; cbn [playlist_channels_by];
    [apply keeps_ret|].
  apply keeps_bind; [apply keeps_st|]. intro.
  apply keeps_bind; [apply keeps_api|]. intro.
  apply keeps_bind; [apply keeps_lift|]. intro.
  apply keeps_bind; [|intro; apply IH].
  match goal with |- keeps_db (if ?b then _ else _) => destruct b end.
  - apply keeps_bind; [apply keeps_lift|]. intro. apply keeps_playlist_pages_by.
  - keeps.
Qed.

Lemma keeps_videos_data_by video_ids : keeps_db (videos_data_by serve pass video_ids).
Proof.
  unfold videos_data_by. apply keeps_bind; [apply keeps_st|]. intro.
  destruct video_ids as [|v vs]; [keeps|].
  generalize (@nil row) as acc.
  generalize (batch_starts (List.length (v :: vs))) as starts.
  generalize (v :: vs) as ids. intros ids starts.
  induction starts as [|i starts IH]; intros acc; cbn [videos_batches_by];
    [apply keeps_ret|].
  cbv zeta.
  apply keeps_bind; [apply keeps_lift|]. intro.
  apply keeps_bind; [apply keeps_st|]. intro.
  apply keeps_bind; [apply keeps_lift|]. intro.
  apply keeps_bind; [apply keeps_api|]. intro.
  apply keeps_bind; [apply keeps_lift|]. intro found.
  destruct found.
  - apply keeps_bind; [apply keeps_lift|]. intro.
    apply keeps_bind; [apply keeps_lift|]. intro.
    apply keeps_bind; [apply keeps_lift|]. intro. apply IH.
  - apply keeps_bind; [apply keeps_st|]. intro. apply IH.
Qed.

Lemma keeps_comment_pages_by fuel :
  forall video_id token channel acc,
    keeps_db (comment_pages_by serve pass fuel video_id token channel acc).
Proof.
  induction fuel as [|fuel IH]; intros video_id token channel acc;
    cbn [comment_pages_by]; [apply keeps_out_of_fuel|].
  cbv zeta. apply keeps_bind; [apply keeps_api|]. intro response.
  destruct (is_none response); [apply keeps_ret|].
  apply keeps_bind; [apply keeps_lift|]. intro has_error.
  apply keeps_bind; [apply keeps_lift|]. intro code.
  destruct (has_error && is_403 code).
  - keeps.
  - apply keeps_bind; [apply keeps_lift|]. intro items.
    destruct (truthy items); [|keeps].
    apply keeps_bind; [apply keeps_lift|]. intro.
    apply keeps_bind; [apply keeps_lift|]. intro.
    apply keeps_bind; [apply keeps_lift|]. intro.
    apply keeps_bind; [apply keeps_lift|]. intro next.
    destruct (negb (truthy next)); [apply keeps_ret | apply IH].
Qed.

Lemma keeps_comments_inf_by fuel video_ids channel :
  keeps_db (comments_inf_by serve pass fuel video_ids channel).
Proof.
  unfold comments_inf_by. destruct video_ids as [|v vs]; [keeps|].
  apply keeps_bind; [apply keeps_st|]. intro.
  generalize (@nil row) as acc. generalize (v :: vs) as ids. intros ids.
  induction ids as [|i ids IH]; intros acc; cbn [comments_videos_by];
    [apply keeps_ret|].
  apply keeps_bind; [apply keeps_st|]. intro.
  apply keeps_bind; [apply keeps_comment_pages_by|]. intro. apply IH.
Qed.

End CallSites.

(** X2.  The four fetchers never write to the store: whatever the remote
    answers and however the run ends, the database after
    [channel_info], [playlist_videos_id], [videos_data] or
    [comments_inf] is the database before. *)
Theorem fetchers_keep_the_store
    (fuel : nat) (channel_id channel : value) (ids : list value) (s : state W) :
  db (snd (channel_info serve channel_id s)) = db s /\
  db (snd (playlist_videos_id serve fuel ids s)) = db s /\
  db (snd (videos_data serve ids s)) = db s /\
  db (snd (comments_inf serve fuel ids channel s)) = db s.
Proof.
  repeat split.
  - apply (keeps_channel_info_by _ keeps_bound_execute).
  - apply (keeps_playlist_videos_id_by _ keeps_bound_execute).
  - apply (keeps_videos_data_by _ keeps_bound_execute).
  - apply (keeps_comments_inf_by _ keeps_bound_execute).
Qed.

Lemma keeps_for_each {A} (xs : list A) (body : A -> M W unit) :
  (forall x, keeps_db (body x)) -> keeps_db (for_each xs body).
Proof.
  intros H. induction xs as [|x xs IH]; cbn [for_each]; [apply keeps_ret|].
  apply keeps_bind; [apply H | intro; exact IH].
Qed.

(** A fetcher that can only hand back the empty list, followed by code
    that keeps the store when given the empty list. *)
Lemma keeps_after_nothing {A B} (c : M W (list A)) (k : list A -> M W B) :
  keeps_db c ->
  (forall s a s1, c s = (Ret a, s1) -> a = []) ->
  keeps_db (k []) ->
  keeps_db (bind c k).
Proof.
  intros Hc Hn Hk s. unfold bind. specialize (Hc s).
  destruct (c s) as [[a | e |] s1] eqn:E; cbn [snd] in *; try exact Hc.
  rewrite (Hn s a s1 E). rewrite (Hk s1). exact Hc.
Qed.

(** X3.  With [request.execute] passed to [safe_api_call], no fetch can
    hand back a record, whatever the remote answers: [channel_info] and
    [comments_inf] return an empty frame or raise, and
    [eachchanneldetails] does no more to the store than make sure the
    channels table exists. *)
Theorem no_record_is_ever_fetched
    (fuel : nat) (channel_id channel : value) (ids : list value) (s : state W) :
  match fst (channel_info serve channel_id s) with
  | Ret df => df = []
  | _ => True
  end /\
  match fst (comments_inf serve fuel ids channel s) with
  | Ret df => df = []
  | _ => True
  end /\
  db (snd (eachchanneldetails serve ids s))
  = create_table_if_not_exists "channels" Stream.channels_columns (db s).
Proof.
  split; [|split].
  - destruct (channel_info serve channel_id s) as [[df | e |] s'] eqn:E;
      cbn [fst]; try exact Logic.I.
    apply (channel_info_returns_nothing serve _ _ _ _ E).
  - destruct (comments_inf serve fuel ids channel s) as [[df | e |] s'] eqn:E;
      cbn [fst]; try exact Logic.I.
    apply (comments_inf_returns_nothing serve _ _ _ _ _ _ E).
  - unfold eachchanneldetails, eachchanneldetails_by.
    unfold bind at 1, execute_ddl, bind at 1, get_db, set_db. cbn [world db trace].
    match goal with
    | |- db (snd (for_each ?xs ?body ?s0)) = _ =>
        rewrite (keeps_for_each xs body); [reflexivity|]
    end.
    intros x. apply keeps_after_nothing.
    + apply (keeps_channel_info_by _ keeps_bound_execute).
    + intros s0 a s1 E. apply (channel_info_returns_nothing serve _ _ _ _ E).
    + apply keeps_st.
Qed.

(** X4.  The three harvest buttons of [main], as written, never change
    the store: whatever channel id is entered and whatever the remote
    answers, the database after "Fetch & Store Channel Data",
    "Fetch & Store Video Data" or "Fetch & Store Comment Data" is the
    database before. *)
Theorem harvest_buttons_store_nothing
    (st_dataframe : dataframe -> M W unit) (fuel : nat)
    (current_channel_id : string) (s : state W) :
  db (snd (main_fetch_channel serve st_dataframe current_channel_id s)) = db s /\
  db (snd (main_fetch_videos serve fuel current_channel_id s)) = db s /\
  db (snd (main_fetch_comments serve fuel current_channel_id s)) = db s.
Proof.
  split; [|split].
  - unfold main_fetch_channel, main_fetch_channel_by.
    destruct (negb (String.eqb current_channel_id "")); [|reflexivity].
    apply keeps_after_nothing.
    + apply (keeps_channel_info_by _ keeps_bound_execute).
    + intros s0 a s1 E. apply (channel_info_returns_nothing serve _ _ _ _ E).
    + apply keeps_st.
  - unfold main_fetch_videos, main_fetch_videos_by.
    destruct (negb (String.eqb current_channel_id "")); [|reflexivity].
    apply keeps_after_nothing.
    + apply (keeps_playlist_videos_id_by _ keeps_bound_execute).
    + intros s0 a s1 E. apply (playlist_videos_id_returns_nothing serve _ _ _ _ _ E).
    + apply keeps_st.
  - unfold main_fetch_comments, main_fetch_comments_by.
    destruct (negb (String.eqb current_channel_id "")); [|reflexivity].
    apply keeps_after_nothing.
    + apply (keeps_playlist_videos_id_by _ keeps_bound_execute).
    + intros s0 a s1 E. apply (playlist_videos_id_returns_nothing serve _ _ _ _ _ E).
    + apply keeps_st.
Qed.

End Remote.

End HarvestFacts.

(* ------------------------------------------------------------------ *)
(** ** The look-up with fall-back                                       *)
(* ------------------------------------------------------------------ *)

Module LookupFacts.
Import Py Store Api Stream StoreQuery App ClientFacts CallSiteFacts ClientBounds
  HarvestFacts Scripted.
Local Open Scope py_scope.

Lemma cell_at_has_column cols cells name :
  cell_at cols cells name <> SNull -> has_column cols name = true.
Proof.
  revert cells. induction cols as [|c cols IH]; intros cells H.
  - contradiction H. reflexivity.
  - destruct cells as [|x cells]; [contradiction H; reflexivity|].
    cbn [cell_at] in H. unfold has_column. cbn [existsb].
    destruct (same_name (col_name c) name); [reflexivity|].
    apply (IH cells H).
Qed.

Lemma filter_length_positive {A} (f : A -> bool) l :
  (1 <= List.length (filter f l))%nat -> exists x, In x l /\ f x = true.
Proof.
  induction l as [|a l IH]; cbn; intros H; [lia|].
  destruct (f a) eqn:E.
  - exists a. split; [left; reflexivity | exact E].
  - destruct (IH H) as (x & Hx & Hf). exists x. split; [right; exact Hx | exact Hf].
Qed.

(** A stored row with a cell in some column has columns as a row of a
    frame. *)
Lemma frame_row_has_columns cols cells name :
  cell_at cols cells name <> SNull -> frame_row cols cells <> [].
Proof.
  destruct cols as [|c cols]; [intros H; contradiction H; reflexivity|].
  destruct cells as [|x cells]; [intros H; contradiction H; reflexivity|].
  intros _. discriminate.
Qed.

(** Selecting by a text key gives as many rows as the key is stored, and
    a frame that is not empty. *)
Lemma select_by_text_key d tname cname id :
  (1 <= count_key d tname cname (SText id))%nat ->
  exists df,
    select_where tname cname (VStr id) d = Ret df /\
    List.length df = count_key d tname cname (SText id) /\
    frame_empty df = false.
Proof.
  unfold count_key, select_where. destruct (lookup tname d) as [t|]; [|cbn; lia].
  intros H.
  destruct (filter_length_positive _ _ H) as (r & _ & Hr).
  assert (Hc : has_column (tbl_columns t) cname = true).
  { apply (cell_at_has_column _ r). intros E. rewrite E in Hr. discriminate Hr. }
  rewrite Hc. cbn [bind_value rbind sqlval_eqb negb andb].
  eexists. split; [reflexivity|]. split; [rewrite length_map; reflexivity|].
  destruct (filter (fun r0 => sqlval_eqb (cell_at (tbl_columns t) r0 cname) (SText id))
              (tbl_rows t)) as [|r0 rows] eqn:F; [cbn in H; lia|].
  assert (Hr0 : sqlval_eqb (cell_at (tbl_columns t) r0 cname) (SText id) = true).
  { assert (I : In r0 (r0 :: rows)) by (left; reflexivity).
    rewrite <- F in I. apply filter_In in I. exact (proj2 I). }
  cbn [map frame_empty forallb].
  destruct (frame_row (tbl_columns t) r0) eqn:G; [|reflexivity].
  exfalso. apply (frame_row_has_columns (tbl_columns t) r0 cname); [|exact G].
  intros E. rewrite E in Hr0. discriminate Hr0.
Qed.

Lemma select_absent_text_key d tname cname id t :
  lookup tname d = Some t -> has_column (tbl_columns t) cname = true ->
  count_key d tname cname (SText id) = 0%nat ->
  select_where tname cname (VStr id) d = Ret [].
Proof.
  unfold count_key, select_where. intros -> -> H.
  cbn [bind_value rbind sqlval_eqb negb andb].
  apply length_zero_iff_nil in H. rewrite H. reflexivity.
Qed.

Section Remote.

Context {W : Type}.
Variable serve : Request -> W -> http_outcome * W.

(** X5.  A channel that is in the store is answered from the store:
    [fetch_channel_data] hands back as many rows as the store holds for
    the id, sends no request, and leaves the store as it is.  This does
    not depend on how the request would have been passed. *)
Theorem stored_channel_is_not_fetched
    (pass : Request -> callable) (newchannel_id : string) (s : state W) :
  (1 <= count_key (db s) "channels" "channel_id" (SText newchannel_id))%nat ->
  exists df,
    fetch_channel_data_by serve pass newchannel_id s
    = (Ret df,
       mkState (world s) (db s)
         (trace s ++
            [St Info "Channel already exists in the database. Returning existing data." []]))
    /\ List.length df = count_key (db s) "channels" "channel_id" (SText newchannel_id).
Proof.
  intros H.
  destruct (select_by_text_key _ _ _ _ H) as (df & Hsel & Hlen & Hne).
  exists df. split; [|exact Hlen].
  unfold fetch_channel_data_by, bind at 1, get_db.
  unfold bind at 1, lift. rewrite Hsel, Hne. reflexivity.
Qed.

Lemma catch_all_never_raises {A} (c : M W A) l m (args : exn -> list value) (a : A) s e :
  fst (try_except c (fun e => Some (st l m (args e) ;;; ret a)) s) <> Raise e.
Proof.
  unfold try_except. destruct (c s) as [[x | e' |] s1]; cbn; discriminate.
Qed.

(** X6.  When the channels table is there, [fetch_channel_data] never
    raises, however the request is passed and whatever happens in the
    remote call, in the payload or in the insertion: every exception ends
    in the catch-all handler. *)
Theorem fetch_channel_data_never_raises
    (pass : Request -> callable) (newchannel_id : string) (s : state W)
    (t : table) (e : exn) :
  lookup "channels" (db s) = Some t ->
  has_column (tbl_columns t) "channel_id" = true ->
  fst (fetch_channel_data_by serve pass newchannel_id s) <> Raise e.
Proof.
  intros Ht Hc.
  unfold fetch_channel_data_by, bind at 1, get_db.
  unfold bind at 1, lift, select_where. rewrite Ht, Hc.
  cbn [bind_value rbind].
  match goal with
  | |- context [frame_empty ?df] => destruct (frame_empty df)
  end; cbn [negb].
  - unfold bind at 1, st, emit.
    apply (catch_all_never_raises _ Error "Error fetching channel data from API: {e}"
             (fun e => [VStr (str_of_exn e)])).
  - cbn. discriminate.
Qed.

(** X7.  As written, the fall-back never stores a channel: for an id that
    is not in the store [fetch_channel_data] hands back an empty frame
    and the store is as before, whatever the remote answers. *)
Theorem unknown_channel_is_never_stored
    (newchannel_id : string) (s : state W) (t : table) :
  lookup "channels" (db s) = Some t ->
  has_column (tbl_columns t) "channel_id" = true ->
  count_key (db s) "channels" "channel_id" (SText newchannel_id) = 0%nat ->
  exists s',
    fetch_channel_data serve newchannel_id s = (Ret [], s') /\ db s' = db s.
Proof.
  intros Ht Hc H0.
  unfold fetch_channel_data, fetch_channel_data_by, bind at 1, get_db.
  unfold bind at 1, lift.
  rewrite (select_absent_text_key _ _ _ _ t Ht Hc H0).
  cbn [frame_empty forallb negb].
  unfold bind at 1, st, emit. cbn [world db trace]. cbv zeta.
  set (r := channels_list "snippet,contentDetails,statistics" (VStr newchannel_id)).
  set (s0 := mkState (world s) (db s) _).
  destruct (loop_bounds serve r (bound_execute serve r)
              (bound_execute_one_request serve r) 5 0 s0 eq_refl)
    as (n & j & res & s1 & E & Hres & _ & _ & _ & _ & _ & Hdb).
  unfold try_except, bind at 1. unfold Stream.safe_api_call, max_retries. rewrite E.
  destruct res as [v | e |]; [ | | contradiction Hres; reflexivity].
  - assert (v = VNone) by (apply (bound_execute_loop_returns_none serve r 5 0 s0 v s1 E)).
    subst v. cbn. eexists. split; [reflexivity|]. cbn. exact Hdb.
  - cbn. eexists. split; [reflexivity|]. cbn. exact Hdb.
Qed.

End Remote.

Lemma stored_channel_is_not_fetched_witness :
  exists df,
    fetch_channel_data serve "UC1"
      (after (df_to_sql "channels" [channel_row "UC1"] (start [] fresh_store)))
    = (Ret df,
       mkState []
         (db (after (df_to_sql "channels" [channel_row "UC1"] (start [] fresh_store))))
         [St Info "Channel already exists in the database. Returning existing data." []])
    /\ List.length df = 1%nat.
Proof.
  apply (stored_channel_is_not_fetched serve (bound_execute serve) "UC1"
           (after (df_to_sql "channels" [channel_row "UC1"] (start [] fresh_store)))).
  vm_compute. lia.
Defined.

Lemma fetch_channel_data_never_raises_witness :
  fst (fetch_channel_data_by serve request_method "UC1"
         (start [HttpOk hidden_subscribers_channel] fresh_store))
  <> Raise (KeyError "subscriberCount").
Proof.
  apply (fetch_channel_data_never_raises serve request_method "UC1"
           (start [HttpOk hidden_subscribers_channel] fresh_store)
           (mkTable Stream.channels_columns [])).
  - reflexivity.
  - reflexivity.
Defined.

Lemma unknown_channel_is_never_stored_witness :
  exists s',
    fetch_channel_data serve "UC1" (start [HttpOk public_channel] fresh_store)
    = (Ret [], s') /\ db s' = fresh_store.
Proof.
  apply (unknown_channel_is_never_stored serve "UC1"
           (start [HttpOk public_channel] fresh_store)
           (mkTable Stream.channels_columns [])).
  - reflexivity.
  - reflexivity.
  - reflexivity.
Defined.

End LookupFacts.

(* ------------------------------------------------------------------ *)
(** ** Keys and rows across insertions                                  *)
(* ------------------------------------------------------------------ *)

Module StoreInvariants.
Import Py Store Api Stream StoreQuery App Bulk StoreFacts Scripted.
Local Open Scope py_scope.

Lemma sqlval_eqb_eq a b : sqlval_eqb a b = true <-> a = b.
Proof.
  destruct a, b; cbn; split; intros H; try discriminate H; try reflexivity.
  - apply Z.eqb_eq in H. subst. reflexivity.
  - inversion H. apply Z.eqb_refl.
  - apply String.eqb_eq in H. subst. reflexivity.
  - inversion H. apply String.eqb_refl.
Qed.

Lemma bind_value_ends v : bind_value v <> OutOfFuel.
Proof.
  destruct v; cbn [bind_value]; try discriminate.
  destruct ((- 2 ^ 63 <=? z) && (z <? 2 ^ 63)); discriminate.
Qed.

(** A frame with a record that has a column is not empty. *)
Lemma frame_with_record df r :
  In r df -> r <> [] -> frame_empty df = false.
Proof.
  intros Hin Hr. unfold frame_empty.
  destruct (forallb _ df) eqn:E; [|reflexivity].
  rewrite forallb_forall in E. specialize (E r Hin).
  destruct r; [contradiction Hr; reflexivity | discriminate E].
Qed.

Lemma sqlval_eqb_refl a : sqlval_eqb a a = true.
Proof. apply sqlval_eqb_eq. reflexivity. Qed.

Lemma sqlval_eqb_neq a b : a <> b -> sqlval_eqb a b = false.
Proof.
  intros H. destruct (sqlval_eqb a b) eqn:E; [|reflexivity].
  apply sqlval_eqb_eq in E. contradiction.
Qed.

Lemma same_name_right a b c :
  same_name a b = true -> same_name c a = same_name c b.
Proof.
  unfold same_name. intros H. apply String.eqb_eq in H. rewrite H. reflexivity.
Qed.

Lemma find_cell_same a b cells :
  same_name a b = true -> find_cell a cells = find_cell b cells.
Proof.
  intros H. induction cells as [|[c x] cells IH]; cbn; [reflexivity|].
  rewrite (same_name_right a b c H), IH. reflexivity.
Qed.

(** The cell a new row gets in a column is the cell bound for it. *)
Lemma cell_at_new_row cols cells name :
  has_column cols name = true ->
  cell_at cols (map (fun c => find_cell (col_name c) cells) cols) name
  = find_cell name cells.
Proof.
  unfold has_column. induction cols as [|c cols IH]; cbn; intros H; [discriminate H|].
  destruct (same_name (col_name c) name) eqn:E.
  - apply find_cell_same. exact E.
  - apply IH. exact H.
Qed.

Lemma key_column_has_column cols name :
  key_column cols name = true -> has_column cols name = true.
Proof.
  unfold has_column. induction cols as [|c cols IH]; cbn; intros H; [discriminate H|].
  destruct (same_name (col_name c) name); [reflexivity | apply IH; exact H].
Qed.

Lemma bound_key r name cells v k :
  bind_row r = Ret cells -> row_key r name = Some v -> bind_value v = Ret k ->
  find_cell name cells = k.
Proof.
  revert cells. induction r as [|[c x] r IH]; intros cells Hb Hk Hv; [discriminate Hk|].
  cbn in Hb, Hk.
  destruct (bind_value x) as [y | |] eqn:Ex; try discriminate Hb.
  cbn in Hb. destruct (bind_row r) as [ys | |] eqn:Er; try discriminate Hb.
  cbn in Hb. inversion Hb; subst cells. cbn.
  destruct (same_name c name).
  - inversion Hk; subst x. rewrite Hv in Ex. inversion Ex. reflexivity.
  - apply (IH ys eq_refl Hk Hv).
Qed.

(** Two rows with the same key that is not NULL clash. *)
Lemma same_key_clashes cols name k :
  key_column cols name = true -> k <> SNull ->
  forall old new,
    cell_at cols old name = k -> cell_at cols new name = k ->
    pk_clash cols old new <> None.
Proof.
  intros Hkey Hk. induction cols as [|c cols IH]; [discriminate Hkey|].
  intros old new Ho Hn.
  destruct old as [|o old]; [cbn in Ho; congruence|].
  destruct new as [|n new]; [cbn in Hn; congruence|].
  cbn in Hkey, Ho, Hn |- *.
  destruct (same_name (col_name c) name).
  - subst o n. rewrite Hkey, sqlval_eqb_refl, (sqlval_eqb_neq k SNull Hk).
    cbn. discriminate.
  - destruct (col_pk c && negb (sqlval_eqb n SNull) && sqlval_eqb o n);
      [discriminate | apply IH; assumption].
Qed.

(** Rows that do not clash differ in the key, unless the new key is NULL. *)
Lemma no_clash_keys_differ cols name :
  key_column cols name = true ->
  forall old new,
    pk_clash cols old new = None ->
    cell_at cols new name = SNull \/ cell_at cols old name <> cell_at cols new name.
Proof.
  intros Hkey. induction cols as [|c cols IH]; [discriminate Hkey|].
  intros old new H.
  destruct new as [|n new]; [left; reflexivity|].
  destruct old as [|o old].
  - cbn [cell_at].
    destruct (match same_name (col_name c) name with
              | true => n | false => cell_at cols new name end) eqn:E;
      [left; reflexivity | right; discriminate | right; discriminate].
  - cbn in Hkey, H |- *.
    destruct (same_name (col_name c) name).
    + rewrite Hkey in H. cbn in H.
      destruct (sqlval_eqb n SNull) eqn:En.
      * left. apply sqlval_eqb_eq. exact En.
      * cbn in H. destruct (sqlval_eqb o n) eqn:Eo; [discriminate H|].
        right. intros E. apply sqlval_eqb_eq in E. congruence.
    + destruct (col_pk c && negb (sqlval_eqb n SNull) && sqlval_eqb o n);
        [discriminate H | apply IH; assumption].
Qed.

Lemma first_clash_found cols rows new old :
  In old rows -> pk_clash cols old new <> None -> first_clash cols rows new <> None.
Proof.
  induction rows as [|r rows IH]; intros Hin Hc; [contradiction Hin|].
  cbn. destruct Hin as [-> | Hin].
  - destruct (pk_clash cols old new); [discriminate | contradiction Hc; reflexivity].
  - destruct (pk_clash cols r new); [discriminate | apply IH; assumption].
Qed.

Lemma first_clash_none cols rows new old :
  first_clash cols rows new = None -> In old rows -> pk_clash cols old new = None.
Proof.
  induction rows as [|r rows IH]; intros H Hin; [contradiction Hin|].
  cbn in H. destruct (pk_clash cols r new) eqn:E; [discriminate H|].
  destruct Hin as [<- | Hin]; [exact E | apply IH; assumption].
Qed.

(** What a successful [INSERT] does to the table. *)
Lemma insert_row_ok name t r t' :
  insert_row name t r = Ret t' ->
  exists cells,
    bind_row r = Ret cells /\
    let new := map (fun c => find_cell (col_name c) cells) (tbl_columns t) in
    first_clash (tbl_columns t) (tbl_rows t) new = None /\
    t' = mkTable (tbl_columns t) (tbl_rows t ++ [new]).
Proof.
  unfold insert_row. destruct (unknown_column (tbl_columns t) r); [discriminate|].
  destruct (bind_row r) as [cells | |]; try discriminate. cbn [rbind].
  destruct (first_clash _ _ _) eqn:E; [discriminate|].
  intros H. inversion H. exists cells. repeat split. exact E.
Qed.

Lemma executemany_ok name df :
  forall t t',
    executemany name t df = Ret t' ->
    tbl_columns t' = tbl_columns t /\
    exists more, tbl_rows t' = tbl_rows t ++ more /\ List.length more = List.length df.
Proof.
  induction df as [|r df IH]; intros t t' H.
  - inversion H. split; [reflexivity|]. exists []. rewrite app_nil_r. split; reflexivity.
  - cbn in H. destruct (insert_row name t r) as [t1 | |] eqn:E; try discriminate H.
    cbn in H. destruct (insert_row_ok _ _ _ _ E) as (cells & _ & _ & ->).
    destruct (IH _ _ H) as (Hc & more & Hr & Hl). cbn in Hc, Hr.
    split; [exact Hc|]. eexists. rewrite Hr, <- app_assoc. split; [reflexivity|].
    cbn. rewrite Hl. reflexivity.
Qed.

(** A frame with a row whose key is stored already is refused as a
    whole. *)
Lemma executemany_refuses name kname k df :
  k <> SNull ->
  forall t r v,
    key_column (tbl_columns t) kname = true ->
    (1 <= keyed (tbl_columns t) (tbl_rows t) kname k)%nat ->
    In r df -> row_key r kname = Some v -> bind_value v = Ret k ->
    exists e, executemany name t df = Raise e.
Proof.
  intros Hk. induction df as [|r0 df IH]; intros t r v Hkey Hold Hin Hrk Hv;
    [contradiction Hin|].
  cbn [executemany].
  destruct (insert_row name t r0) as [t1 | e |] eqn:E.
  - destruct (insert_row_ok _ _ _ _ E) as (cells & Hb & Hc & ->). cbn [rbind].
    destruct (LookupFacts.filter_length_positive _ _ Hold) as (old & Hio & Ho).
    apply sqlval_eqb_eq in Ho.
    destruct Hin as [-> | Hin].
    + exfalso.
      refine (first_clash_found _ _ _ old Hio _ Hc).
      apply (same_key_clashes _ kname k Hkey Hk); [exact Ho|].
      rewrite (cell_at_new_row _ _ _ (key_column_has_column _ _ Hkey)).
      apply (bound_key r kname cells v k Hb Hrk Hv).
    + apply (IH _ r v); try assumption.
      cbn [tbl_columns tbl_rows]. unfold keyed in *.
      rewrite filter_app, length_app. lia.
  - cbn. exists e. reflexivity.
  - exfalso. unfold insert_row in E.
    destruct (unknown_column (tbl_columns t) r0); [discriminate E|].
    destruct (bind_row r0) eqn:Eb; cbn in E; try discriminate E.
    + destruct (first_clash _ _ _); discriminate E.
    + clear - Eb. induction r0 as [|[c x] r0 IHr]; [discriminate Eb|].
      cbn [bind_row] in Eb.
      destruct (bind_value x) eqn:Ex; cbn [rbind] in Eb; try discriminate Eb.
      * destruct (bind_row r0); cbn in Eb; try discriminate Eb. apply IHr; reflexivity.
      * apply (bind_value_ends x Ex).
Qed.

Lemma lookup_replace_table name t d t0 :
  lookup name d = Some t0 -> lookup name (replace_table name t d) = Some t.
Proof.
  induction d as [|[n x] d IH]; cbn; intros H; [discriminate H|].
  destruct (String.eqb name n) eqn:E; cbn; rewrite E; [reflexivity | apply IH; exact H].
Qed.

Lemma lookup_replace_other name t d n :
  n <> name -> lookup n (replace_table name t d) = lookup n d.
Proof.
  intros Hn. induction d as [|[m x] d IH]; cbn; [reflexivity|].
  destruct (String.eqb name m) eqn:E; cbn.
  - apply String.eqb_eq in E. subst m.
    destruct (String.eqb n name) eqn:E2; [|reflexivity].
    apply String.eqb_eq in E2. contradiction.
  - rewrite IH. reflexivity.
Qed.

Lemma lookup_app_new {A} name (x : A) d n :
  lookup n (d ++ [(name, x)])
  = match lookup n d with
    | Some y => Some y
    | None => if String.eqb n name then Some x else None
    end.
Proof.
  induction d as [|[m y] d IH]; cbn; [reflexivity|].
  destruct (String.eqb n m); [reflexivity | exact IH].
Qed.

(** A successful [to_sql] adds exactly one row per record of the frame to
    the table it names, and leaves every other table as it was. *)
Lemma to_sql_adds_the_frame name df d d' :
  to_sql name df d = Ret d' ->
  row_count d' name = (row_count d name + List.length df)%nat /\
  (forall other, other <> name -> lookup other d' = lookup other d).
Proof.
  unfold to_sql, row_count. intros H.
  destruct (lookup name d) as [t|] eqn:Et.
  - rewrite Et in H.
    destruct (executemany name t df) as [t' | |] eqn:E; try discriminate H.
    cbn in H. inversion H; subst d'.
    destruct (executemany_ok _ _ _ _ E) as (_ & more & Hr & Hl). split.
    + rewrite (lookup_replace_table name t' d t Et), Hr, length_app, Hl. reflexivity.
    + intros other Ho. apply lookup_replace_other. exact Ho.
  - rewrite lookup_app_new, Et, String.eqb_refl in H.
    destruct (executemany name _ df) as [t' | |] eqn:E; try discriminate H.
    cbn in H. inversion H; subst d'.
    destruct (executemany_ok _ _ _ _ E) as (_ & more & Hr & Hl). cbn in Hr. split.
    + erewrite lookup_replace_table
        by (rewrite lookup_app_new, Et, String.eqb_refl; reflexivity).
      rewrite Hr, Hl. reflexivity.
    + intros other Ho. rewrite (lookup_replace_other _ _ _ _ Ho), lookup_app_new.
      destruct (lookup other d); [reflexivity|].
      destruct (String.eqb other name) eqn:E2; [|reflexivity].
      apply String.eqb_eq in E2. contradiction.
Qed.

Lemma bulk_ddl_is_noop {W} b (s : state W) t :
  lookup (bulk_table b) (db s) = Some t ->
  forall cols, execute_ddl (bulk_table b) cols s = (Ret tt, s).
Proof.
  intros Ht cols. unfold execute_ddl, bind, get_db, set_db.
  rewrite (create_existing_table _ _ _ _ Ht). destruct s; reflexivity.
Qed.

Lemma bind_row_ends r : bind_row r <> OutOfFuel.
Proof.
  induction r as [|[c x] r IH]; [discriminate|].
  cbn. destruct (bind_value x) eqn:E; cbn; try discriminate.
  - destruct (bind_row r); cbn; try discriminate. contradiction IH; reflexivity.
  - contradiction (bind_value_ends x E).
Qed.

Lemma executemany_ends name df : forall t, executemany name t df <> OutOfFuel.
Proof.
  induction df as [|r df IH]; intros t; [discriminate|].
  cbn. destruct (insert_row name t r) as [t1 | e |] eqn:E; cbn;
    [apply IH | discriminate | ].
  exfalso. unfold insert_row in E.
  destruct (unknown_column (tbl_columns t) r); [discriminate E|].
  pose proof (bind_row_ends r) as Hb.
  destruct (bind_row r); cbn in E; try discriminate E;
    [destruct (first_clash _ _ _); discriminate E | contradiction Hb; reflexivity].
Qed.

Lemma to_sql_ends name df d : to_sql name df d <> OutOfFuel.
Proof.
  unfold to_sql.
  destruct (lookup name _) as [t|]; [|discriminate].
  pose proof (executemany_ends name df t) as H.
  destruct (executemany name t df); cbn; try discriminate. contradiction H; reflexivity.
Qed.

(** X8.  A bulk insertion of videos or comments is all or nothing, and it
    never raises.  For an empty frame (no record, or records without any
    column) only the warning is given and the store stays as it is.  For
    any other frame either every record is stored (the table grows by the
    length of the frame, the other tables are as before, and success is
    reported), or nothing is stored and the error is reported. *)
Theorem bulk_insert_is_all_or_nothing
    {W} (b : bulk) (s : state W) (t : table) (df : dataframe) :
  lookup (bulk_table b) (db s) = Some t ->
  exists s',
    bulk_insert b df s = (Ret tt, s') /\
    if frame_empty df then
      trace s' = trace s ++ [St Warning (bulk_nothing b) []] /\ db s' = db s
    else
      (trace s' = trace s ++
                  [St Success (bulk_success b) [VInt (Z.of_nat (List.length df))]] /\
       row_count (db s') (bulk_table b)
         = (row_count (db s) (bulk_table b) + List.length df)%nat /\
       (forall other, other <> bulk_table b ->
                      lookup other (db s') = lookup other (db s)))
      \/
      (exists e,
         trace s' = trace s ++ [St Error (bulk_error b) [VStr (str_of_exn e)]] /\
         db s' = db s).
Proof.
  intros Ht. destruct (frame_empty df) eqn:Hdf.
  - destruct b; cbn [bulk_insert bulk_table bulk_nothing] in *;
      unfold insert_videos_into_sqlite, insert_comments_into_sqlite;
      unfold bind at 1;
      [ rewrite (bulk_ddl_is_noop Videos s t Ht)
      | rewrite (bulk_ddl_is_noop Comments s t Ht) ];
      rewrite Hdf; cbn [negb];
      (eexists; split; [reflexivity | split; reflexivity]).
  - pose proof (to_sql_ends (bulk_table b) df (db s)) as Hends.
    destruct (to_sql (bulk_table b) df (db s)) as [d' | e |] eqn:E;
      [ | | contradiction Hends; reflexivity].
    + destruct (to_sql_adds_the_frame _ _ _ _ E) as [Hrows Hothers].
      destruct b; cbn [bulk_insert bulk_table bulk_success] in *;
        unfold insert_videos_into_sqlite, insert_comments_into_sqlite;
        unfold bind at 1;
        [ rewrite (bulk_ddl_is_noop Videos s t Ht)
        | rewrite (bulk_ddl_is_noop Comments s t Ht) ];
        rewrite Hdf; cbn [negb];
        unfold try_except, bind at 1, df_to_sql; rewrite E;
        (eexists; split; [reflexivity|]; left;
         cbn [world db trace]; split; [reflexivity | split; assumption]).
    + destruct b; cbn [bulk_insert bulk_table bulk_error] in *;
        unfold insert_videos_into_sqlite, insert_comments_into_sqlite;
        unfold bind at 1;
        [ rewrite (bulk_ddl_is_noop Videos s t Ht)
        | rewrite (bulk_ddl_is_noop Comments s t Ht) ];
        rewrite Hdf; cbn [negb];
        unfold try_except, bind at 1, df_to_sql; rewrite E;
        (eexists; split; [reflexivity|]; right; exists e; split; reflexivity).
Qed.

Lemma bulk_insert_is_all_or_nothing_witness :
  (exists s',
     insert_comments_into_sqlite [comment_row "c2"; comment_row "c3"] one_comment_stored
     = (Ret tt, s') /\
     row_count (db s') "comments" = 3%nat) /\
  (exists s',
     insert_videos_into_sqlite [[]; []] one_video_stored = (Ret tt, s') /\
     trace s' = [St Warning "No video data to insert." []] /\
     db s' = db one_video_stored).
Proof.
  split.
  - destruct (bulk_insert_is_all_or_nothing Comments one_comment_stored
                (mkTable Stream.comments_columns
                   [map (fun c => find_cell (col_name c)
                                    (map (fun p => (fst p,
                                       match bind_value (snd p) with Ret x => x | _ => SNull end))
                                       (comment_row "c1")))
                      Stream.comments_columns])
                [comment_row "c2"; comment_row "c3"])
      as (s' & E & _).
    + vm_compute. reflexivity.
    + exists s'. split; [exact E|].
      cbn [bulk_insert] in E.
      replace s' with (snd (insert_comments_into_sqlite
                              [comment_row "c2"; comment_row "c3"] one_comment_stored))
        by (rewrite E; reflexivity).
      vm_compute. reflexivity.
  - destruct (bulk_insert_is_all_or_nothing Videos one_video_stored
                (mkTable Stream.videos_columns
                   [map (fun c => find_cell (col_name c)
                                    (map (fun p => (fst p,
                                       match bind_value (snd p) with Ret x => x | _ => SNull end))
                                       (video_row "v1")))
                      Stream.videos_columns])
                [[]; []])
      as (s' & E & H).
    + vm_compute. reflexivity.
    + exists s'. split; [exact E | exact H].
Defined.

Lemma to_sql_refuses name kname k d t df r v :
  lookup name d = Some t ->
  key_column (tbl_columns t) kname = true ->
  (1 <= count_key d name kname k)%nat -> k <> SNull ->
  In r df -> row_key r kname = Some v -> bind_value v = Ret k ->
  exists e, to_sql name df d = Raise e.
Proof.
  intros Ht Hkey Hc Hk Hin Hrk Hv. unfold to_sql, count_key in *. rewrite Ht in *.
  rewrite Ht.
  destruct (executemany_refuses name kname k df Hk t r v Hkey Hc Hin Hrk Hv) as (e & E).
  exists e. rewrite E. reflexivity.
Qed.

(** X9.  A bulk insertion of videos or comments that contains a record
    whose id is stored already persists nothing: the whole frame is
    refused, the store stays as it was, and the only trace is the error
    message of the catch-all handler.  (The table must declare the id
    column as primary key, as Stream.py does.) *)
Theorem stored_id_refuses_the_whole_frame
    {W} (b : bulk) (s : state W) (t : table) (df : dataframe)
    (r : row) (v : value) (k : sqlval) :
  lookup (bulk_table b) (db s) = Some t ->
  key_column (tbl_columns t) (bulk_key b) = true ->
  (1 <= count_key (db s) (bulk_table b) (bulk_key b) k)%nat -> k <> SNull ->
  In r df -> row_key r (bulk_key b) = Some v -> bind_value v = Ret k ->
  exists e,
    bulk_insert b df s
    = (Ret tt,
       mkState (world s) (db s)
         (trace s ++ [St Error (bulk_error b) [VStr (str_of_exn e)]])).
Proof.
  intros Ht Hkey Hc Hk Hin Hrk Hv.
  destruct (to_sql_refuses _ _ _ _ _ df r v Ht Hkey Hc Hk Hin Hrk Hv) as (e & E).
  exists e.
  assert (Hne : frame_empty df = false).
  { apply (frame_with_record df r Hin). intros ->. discriminate Hrk. }
  destruct b; cbn [bulk_insert bulk_table bulk_key bulk_error] in *;
    unfold insert_videos_into_sqlite, insert_comments_into_sqlite;
    unfold bind at 1;
    [ rewrite (bulk_ddl_is_noop Videos s t Ht)
    | rewrite (bulk_ddl_is_noop Comments s t Ht) ];
    rewrite Hne; cbn [negb];
    unfold try_except, bind at 1, df_to_sql; rewrite E; reflexivity.
Qed.

Lemma stored_id_refuses_the_whole_frame_witness :
  exists e,
    insert_videos_into_sqlite [video_row "v2"; video_row "v1"; video_row "v3"]
      one_video_stored
    = (Ret tt,
       mkState [] (db one_video_stored)
         [St Error "Error inserting video data: {e}" [VStr (str_of_exn e)]]).
Proof.
  apply (stored_id_refuses_the_whole_frame Videos one_video_stored
           (mkTable Stream.videos_columns
              [map (fun c => find_cell (col_name c)
                               (map (fun p => (fst p,
                                  match bind_value (snd p) with Ret x => x | _ => SNull end))
                                  (video_row "v1")))
                 Stream.videos_columns])
           [video_row "v2"; video_row "v1"; video_row "v3"]
           (video_row "v1") (VStr "v1") (SText "v1")).
  - vm_compute. reflexivity.
  - reflexivity.
  - vm_compute. lia.
  - discriminate.
  - right. left. reflexivity.
  - reflexivity.
  - reflexivity.
Defined.

Lemma keyed_app cols rows more name k :
  keyed cols (rows ++ more) name k
  = (keyed cols rows name k + keyed cols more name k)%nat.
Proof. unfold keyed. rewrite filter_app, length_app. reflexivity. Qed.

Lemma keyed_none cols rows name k :
  (forall old, In old rows -> cell_at cols old name <> k) ->
  keyed cols rows name k = 0%nat.
Proof.
  unfold keyed. induction rows as [|r rows IH]; intros H; [reflexivity|].
  cbn. rewrite (sqlval_eqb_neq _ _ (H r (or_introl eq_refl))).
  apply IH. intros old Ho. apply H. right. exact Ho.
Qed.

Lemma executemany_keeps_keys_unique name kname df :
  forall t t',
    key_column (tbl_columns t) kname = true ->
    (forall k, k <> SNull -> (keyed (tbl_columns t) (tbl_rows t) kname k <= 1)%nat) ->
    executemany name t df = Ret t' ->
    forall k, k <> SNull -> (keyed (tbl_columns t') (tbl_rows t') kname k <= 1)%nat.
Proof.
  induction df as [|r df IH]; intros t t' Hkey Hu H.
  - inversion H; subst t'. exact Hu.
  - cbn in H. destruct (insert_row name t r) as [t1 | |] eqn:E; try discriminate H.
    cbn in H. destruct (insert_row_ok _ _ _ _ E) as (cells & _ & Hc & ->).
    set (new := map (fun c => find_cell (col_name c) cells) (tbl_columns t)) in *.
    refine (IH (mkTable (tbl_columns t) (tbl_rows t ++ [new])) t' Hkey _ H).
    cbn [tbl_columns tbl_rows].
    intros k Hk. rewrite keyed_app.
    unfold keyed at 2. cbn [filter].
    destruct (sqlval_eqb (cell_at (tbl_columns t) new kname) k) eqn:En.
    + apply sqlval_eqb_eq in En.
      rewrite keyed_none; [cbn; lia|].
      intros old Ho.
      pose proof (first_clash_none _ _ _ old Hc Ho) as Hp.
      destruct (no_clash_keys_differ _ kname Hkey old new Hp) as [Hn | Hn];
        congruence.
    + cbn. pose proof (Hu k Hk). lia.
Qed.

(** X10.  In a table that declares the id column as primary key, a bulk
    insertion of videos or comments never makes two rows share an id:
    when every id that is not NULL is held by at most one row before, the
    same is true after, whether the insertion succeeded or was refused. *)
Theorem bulk_insert_keeps_ids_unique
    {W} (b : bulk) (s : state W) (t : table) (df : dataframe) :
  lookup (bulk_table b) (db s) = Some t ->
  key_column (tbl_columns t) (bulk_key b) = true ->
  unique_keys (db s) (bulk_table b) (bulk_key b) ->
  unique_keys (db (snd (bulk_insert b df s))) (bulk_table b) (bulk_key b).
Proof.
  intros Ht Hkey Hu.
  assert (Hsql : forall d', to_sql (bulk_table b) df (db s) = Ret d' ->
                   unique_keys d' (bulk_table b) (bulk_key b)).
  { intros d' H. unfold to_sql in H. rewrite Ht in H. rewrite Ht in H.
    destruct (executemany (bulk_table b) t df) as [t' | |] eqn:E; try discriminate H.
    cbn in H. inversion H; subst d'. intros k Hk. unfold count_key.
    rewrite (lookup_replace_table _ t' _ t Ht).
    apply (executemany_keeps_keys_unique _ _ _ _ _ Hkey) with (k := k) in E;
      [exact E | | exact Hk].
    intros k' Hk'. specialize (Hu k' Hk'). unfold count_key in Hu.
    rewrite Ht in Hu. exact Hu. }
  destruct (frame_empty df) eqn:Hdf.
  - destruct b; cbn [bulk_insert bulk_table bulk_key] in *;
      unfold insert_videos_into_sqlite, insert_comments_into_sqlite;
      unfold bind at 1;
      [ rewrite (bulk_ddl_is_noop Videos s t Ht)
      | rewrite (bulk_ddl_is_noop Comments s t Ht) ];
      rewrite Hdf; cbn; exact Hu.
  - destruct b; cbn [bulk_insert bulk_table bulk_key] in *;
      unfold insert_videos_into_sqlite, insert_comments_into_sqlite;
      unfold bind at 1;
      [ rewrite (bulk_ddl_is_noop Videos s t Ht)
      | rewrite (bulk_ddl_is_noop Comments s t Ht) ];
      rewrite Hdf; cbn [negb];
      unfold try_except, bind at 1, df_to_sql;
      (destruct (to_sql _ df (db s)) as [d' | e |] eqn:E;
       [ cbn; apply Hsql; reflexivity | cbn; exact Hu | cbn; exact Hu ]).
Qed.

Lemma bulk_insert_keeps_ids_unique_witness :
  unique_keys
    (db (snd (insert_videos_into_sqlite [video_row "v2"; video_row "v3"]
                one_video_stored)))
    "videos" "Video_Id".
Proof.
  apply (bulk_insert_keeps_ids_unique Videos one_video_stored
           (mkTable Stream.videos_columns
              [map (fun c => find_cell (col_name c)
                               (map (fun p => (fst p,
                                  match bind_value (snd p) with Ret x => x | _ => SNull end))
                                  (video_row "v1")))
                 Stream.videos_columns])
           [video_row "v2"; video_row "v3"]).
  - vm_compute. reflexivity.
  - reflexivity.
  - intros k _. unfold count_key.
    change (lookup (bulk_table Videos) (db one_video_stored))
      with (Some (mkTable Stream.videos_columns
              [map (fun c => find_cell (col_name c)
                               (map (fun p => (fst p,
                                  match bind_value (snd p) with Ret x => x | _ => SNull end))
                                  (video_row "v1")))
                 Stream.videos_columns])).
    cbn [tbl_rows filter].
    match goal with |- context [if ?c then _ else _] => destruct c end; cbn; lia.
Defined.

End StoreInvariants.

(* ------------------------------------------------------------------ *)
(** ** The records and their tables                                     *)
(* ------------------------------------------------------------------ *)

Module RecordFacts.
Import Py Store Api Stream StoreQuery App Scripted Duration DurationFacts.
Local Open Scope py_scope.

Ltac step H :=
  match type of H with
  | rbind ?c _ = Ret _ =>
      let E := fresh "E" in
      destruct c eqn:E; cbn [rbind] in H; [ | discriminate H | discriminate H]
  end.

(** X11.  [videos_data] cuts the ids into consecutive batches: the
    batches joined give back the ids in input order, every batch holds
    between 1 and 50 ids, and there are ceil(n/50) of them. *)
Theorem batches_cut_the_ids {A} (video_ids : list A) :
  List.concat (map (batch_at video_ids) (batch_starts (List.length video_ids)))
    = video_ids /\
  Forall (fun i => (1 <= List.length (batch_at video_ids i) <= 50)%nat)
    (batch_starts (List.length video_ids)) /\
  List.length (batch_starts (List.length video_ids))
    = ((List.length video_ids + 49) / 50)%nat.
Proof.
  split; [apply Runs.batches_partition|]. split.
  - apply Forall_forall. intros i Hi. apply Runs.batches_sizes. exact Hi.
  - unfold batch_starts. rewrite length_map, length_seq. reflexivity.
Qed.

(** X12.  Every record one of the four builders hands back has the
    columns of its table: the keys of a video record, a comment record
    and the record of [fetch_channel_data] are the declared column names
    in order, the keys of the record of [channel_info] are those names up
    to letter case, and the tables of setup_local_db.py take them too.
    So an insertion never fails for an unknown column. *)
Theorem records_fit_their_tables
    (item thread response channel : value) (newchannel_id : string)
    (info comment data fetched : row) :
  video_info item = Ret info ->
  comment_of thread channel = Ret comment ->
  channel_data response = Ret data ->
  fetched_channel_data response newchannel_id = Ret fetched ->
  (map fst info = map col_name Stream.videos_columns /\
   unknown_column SetupLocalDb.videos_columns info = None) /\
  (map fst comment = map col_name Stream.comments_columns /\
   unknown_column SetupLocalDb.comments_columns comment = None) /\
  (unknown_column Stream.channels_columns data = None /\
   unknown_column SetupLocalDb.channels_columns data = None) /\
  (map fst fetched = map col_name Stream.channels_columns /\
   unknown_column SetupLocalDb.channels_columns fetched = None).
Proof.
  unfold video_info, comment_of, channel_data, fetched_channel_data.
  intros H1 H2 H3 H4.
  repeat step H1. repeat step H2. repeat step H3. repeat step H4.
  inversion H1; inversion H2; inversion H3; inversion H4.
  repeat split; reflexivity.
Qed.

Lemma records_fit_their_tables_witness :
  unknown_column Stream.videos_columns long_video_info = None /\
  unknown_column Stream.channels_columns (channel_row "UC1") = None.
Proof.
  destruct (records_fit_their_tables
              long_video_item (comment_item "c1" "v1") public_channel (VStr "UC1") "UC1"
              long_video_info (comment_row "c1") (channel_row "UC1")
              [ ("channel_name", VStr "A channel"); ("channel_id", VStr "UC1");
                ("channel_des", VStr "about it"); ("channel_playid", VStr "UU1");
                ("channel_viewcount", VInt 1000); ("channel_subcount", VInt 25) ])
    as ((_ & _) & _ & (H & _) & _).
  - reflexivity.
  - reflexivity.
  - reflexivity.
  - reflexivity.
  - split; [reflexivity | exact H].
Defined.

(** X13.  In every video record the four counts and the duration are
    integers, and the duration is never negative, whatever the payload
    holds. *)
Theorem video_record_numbers (item : value) (info : row) :
  video_info item = Ret info ->
  exists views likes favorites comments seconds,
    lookup "Video_viewcount" info = Some (VInt views) /\
    lookup "Video_likecount" info = Some (VInt likes) /\
    lookup "Video_favoritecount" info = Some (VInt favorites) /\
    lookup "Video_commentcount" info = Some (VInt comments) /\
    lookup "Video_duration" info = Some (VInt seconds) /\
    0 <= seconds.
Proof.
  unfold video_info. intros H. repeat step H. inversion H.
  eexists _, _, _, _, _. repeat split.
  match goal with
  | E : duration_of ?d = Ret ?z |- 0 <= ?z =>
      destruct d; cbn in E; try discriminate E;
      apply (str_seconds_nonneg _ _ E)
  end.
Qed.

Lemma video_record_numbers_witness :
  exists views likes favorites comments seconds,
    lookup "Video_viewcount" long_video_info = Some (VInt views) /\
    lookup "Video_likecount" long_video_info = Some (VInt likes) /\
    lookup "Video_favoritecount" long_video_info = Some (VInt favorites) /\
    lookup "Video_commentcount" long_video_info = Some (VInt comments) /\
    lookup "Video_duration" long_video_info = Some (VInt seconds) /\
    0 <= seconds.
Proof.
  apply (video_record_numbers long_video_item long_video_info). reflexivity.
Defined.

(** X14.  An item that is a dict without snippet, statistics and
    contentDetails still gives a video record: the id as it is (or None),
    the counts and the duration 0, the tags empty, the caption flag
    "false", and None elsewhere. *)
Theorem bare_item_gets_defaults (kv : list (string * value)) :
  lookup "snippet" kv = None ->
  lookup "statistics" kv = None ->
  lookup "contentDetails" kv = None ->
  video_info (VDict kv)
  = Ret [ ("Video_Id", match lookup "id" kv with Some id => id | None => VNone end);
          ("Video_title", VNone); ("Video_Description", VNone);
          ("channel_id", VNone); ("video_tags", VStr "");
          ("Video_pubdate", VNone);
          ("Video_viewcount", VInt 0); ("Video_likecount", VInt 0);
          ("Video_favoritecount", VInt 0); ("Video_commentcount", VInt 0);
          ("Video_duration", VInt 0); ("Video_thumbnails", VNone);
          ("Video_caption", VStr "false") ].
Proof.
  intros H1 H2 H3. unfold video_info. cbn [dict_get].
  rewrite H1, H2, H3. cbn [rbind lookup].
  destruct (lookup "id" kv); reflexivity.
Qed.

Lemma bare_item_gets_defaults_witness :
  exists info,
    video_info (VDict [("kind", VStr "youtube#video"); ("id", VStr "v1")]) = Ret info /\
    lookup "Video_Id" info = Some (VStr "v1") /\
    lookup "Video_duration" info = Some (VInt 0).
Proof.
  eexists. split.
  - apply (bare_item_gets_defaults [("kind", VStr "youtube#video"); ("id", VStr "v1")]);
      reflexivity.
  - split; reflexivity.
Defined.

End RecordFacts.

(* ------------------------------------------------------------------ *)
(** ** Comments carry the channel of the harvest                        *)
(* ------------------------------------------------------------------ *)

Module CommentFacts.
Import Py Store Api Stream StoreQuery App Words Scripted.
Local Open Scope py_scope.

Lemma comment_of_channel item channel comment :
  comment_of item channel = Ret comment -> of_channel channel comment.
Proof.
  unfold comment_of. intros H. repeat RecordFacts.step H. inversion H. reflexivity.
Qed.

Lemma comments_of_channel items channel :
  forall comments,
    comments_of items channel = Ret comments -> Forall (of_channel channel) comments.
Proof.
  induction items as [|item items IH]; intros comments H.
  - inversion H. constructor.
  - cbn [comments_of] in H. repeat RecordFacts.step H. inversion H.
    constructor; [apply (comment_of_channel _ _ _ E) | apply IH; reflexivity].
Qed.

Section Remote.

Context {W : Type}.
Variable serve : Request -> W -> http_outcome * W.
Variable pass : Request -> @callable W.

Ltac inv_bind H :=
  let a := fresh "a" in
  let s1 := fresh "s" in
  let Ha := fresh "Hc" in
  apply CallSiteFacts.bind_ret_inv in H; destruct H as (a & s1 & Ha & H).

Ltac inv_lift H :=
  apply CallSiteFacts.lift_ret_inv in H; destruct H as [H ?]; subst.

Lemma comment_pages_channel fuel :
  forall video_id token channel acc s rows s',
    Forall (of_channel channel) acc ->
    comment_pages_by serve pass fuel video_id token channel acc s = (Ret rows, s') ->
    Forall (of_channel channel) rows.
Proof.
  induction fuel as [|fuel IH]; intros video_id token channel acc s rows s' Hacc H;
    [discriminate H|].
  cbn [comment_pages_by] in H. cbv zeta in H.
  inv_bind H. destruct (is_none a); [inversion H; subst; exact Hacc|].
  inv_bind H. inv_bind H.
  destruct (a0 && is_403 a1).
  - inv_bind H. inv_bind H. inv_bind H. inv_bind H.
    destruct a5; inv_bind H; inversion H; subst; exact Hacc.
  - inv_bind H. destruct (truthy a2).
    + inv_bind H. inv_bind H. inv_bind H. inv_lift Hc5. inv_bind H.
      assert (Hall : Forall (of_channel channel) (acc ++ a5))
        by (apply Forall_app; split;
            [exact Hacc | apply (comments_of_channel _ _ _ Hc5)]).
      destruct (negb (truthy a6)).
      * inversion H; subst. exact Hall.
      * apply (IH _ _ _ _ _ _ _ Hall H).
    + inv_bind H. inversion H; subst. exact Hacc.
Qed.

Lemma comments_videos_channel fuel video_ids channel :
  forall acc s rows s',
    Forall (of_channel channel) acc ->
    comments_videos_by serve pass fuel video_ids channel acc s = (Ret rows, s') ->
    Forall (of_channel channel) rows.
Proof.
  induction video_ids as [|v vs IH]; intros acc s rows s' Hacc H.
  - inversion H; subst. exact Hacc.
  - cbn [comments_videos_by] in H. inv_bind H. inv_bind H.
    apply (IH _ _ _ _ (comment_pages_channel _ _ _ _ _ _ _ _ Hacc Hc0) H).
Qed.

(** X15.  Every comment record [comments_inf] hands back carries, as its
    channel_id, the channel the caller passed, not a channel read from
    the payload; this holds however the request is passed and whatever
    the remote answers. *)
Theorem comments_carry_the_callers_channel
    (fuel : nat) (video_ids : list value) (channel : value)
    (s s' : state W) (rows : dataframe) :
  comments_inf_by serve pass fuel video_ids channel s = (Ret rows, s') ->
  Forall (fun r => lookup "channel_id" r = Some channel) rows.
Proof.
  unfold comments_inf_by. intros H. destruct video_ids as [|v vs].
  - inv_bind H. inversion H. constructor.
  - inv_bind H.
    apply (comments_videos_channel _ _ _ _ _ _ _ (Forall_nil _) H).
Qed.

End Remote.

Lemma comments_carry_the_callers_channel_witness :
  exists rows s',
    comments_inf_by serve request_method 10 [VStr "v1"; VStr "v2"] (VStr "UC-mine")
      (start [HttpOk (comments_response "c1" "v1");
              HttpOk (comments_response "c2" "v2")] [])
    = (Ret rows, s') /\
    List.length rows = 2%nat /\
    Forall (fun r => lookup "channel_id" r = Some (VStr "UC-mine")) rows.
Proof.
  eexists _, _. split; [vm_compute; reflexivity|]. split; [reflexivity|].
  eapply (comments_carry_the_callers_channel serve request_method 10
            [VStr "v1"; VStr "v2"] (VStr "UC-mine")
            (start [HttpOk (comments_response "c1" "v1");
                    HttpOk (comments_response "c2" "v2")] [])).
  vm_compute. reflexivity.
Defined.

End CommentFacts.

(* ------------------------------------------------------------------ *)
(** ** Declaring the tables again                                       *)
(* ------------------------------------------------------------------ *)

Module SchemaFacts.
Import Py Store Api Stream StoreQuery App StoreFacts StoreInvariants Scripted.

Lemma create_keeps_tables name cols d other t :
  lookup other d = Some t ->
  lookup other (create_table_if_not_exists name cols d) = Some t.
Proof.
  intros H. unfold create_table_if_not_exists.
  destruct (lookup name d); [exact H|].
  rewrite lookup_app_new, H. reflexivity.
Qed.

Lemma create_makes_table name cols d :
  exists t, lookup name (create_table_if_not_exists name cols d) = Some t.
Proof.
  unfold create_table_if_not_exists. destruct (lookup name d) as [t|] eqn:E.
  - exists t. exact E.
  - eexists. rewrite lookup_app_new, E, String.eqb_refl. reflexivity.
Qed.

(** With the three tables there, neither block of declarations changes
    anything. *)
Lemma declarations_change_nothing d tv tc tm :
  lookup "videos" d = Some tv -> lookup "channels" d = Some tc ->
  lookup "comments" d = Some tm ->
  SetupLocalDb.ensure_tables d = d /\ startup_ddl d = d.
Proof.
  intros Hv Hc Hm. unfold SetupLocalDb.ensure_tables, startup_ddl.
  rewrite !(create_existing_table "videos" _ d tv Hv).
  rewrite !(create_existing_table "channels" _ d tc Hc).
  rewrite !(create_existing_table "comments" _ d tm Hm).
  split; reflexivity.
Qed.

Lemma ensure_tables_makes_all d :
  exists tv tc tm,
    lookup "videos" (SetupLocalDb.ensure_tables d) = Some tv /\
    lookup "channels" (SetupLocalDb.ensure_tables d) = Some tc /\
    lookup "comments" (SetupLocalDb.ensure_tables d) = Some tm.
Proof.
  unfold SetupLocalDb.ensure_tables.
  destruct (create_makes_table "videos" SetupLocalDb.videos_columns d) as (tv & Hv).
  set (d1 := create_table_if_not_exists "videos" _ d) in *.
  destruct (create_makes_table "channels" SetupLocalDb.channels_columns d1) as (tc & Hc).
  set (d2 := create_table_if_not_exists "channels" _ d1) in *.
  destruct (create_makes_table "comments" SetupLocalDb.comments_columns d2) as (tm & Hm).
  exists tv, tc, tm. repeat split.
  - apply create_keeps_tables, create_keeps_tables. exact Hv.
  - apply create_keeps_tables. exact Hc.
  - exact Hm.
Qed.

Lemma startup_ddl_makes_all d :
  exists tv tc tm,
    lookup "videos" (startup_ddl d) = Some tv /\
    lookup "channels" (startup_ddl d) = Some tc /\
    lookup "comments" (startup_ddl d) = Some tm.
Proof.
  unfold startup_ddl.
  destruct (create_makes_table "videos" Stream.videos_columns d) as (tv & Hv).
  set (d1 := create_table_if_not_exists "videos" _ d) in *.
  destruct (create_makes_table "channels" Stream.channels_columns d1) as (tc & Hc).
  set (d2 := create_table_if_not_exists "channels" _ d1) in *.
  destruct (create_makes_table "comments" Stream.comments_columns d2) as (tm & Hm).
  exists tv, tc, tm. repeat split.
  - apply create_keeps_tables, create_keeps_tables. exact Hv.
  - apply create_keeps_tables. exact Hc.
  - exact Hm.
Qed.

(** X16.  On any database, [ensure_tables] and the declarations Stream.py
    runs at start-up are idempotent, whichever of the two ran first the
    other changes nothing afterwards, and neither ever alters or drops a
    table that is there, rows included. *)
Theorem declarations_are_idempotent_and_keep_tables (d : database) (name : string) :
  SetupLocalDb.ensure_tables (SetupLocalDb.ensure_tables d) = SetupLocalDb.ensure_tables d /\
  startup_ddl (startup_ddl d) = startup_ddl d /\
  startup_ddl (SetupLocalDb.ensure_tables d) = SetupLocalDb.ensure_tables d /\
  SetupLocalDb.ensure_tables (startup_ddl d) = startup_ddl d /\
  match lookup name d with
  | Some t =>
      lookup name (SetupLocalDb.ensure_tables d) = Some t /\
      lookup name (startup_ddl d) = Some t
  | None => True
  end.
Proof.
  destruct (ensure_tables_makes_all d) as (tv & tc & tm & Hv & Hc & Hm).
  destruct (startup_ddl_makes_all d) as (sv & sc & sm & Sv & Sc & Sm).
  destruct (declarations_change_nothing _ _ _ _ Hv Hc Hm) as [E1 E2].
  destruct (declarations_change_nothing _ _ _ _ Sv Sc Sm) as [E3 E4].
  repeat split; try assumption.
  destruct (lookup name d) as [t|] eqn:E; [|exact Logic.I].
  split; unfold SetupLocalDb.ensure_tables, startup_ddl;
    repeat apply create_keeps_tables; exact E.
Qed.

End SchemaFacts.

(* ------------------------------------------------------------------ *)
(** ** The two ways of passing the request, and the report menu         *)
(* ------------------------------------------------------------------ *)

Module PassingFacts.
Import Py Store Api Stream StoreQuery App Words ClientFacts Scripted.
Local Open Scope py_scope.

Section Remote.

Context {W : Type}.
Variable serve : Request -> W -> http_outcome * W.

Lemma loops_agree_on_errors r
    (Herr : forall w, exists e w', serve r w = (HttpRaise e, w')) fuel :
  forall k s,
    safe_api_loop serve fuel (bound_execute serve r) k s
    = safe_api_loop serve fuel (request_method r) k s.
Proof.
  induction fuel as [|fuel IH]; intros k s; [reflexivity|].
  destruct (Nat.ltb_spec k 5) as [Hk | Hk].
  - destruct (Herr (world s)) as (e & w' & Hs).
    pose proof (bound_execute_sends serve r s e w' Hs) as Hb.
    pose proof (request_method_sends serve r s e w' Hs) as Hm.
    destruct (quota_exceeded e) eqn:Hq.
    + rewrite (loop_retry serve fuel _ k s _ e Hk Hb Hq).
      rewrite (loop_retry serve fuel _ k s _ e Hk Hm Hq). apply IH.
    + destruct (is_404 e) eqn:H4.
      * rewrite (loop_not_found serve fuel _ k s _ e Hk Hb Hq H4).
        rewrite (loop_not_found serve fuel _ k s _ e Hk Hm Hq H4). reflexivity.
      * rewrite (loop_fatal serve fuel _ k s _ e Hk Hb Hq H4).
        rewrite (loop_fatal serve fuel _ k s _ e Hk Hm Hq H4). reflexivity.
  - cbn [Stream.safe_api_loop].
    replace (k <? max_retries)%nat with false
      by (symmetry; apply Nat.ltb_ge; exact Hk).
    reflexivity.
Qed.

(** X17.  Passing [request.execute] instead of the resource method makes
    a difference only when the remote sends a body: against a remote that
    answers a request with errors only, [safe_api_call] does exactly the
    same either way (the same result, requests, sleeps and messages), so
    the retry, the 404 and the fatal path are as intended in the code as
    written. *)
Theorem passing_differs_only_on_success (r : Request) (s : state W) :
  (forall w, exists e w', serve r w = (HttpRaise e, w')) ->
  safe_api_call serve (bound_execute serve r) s
  = safe_api_call serve (request_method r) s.
Proof. intros H. apply loops_agree_on_errors. exact H. Qed.

Variable read_sql_query : string -> database -> result dataframe.

Lemma lookup_none_not_in {A} k (kv : list (string * A)) :
  ~ In k (map fst kv) -> lookup k kv = None.
Proof.
  induction kv as [|[k' v] kv IH]; cbn; intros H; [reflexivity|].
  destruct (String.eqb k k') eqn:E.
  - apply String.eqb_eq in E. contradiction H. left. symmetry. exact E.
  - apply IH. intros Hin. apply H. right. exact Hin.
Qed.

(** X18.  Every question the "Select Query" box offers has a statement:
    [execute_query] runs exactly that statement against the store, emits
    no message and changes nothing.  For any other text it runs no
    statement, emits "Invalid query selected." and hands back an empty
    frame. *)
Theorem menu_questions_have_statements
    (question other : string) (s : state W) :
  In question query_menu ->
  ~ In other (map fst query_mapping) ->
  (exists query,
     lookup question query_mapping = Some query /\
     execute_query read_sql_query question s = (read_sql_query query (db s), s)) /\
  execute_query read_sql_query other s
  = (Ret [],
     mkState (world s) (db s) (trace s ++ [St Error "Invalid query selected." []])).
Proof.
  intros Hq Ho. split.
  - unfold query_menu in Hq. cbn [In] in Hq.
    repeat (destruct Hq as [<- | Hq];
            [eexists; split; [reflexivity|]; unfold execute_query; cbn; reflexivity|]).
    contradiction Hq.
  - unfold execute_query. rewrite (lookup_none_not_in _ _ Ho). reflexivity.
Qed.

End Remote.

Lemma passing_differs_only_on_success_witness :
  safe_api_call outage (bound_execute outage a_channel_request) (mkState 0%nat [] [])
  = safe_api_call outage (request_method a_channel_request) (mkState 0%nat [] []).
Proof.
  apply (passing_differs_only_on_success outage a_channel_request (mkState 0%nat [] [])).
  intros w. unfold outage.
  destruct w as [|[|w]]; eexists _, _; reflexivity.
Defined.

Lemma menu_questions_have_statements_witness :
  (exists query,
     lookup "What are the top 10 most viewed videos and their respective channels?"
       query_mapping = Some query /\
     execute_query echo_engine
       "What are the top 10 most viewed videos and their respective channels?"
       (start [] fresh_store)
     = (echo_engine query fresh_store, start [] fresh_store)) /\
  execute_query echo_engine "What is the answer?" (start [] fresh_store)
  = (Ret [], mkState [] fresh_store [St Error "Invalid query selected." []]).
Proof.
  apply (menu_questions_have_statements echo_engine
           "What are the top 10 most viewed videos and their respective channels?"
           "What is the answer?" (start [] fresh_store)).
  - cbn [query_menu In]. right. right. left. reflexivity.
  - cbn [query_mapping map fst In]. intros H.
    repeat (destruct H as [H | H]; [discriminate H|]). exact H.
Defined.

End PassingFacts.

(* ------------------------------------------------------------------ *)
(** ** Storing a channel and asking for it                              *)
(* ------------------------------------------------------------------ *)

Module RoundTrip.
Import Py Store Api Stream StoreQuery App Words StoreInvariants LookupFacts Scripted.
Local Open Scope py_scope.

(** A stored record is counted under its key. *)
Lemma stored_record_is_counted name kname id d t r d' :
  lookup name d = Some t ->
  has_column (tbl_columns t) kname = true ->
  row_key r kname = Some (VStr id) ->
  to_sql name [r] d = Ret d' ->
  (1 <= count_key d' name kname (SText id))%nat.
Proof.
  intros Ht Hc Hk H. unfold to_sql in H. rewrite Ht in H. rewrite Ht in H.
  cbn [executemany] in H.
  destruct (insert_row name t r) as [t1 | |] eqn:E; try discriminate H.
  cbn in H. inversion H; subst d'.
  destruct (insert_row_ok _ _ _ _ E) as (cells & Hb & _ & ->).
  unfold count_key. rewrite (lookup_replace_table _ _ _ t Ht).
  cbn [tbl_columns tbl_rows]. rewrite filter_app, length_app. cbn [filter].
  rewrite (cell_at_new_row _ _ _ Hc).
  rewrite (bound_key r kname cells (VStr id) (SText id) Hb Hk eq_refl).
  rewrite sqlval_eqb_refl. cbn. lia.
Qed.

Section Remote.

Context {W : Type}.
Variable serve : Request -> W -> http_outcome * W.

(** X19.  A channel record stored with [to_sql] is found again: asked for
    that id afterwards, [fetch_channel_data] answers from the store with
    at least one row and sends no request, however the request would be
    passed and whatever the remote would answer. *)
Theorem stored_channel_is_found_again
    (pass : Request -> callable) (id : string) (s : state W) (t : table)
    (r : row) (d' : database) :
  lookup "channels" (db s) = Some t ->
  has_column (tbl_columns t) "channel_id" = true ->
  row_key r "channel_id" = Some (VStr id) ->
  to_sql "channels" [r] (db s) = Ret d' ->
  let run := fetch_channel_data_by serve pass id (mkState (world s) d' (trace s)) in
  (exists df, fst run = Ret df /\ (1 <= List.length df)%nat) /\
  requests (trace (snd run)) = requests (trace s) /\
  world (snd run) = world s /\ db (snd run) = d'.
Proof.
  intros Ht Hc Hk H.
  pose proof (stored_record_is_counted _ _ _ _ _ _ _ Ht Hc Hk H) as Hn.
  destruct (select_by_text_key _ _ _ _ Hn) as (df & Hsel & Hlen & Hne).
  assert (E : fetch_channel_data_by serve pass id (mkState (world s) d' (trace s))
              = (Ret df,
                 mkState (world s) d'
                   (trace s ++
                      [St Info
                         "Channel already exists in the database. Returning existing data."
                         []]))).
  { unfold fetch_channel_data_by, bind at 1, get_db.
    unfold bind at 1, lift. cbn [db]. rewrite Hsel, Hne. reflexivity. }
  cbv zeta. rewrite E. cbn [fst snd world db trace].
  split; [|split; [|split; reflexivity]].
  - eexists. split; [reflexivity | lia].
  - rewrite ClientBounds.requests_app. cbn. apply app_nil_r.
Qed.

End Remote.

Lemma stored_channel_is_found_again_witness :
  let run := fetch_channel_data serve "UC1"
               (after (df_to_sql "channels" [channel_row "UC1"]
                         (start [HttpOk public_channel] fresh_store))) in
  (exists df, fst run = Ret df /\ (1 <= List.length df)%nat) /\
  requests (trace (snd run)) = [].
Proof.
  destruct (stored_channel_is_found_again serve (bound_execute serve) "UC1"
              (start [] fresh_store) (mkTable Stream.channels_columns [])
              (channel_row "UC1")
              (db (after (df_to_sql "channels" [channel_row "UC1"]
                            (start [HttpOk public_channel] fresh_store)))))
    as (H1 & H2 & _).
  - reflexivity.
  - reflexivity.
  - reflexivity.
  - reflexivity.
  - split; [exact H1 | exact H2].
Defined.

End RoundTrip.

(* ------------------------------------------------------------------ *)
(** ** Every fetch ends                                                 *)
(* ------------------------------------------------------------------ *)

Module EndFacts.
Import Py Store Api Stream StoreQuery App Words ClientFacts CallSiteFacts
  ClientBounds Scripted.
Local Open Scope py_scope.

Lemma str_join_ends sep items : str_join sep items <> OutOfFuel.
Proof.
  induction items as [|v items IH]; [discriminate|].
  cbn [str_join]. destruct v; try discriminate.
  destruct items as [|v' items]; [discriminate|].
  destruct (str_join sep (v' :: items)); cbn; try discriminate.
  contradiction IH; reflexivity.
Qed.

Section Remote.

Context {W : Type}.
Variable serve : Request -> W -> http_outcome * W.

Lemma bind_ends {A B} (c : M W A) (k : A -> M W B) s :
  fst (c s) <> OutOfFuel ->
  (forall a s1, c s = (Ret a, s1) -> fst (k a s1) <> OutOfFuel) ->
  fst (bind c k s) <> OutOfFuel.
Proof.
  unfold bind. intros Hc Hk. destruct (c s) as [[a | e |] s1]; cbn in *.
  - apply Hk. reflexivity.
  - discriminate.
  - contradiction Hc; reflexivity.
Qed.

Lemma api_ends r s :
  fst (safe_api_call serve (bound_execute serve r) s) <> OutOfFuel.
Proof.
  destruct (loop_bounds serve r _ (bound_execute_one_request serve r) 5 0 s eq_refl)
    as (n & j & res & s' & E & Hres & _).
  unfold Stream.safe_api_call, max_retries. rewrite E. exact Hres.
Qed.

Lemma playlist_channels_end fuel channel_ids :
  forall acc s,
    fst (playlist_channels_by serve (bound_execute serve) fuel channel_ids acc s)
    <> OutOfFuel.
Proof.
  induction channel_ids as [|c cs IH]; intros acc s; [discriminate|].
  cbn [playlist_channels_by].
  apply bind_ends; [discriminate|]. intros _ s1 _.
  apply bind_ends; [apply api_ends|]. intros response s2 E.
  apply bound_execute_returns_none in E. subst response.
  apply bind_ends; [discriminate|]. intros ok s3 E.
  apply lift_ret_inv in E. destruct E as [E ->]. cbn in E. inversion E; subst ok.
  apply bind_ends; [discriminate|]. intros ids s4 _. apply IH.
Qed.

Lemma videos_batches_end video_ids starts :
  forall acc s,
    fst (videos_batches_by serve (bound_execute serve) video_ids starts acc s)
    <> OutOfFuel.
Proof.
  induction starts as [|i starts IH]; intros acc s; [discriminate|].
  cbn [videos_batches_by]. cbv zeta.
  apply bind_ends; [apply str_join_ends|]. intros shown s1 _.
  apply bind_ends; [discriminate|]. intros _ s2 _.
  apply bind_ends; [apply str_join_ends|]. intros id s3 _.
  apply bind_ends; [apply api_ends|]. intros response s4 E.
  apply bound_execute_returns_none in E. subst response.
  apply bind_ends; [discriminate|]. intros found s5 E.
  apply lift_ret_inv in E. destruct E as [E ->]. cbn in E. inversion E; subst found.
  apply bind_ends; [discriminate|]. intros _ s6 _. apply IH.
Qed.

Lemma comments_videos_end fuel video_ids channel :
  forall acc s,
    fst (comments_videos_by serve (bound_execute serve) (S fuel) video_ids channel acc s)
    <> OutOfFuel.
Proof.
  induction video_ids as [|v vs IH]; intros acc s; [discriminate|].
  cbn [comments_videos_by].
  apply bind_ends; [discriminate|]. intros _ s1 _.
  apply bind_ends; [|intros rows s2 _; apply IH].
  cbn [comment_pages_by]. cbv zeta.
  apply bind_ends; [apply api_ends|]. intros response s2 E.
  apply bound_execute_returns_none in E. subst response. discriminate.
Qed.

(** X20.  As written, every fetch ends, by returning or by raising,
    whatever the remote answers: no pagination ever goes round twice, so
    a bound of one round on the [while True] loops is never reached. *)
Theorem every_fetch_ends
    (fuel : nat) (channel_id channel : value) (ids : list value) (s : state W) :
  (1 <= fuel)%nat ->
  fst (channel_info serve channel_id s) <> OutOfFuel /\
  fst (playlist_videos_id serve fuel ids s) <> OutOfFuel /\
  fst (videos_data serve ids s) <> OutOfFuel /\
  fst (comments_inf serve fuel ids channel s) <> OutOfFuel.
Proof.
  intros Hfuel. destruct fuel as [|fuel]; [lia|]. repeat split.
  - unfold channel_info, channel_info_by. cbv zeta.
    apply bind_ends; [apply api_ends|]. intros response s1 E.
    apply bound_execute_returns_none in E. subst response.
    apply bind_ends; [discriminate|]. intros found s2 E.
    apply lift_ret_inv in E. destruct E as [E ->]. cbn in E. inversion E; subst found.
    apply bind_ends; [discriminate|]. intros _ s3 _. discriminate.
  - apply playlist_channels_end.
  - unfold videos_data, videos_data_by.
    apply bind_ends; [discriminate|]. intros _ s1 _.
    destruct ids as [|v vs].
    + apply bind_ends; [discriminate|]. intros _ s2 _. discriminate.
    + apply videos_batches_end.
  - unfold comments_inf, comments_inf_by. destruct ids as [|v vs].
    + apply bind_ends; [discriminate|]. intros _ s1 _. discriminate.
    + apply bind_ends; [discriminate|]. intros _ s1 _. apply comments_videos_end.
Qed.

End Remote.

Lemma every_fetch_ends_witness :
  fst (playlist_videos_id serve 1 [VStr "UC1"] (start three_pages [])) <> OutOfFuel /\
  fst (comments_inf serve 1 [VStr "v1"] (VStr "UC1")
         (start [HttpOk (comments_response "c1" "v1")] [])) <> OutOfFuel.
Proof.
  split.
  - apply (every_fetch_ends serve 1 (VStr "UC1") (VStr "UC1") [VStr "UC1"]
             (start three_pages [])). lia.
  - apply (every_fetch_ends serve 1 (VStr "UC1") (VStr "UC1") [VStr "v1"]
             (start [HttpOk (comments_response "c1" "v1")] [])). lia.
Defined.

End EndFacts.

(* ------------------------------------------------------------------ *)
(** ** Durations of a day and more                                      *)
(* ------------------------------------------------------------------ *)

Module LongVideoFacts.
Import Py Text Store Api Stream StoreQuery App Scripted Duration DurationFacts.
Import ClientFacts CallSiteFacts HarvestFacts StoreFacts StoreInvariants.
Local Open Scope py_scope.

Lemma getitem_dict_get v k x default :
  getitem v k = Ret x -> dict_get v k default = Ret x.
Proof.
  destruct v; simpl; try discriminate.
  destruct (lookup k kv); [intros H; exact H | discriminate].
Qed.

Ltac step H :=
  match type of H with
  | rbind ?c _ = Ret _ =>
      let E := fresh "E" in
      destruct c eqn:E; cbn [rbind] in H; [ | discriminate H | discriminate H]
  end.

(** The record of a video holds the decoded duration of the payload. *)
Lemma video_info_duration item info :
  video_info item = Ret info ->
  exists contentDetails duration seconds,
    dict_get item "contentDetails" (VDict []) = Ret contentDetails /\
    dict_get contentDetails "duration" (VStr "PT0S") = Ret duration /\
    duration_of duration = Ret seconds /\
    lookup "Video_duration" info = Some (VInt seconds) /\
    row_key info "Video_duration" = Some (VInt seconds) /\
    List.length info = 13%nat.
Proof.
  unfold video_info. intros H. repeat step H.
  inversion H; subst info.
  eexists _, _, _. repeat split; try eassumption; reflexivity.
Qed.

(** The record built for a duration with a days part holds 0. *)
Lemma days_record_holds_zero ds rest item info :
  ds <> [] -> forallb Text.is_digit ds = true ->
  subscript item [K "contentDetails"; K "duration"]
    = Ret (VStr (string_of_list_ascii ("P"%char :: ds ++ rest))) ->
  video_info item = Ret info ->
  lookup "Video_duration" info = Some (VInt 0) /\
  row_key info "Video_duration" = Some (VInt 0) /\
  info <> [].
Proof.
  intros Hne Hds.
  pose proof (str_days_token_unmatched ds rest Hne Hds) as Z0.
  remember (string_of_list_ascii ("P"%char :: ds ++ rest)) as token eqn:Htoken.
  intros Hdur Hinfo.
  destruct (video_info_duration item info Hinfo)
    as (cd & dur & secs & H1 & H2 & H3 & H4 & H5 & H6).
  cbn [subscript] in Hdur.
  destruct (getitem item "contentDetails") as [cd' | |] eqn:G1; try discriminate Hdur.
  cbn [rbind] in Hdur.
  destruct (getitem cd' "duration") as [dur' | |] eqn:G2; try discriminate Hdur.
  cbn [rbind] in Hdur. inversion Hdur; subst dur'.
  rewrite (getitem_dict_get _ _ _ _ G1) in H1. inversion H1; subst cd'.
  rewrite (getitem_dict_get _ _ _ _ G2) in H2. inversion H2; subst dur.
  cbn [duration_of] in H3. rewrite Z0 in H3.
  inversion H3; subst secs.
  split; [exact H4 | split; [exact H5|]].
  intros ->. discriminate H6.
Qed.

Lemma column_type_has_column d tname cname ty :
  column_type d tname cname = Some ty ->
  exists t, lookup tname d = Some t /\ has_column (tbl_columns t) cname = true.
Proof.
  unfold column_type, has_column. destruct (lookup tname d) as [t|]; [|discriminate].
  intros H. exists t. split; [reflexivity|].
  induction (tbl_columns t) as [|c cols IH]; cbn [filter existsb] in *; [discriminate H|].
  destruct (same_name (col_name c) cname); [reflexivity | apply IH; exact H].
Qed.

(** Storing one record that holds an integer in a column: the row that
    is added holds that integer there. *)
Lemma to_sql_stores_the_cell name cname d t r z d' :
  lookup name d = Some t ->
  has_column (tbl_columns t) cname = true ->
  row_key r cname = Some (VInt z) ->
  to_sql name [r] d = Ret d' ->
  exists cells,
    lookup name d' = Some (mkTable (tbl_columns t) (tbl_rows t ++ [cells])) /\
    cell_at (tbl_columns t) cells cname = SInt z.
Proof.
  intros Ht Hc Hk H. unfold to_sql in H. rewrite Ht in H. rewrite Ht in H.
  cbn [executemany] in H.
  destruct (insert_row name t r) as [t1 | |] eqn:E; try discriminate H.
  cbn in H. inversion H; subst d'.
  destruct (insert_row_ok _ _ _ _ E) as (cells & Hb & _ & ->).
  eexists. split; [apply (lookup_replace_table _ _ _ t Ht)|].
  rewrite (cell_at_new_row _ _ _ Hc).
  assert (Hv : exists k, bind_value (VInt z) = Ret k).
  { clear - Hb Hk. revert cells Hb.
    induction r as [|[c x] r IH]; intros cells Hb; [discriminate Hk|].
    cbn [row_key] in Hk. cbn [bind_row] in Hb.
    destruct (bind_value x) as [y | |] eqn:Ex; try discriminate Hb.
    cbn [rbind] in Hb. destruct (bind_row r) as [ys | |] eqn:Er; try discriminate Hb.
    destruct (same_name c cname).
    - inversion Hk; subst x. exists y. exact Ex.
    - apply (IH Hk ys eq_refl). }
  destruct Hv as (k & Hv).
  rewrite (bound_key r cname cells (VInt z) k Hb Hk Hv).
  cbn [bind_value] in Hv.
  destruct ((- 2 ^ 63 <=? z) && (z <? 2 ^ 63)); inversion Hv. reflexivity.
Qed.

Section Remote.

Context {W : Type}.
Variable serve : Request -> W -> http_outcome * W.

(** The first batch answered with a body: [videos_data] raises. *)
Lemma videos_data_raises_on_a_body id s body w' :
  serve (videos_list "snippet,contentDetails,statistics" id) (world s)
    = (HttpOk body, w') ->
  fst (videos_data serve [VStr id] s)
  = Raise (AttributeError
             (String.append (type_name body) " object has no attribute execute")).
Proof.
  intros Hs. unfold videos_data, videos_data_by.
  change (batch_starts (List.length [VStr id])) with [0%nat].
  cbn [videos_batches_by batch_at skipn firstn str_join].
  unfold bind at 1, st, emit at 1. unfold bind at 1, lift at 1.
  unfold bind at 1, emit at 1. unfold bind at 1, lift at 1.
  unfold bind at 1. unfold Stream.safe_api_call, max_retries.
  match goal with
  | |- context [safe_api_loop serve 5 ?rc 0 ?s0] =>
      rewrite (bound_execute_success_raises serve 4 _ 0 s0 body w' ltac:(lia) Hs)
  end.
  reflexivity.
Qed.

(** C9 on the code as written.  A token that goes on with a digit after
    the P, as one with a days or weeks part does (P1DT2H3M4S), decodes
    to 0 whatever follows, because the pattern wants PT; this holds for
    the decimal digits of every script.  The record built for an item
    with such a duration has Video_duration 0, and
    [insert_videos_into_sqlite], given that record and a videos table
    whose Video_duration is an INTEGER column, either adds a row that
    holds 0 there and reports success, or reports the error and leaves
    the store as it is.  But the record never reaches the insertion: as
    the call sites pass [request.execute], [videos_data] raises
    [AttributeError] when its request is answered with a body, hands
    back no record whenever it returns, and "Fetch & Store Video Data"
    leaves the store as it finds it, whatever the remote answers.  So
    the video is not persisted at all. *)
Theorem days_duration_is_zero_and_never_persisted
    (ds rest : list ascii) (item : value) (info : row) :
  ds <> [] -> forallb Text.is_digit ds = true ->
  subscript item [K "contentDetails"; K "duration"]
    = Ret (VStr (string_of_list_ascii ("P"%char :: ds ++ rest))) ->
  video_info item = Ret info ->
  (forall (decimal : codepoint -> option Z) (max_str_digits : nat)
          (digits more : list codepoint),
     unicode_table decimal -> digit_run decimal digits ->
     iso8601_duration_to_seconds decimal max_str_digits (cp "P" :: digits ++ more)
     = Ret 0) /\
  seconds_of_str (string_of_list_ascii ("P"%char :: ds ++ rest)) = Ret 0 /\
  lookup "Video_duration" info = Some (VInt 0) /\
  (forall s : state W,
     column_type (db s) "videos" "Video_duration" = Some INTEGER ->
     exists t s',
       lookup "videos" (db s) = Some t /\
       insert_videos_into_sqlite [info] s = (Ret tt, s') /\
       ((exists cells,
           lookup "videos" (db s')
             = Some (mkTable (tbl_columns t) (tbl_rows t ++ [cells])) /\
           cell_at (tbl_columns t) cells "Video_duration" = SInt 0 /\
           trace s' = trace s ++
             [St Success
                "Successfully inserted {len(df1)} video records into 'videos' table!"
                [VInt 1]])
        \/
        (exists e,
           db s' = db s /\
           trace s' = trace s ++
             [St Error "Error inserting video data: {e}" [VStr (str_of_exn e)]]))) /\
  (forall (s : state W) (id : string) (w' : W),
     serve (videos_list "snippet,contentDetails,statistics" id) (world s)
       = (HttpOk (VDict [("items", VList [item])]), w') ->
     fst (videos_data serve [VStr id] s)
     = Raise (AttributeError "dict object has no attribute execute")) /\
  (forall (s : state W) (video_ids : list value),
     db (snd (videos_data serve video_ids s)) = db s /\
     match fst (videos_data serve video_ids s) with
     | Ret records => records = []
     | _ => True
     end) /\
  (forall (s : state W) (fuel : nat) (current_channel_id : string),
     db (snd (main_fetch_videos serve fuel current_channel_id s)) = db s).
Proof.
  intros Hne Hds Hdur Hinfo.
  destruct (days_record_holds_zero ds rest item info Hne Hds Hdur Hinfo)
    as (Hl & Hk & Hi).
  split; [|split; [|split; [|split; [|split; [|split]]]]].
  - intros decimal limit digits more T Hd.
    apply (days_token_unmatched decimal limit T digits more Hd).
  - apply str_days_token_unmatched; assumption.
  - exact Hl.
  - intros s Hty.
    destruct (column_type_has_column _ _ _ _ Hty) as (t & Ht & Hc).
    exists t.
    assert (Hf : frame_empty [info] = false)
      by (apply (frame_with_record [info] info); [left; reflexivity | exact Hi]).
    unfold insert_videos_into_sqlite. unfold bind at 1.
    rewrite (bulk_ddl_is_noop Bulk.Videos s t Ht). rewrite Hf. cbn [negb].
    unfold try_except, bind at 1, df_to_sql.
    pose proof (to_sql_ends "videos" [info] (db s)) as Hends.
    destruct (to_sql "videos" [info] (db s)) as [d' | e |] eqn:E;
      [ | | contradiction Hends; reflexivity].
    + destruct (to_sql_stores_the_cell _ _ _ _ _ _ _ Ht Hc Hk E) as (cells & Hd' & Hcell).
      eexists. split; [exact Ht|]. split; [reflexivity|]. left.
      exists cells. cbn [world db trace]. repeat split; assumption.
    + eexists. split; [exact Ht|]. split; [reflexivity|]. right.
      exists e. split; reflexivity.
  - intros s id w' Hs. apply (videos_data_raises_on_a_body id s _ w' Hs).
  - intros s video_ids. split.
    + apply (keeps_videos_data_by serve _ (keeps_bound_execute serve)).
    + destruct (videos_data serve video_ids s) as [[df | e |] s'] eqn:E;
        cbn [fst]; try exact Logic.I.
      apply (videos_data_returns_nothing serve _ _ _ _ E).
  - intros s fuel current_channel_id.
    unfold main_fetch_videos, main_fetch_videos_by.
    destruct (negb (String.eqb current_channel_id "")); [|reflexivity].
    apply keeps_after_nothing.
    + apply (keeps_playlist_videos_id_by serve _ (keeps_bound_execute serve)).
    + intros s0 a s1 E. apply (playlist_videos_id_returns_nothing serve _ _ _ _ _ E).
    + apply keeps_st.
Qed.

End Remote.

Lemma days_duration_is_zero_and_never_persisted_witness :
  seconds_of_str "P1DT2H3M4S" = Ret 0 /\
  lookup "Video_duration" long_video_info = Some (VInt 0) /\
  (exists s',
     insert_videos_into_sqlite [long_video_info] (start [] fresh_store) = (Ret tt, s') /\
     count_key (db s') "videos" "Video_duration" (SInt 0) = 1%nat) /\
  fst (videos_data serve [VStr "v1"]
         (start [HttpOk (VDict [("items", VList [long_video_item])])] fresh_store))
  = Raise (AttributeError "dict object has no attribute execute") /\
  row_count
    (db (snd (main_fetch_videos serve 10 "UC1"
                (start [HttpOk uploads_response;
                        HttpOk (VDict [("items", VList [long_video_item])])]
                   fresh_store))))
    "videos" = 0%nat.
Proof.
  destruct (days_duration_is_zero_and_never_persisted serve
              ["1"%char] (list_ascii_of_string "DT2H3M4S")
              long_video_item long_video_info)
    as (_ & H1 & H2 & H3 & H4 & _ & H6).
  - discriminate.
  - reflexivity.
  - reflexivity.
  - reflexivity.
  - split; [exact H1|]. split; [exact H2|]. split; [|split].
    + destruct (H3 (start [] fresh_store) eq_refl) as (t & s' & _ & E & _).
      exists s'. split; [exact E|].
      replace s' with (snd (insert_videos_into_sqlite [long_video_info]
                              (start [] fresh_store)))
        by (rewrite E; reflexivity).
      vm_compute. reflexivity.
    + apply (H4 (start [HttpOk (VDict [("items", VList [long_video_item])])] fresh_store)
               "v1" []).
      reflexivity.
    + rewrite H6. reflexivity.
Defined.

End LongVideoFacts.
